(** * C0lorNote: the note store and its persistence

    A shallow embedding of the two data layers of the repository:

    - [Orm]: the SQLAlchemy models of [src/models/note.py] ([Note], [Tag],
      [Category] and the [note_tag] association table), with the queries
      and mutations of class [Note];
    - [Qt]: the in-memory [Note] class of [modern_colornote.py], its JSON
      encoding ([to_dict], [from_dict]) and the part of [MainWindow] that
      creates, edits, saves and loads notes.

    A character is a code point below 256 and a text is a [string] of
    such characters. *)

From Stdlib Require Import ZArith Ascii String List Lia Sorted.
From stdpp Require Import base option list gmap strings sorting.

Local Open Scope Z_scope.
Local Open Scope string_scope.

(** ** Text helpers shared by both layers *)

Module Text.

(** SQLite's [lower()] and its [LIKE] fold the 26 ASCII letters only. *)
Definition lower_ascii (c : ascii) : ascii :=
  let n := nat_of_ascii c in
  if ((65 <=? n)%nat && (n <=? 90)%nat)%bool then ascii_of_nat (n + 32) else c.

Fixpoint lower (s : string) : string :=
  match s with
  | EmptyString => EmptyString
  | String c s' => String (lower_ascii c) (lower s')
  end.

(** [str.isspace] on the code points below 256. *)
Definition is_space (c : ascii) : bool :=
  let n := nat_of_ascii c in
  ((9 <=? n)%nat && (n <=? 13)%nat) || ((28 <=? n)%nat && (n <=? 32)%nat)
  || (n =? 133)%nat || (n =? 160)%nat.

(** [str.split()] without arguments: the maximal runs of characters
    that are not white space, in order; never an empty word. *)
Fixpoint split_go (cur : option string) (s : string) : list string :=
  match s with
  | EmptyString => option_list (String.rev <$> cur)
  | String a s' =>
      if is_space a
      then option_list (String.rev <$> cur) ++ split_go None s'
      else split_go (Some (String a (default EmptyString cur))) s'
  end.
Definition split (s : string) : list string := split_go None s.

(** [w] is a prefix of [s]; [w] occurs in [s]. *)
Fixpoint prefixb (w s : string) : bool :=
  match w, s with
  | EmptyString, _ => true
  | String _ _, EmptyString => false
  | String a w', String b s' => Ascii.eqb a b && prefixb w' s'
  end.

Fixpoint containsb (w s : string) : bool :=
  prefixb w s || match s with
                 | EmptyString => false
                 | String _ s' => containsb w s'
                 end.

(** The specification side: [w] occurs in [s] as a contiguous run. *)
Definition occurs_in (w s : string) : Prop :=
  ∃ pre post, s = pre +:+ w +:+ post.

(** Case-insensitive occurrence. *)
Definition occurs_in_ci (w s : string) : Prop :=
  occurs_in (lower w) (lower s).

(** SQLite's [LIKE]: [%] stands for any run of characters, [_] for any
    one character, every other character for itself up to ASCII case.
    There is no escape character unless an ESCAPE clause names one. *)
Fixpoint like (pat s : string) {struct pat} : bool :=
  match pat with
  | EmptyString => match s with EmptyString => true | String _ _ => false end
  | String c pat' =>
      if Ascii.eqb c "%" then
        (fix any (s : string) : bool :=
           like pat' s || match s with
                          | EmptyString => false
                          | String _ s' => any s'
                          end) s
      else
        match s with
        | EmptyString => false
        | String d s' =>
            (Ascii.eqb c "_" || Ascii.eqb (lower_ascii c) (lower_ascii d))
            && like pat' s'
        end
  end.

(** A word with no [LIKE] wildcard in it. *)
Fixpoint wildcard_free (w : string) : bool :=
  match w with
  | EmptyString => true
  | String c w' =>
      negb (Ascii.eqb c "%") && negb (Ascii.eqb c "_") && wildcard_free w'
  end.

End Text.

(** ** Python exceptions and the outcome of a call *)

Module Py.

Inductive exn : Type :=
| ValueError (msg : string)
| TypeError
| AttributeError
| IndexError
| OverflowError
| JSONDecodeError
| IntegrityError
| ReferenceError
| DetachedInstanceError
| InvalidRequestError
| NameError.

(** A call returns a value or raises. *)
Inductive result (A : Type) : Type :=
| Return (a : A)
| Raise (e : exn).
Arguments Return {A} a.
Arguments Raise {A} e.

(** Truth value of a [str]: the empty text is false. *)
Definition truthy (s : string) : bool :=
  match s with EmptyString => false | String _ _ => true end.

End Py.

(** ** The SQLAlchemy models of [src/models/note.py] *)

Module Orm.
Import Py.

(** A [DateTime] column holds an instant; only the order of instants
    is used, so an instant is a number of microseconds. *)
Definition instant := Z.

(** Table [categories] (the primary key [id] is the key of the map). *)
Record Category := mkCategory {
  cat_name : string;
  cat_color : option string;
  cat_created_date : instant
}.

(** Table [tags]. *)
Record Tag := mkTag {
  tag_name : string;
  tag_color : option string;
  tag_created_date : instant
}.

(** Table [notes]: the nullable columns are options; [is_pinned],
    [created_date] and [modified_date] have defaults and are never
    written with NULL by this module. *)
Record Note := mkNote {
  title : option string;
  content : option string;
  plain_content : option string;
  created_date : instant;
  modified_date : instant;
  color : option string;
  is_pinned : bool;
  category_id : option string
}.

Global Instance Note_eq_dec : EqDecision Note.
Proof. solve_decision. Defined.

(** The database: three tables keyed by their primary key [id] and the
    association table [note_tag], whose primary key is the pair
    [(note_id, tag_id)]. *)
Record Database := mkDatabase {
  notes : gmap string Note;
  tags : gmap string Tag;
  categories : gmap string Category;
  note_tag : gset (string * string)
}.

(** An ORM instance as a query returns it: the primary key and the
    columns of the row.  This is the row that the returned object
    stands for; what a caller can read of the object itself is the
    matter of [object] below. *)
Definition instance : Type := string * Note.

(** [ORDER BY is_pinned DESC, modified_date DESC]. *)
Definition order_by_pinned_modified (x y : Note) : bool :=
  match is_pinned x, is_pinned y with
  | true, false => true
  | false, true => false
  | _, _ => (modified_date y <=? modified_date x)%Z
  end.

Definition precedes (x y : instance) : Prop :=
  order_by_pinned_modified x.2 y.2 = true.

Global Instance precedes_dec : RelDecision precedes.
Proof. intros x y. unfold precedes. apply _. Defined.

(** [Note.get_all]: every row of [notes], ordered.  The two flags only
    choose what is loaded eagerly with each row. *)
Definition get_all (include_tags include_category : bool)
    (db : Database) : list instance :=
  merge_sort precedes (map_to_list (notes db)).

(** SQL's three-valued logic: NULL is [None]. *)
Definition sql_or (a b : option bool) : option bool :=
  match a, b with
  | Some true, _ | _, Some true => Some true
  | Some false, Some false => Some false
  | _, _ => None
  end.

Definition sql_and (a b : option bool) : option bool :=
  match a, b with
  | Some false, _ | _, Some false => Some false
  | Some true, Some true => Some true
  | _, _ => None
  end.

(** [and_] over the list of conditions; with no condition it filters
    nothing. *)
Definition sql_all (conds : list (option bool)) : option bool :=
  foldr sql_and (Some true) conds.

(** [column.ilike(pattern)], which SQLAlchemy renders for SQLite as
    [lower(column) LIKE lower(pattern)]; NULL on a NULL column. *)
Definition ilike (column : option string) (pattern : string) : option bool :=
  (λ s, Text.like (Text.lower pattern) (Text.lower s)) <$> column.

(** [column == value] on a nullable column. *)
Definition sql_eq (column : option string) (value : string) : option bool :=
  (λ s, bool_decide (s = value)) <$> column.

(** [query.filter(condition)]: the rows on which the condition is TRUE. *)
Definition where_ (cond : instance → option bool) (q : list instance)
    : list instance :=
  filter (λ r, cond r = Some true) q.

(** [search_terms]: every word of the query between two [%]. *)
Definition search_terms (query_text : string) : list string :=
  (λ term, "%" +:+ term +:+ "%") <$> Text.split query_text.

(** One [or_(cls.title.ilike(term), cls.plain_content.ilike(term))]. *)
Definition search_condition (term : string) (r : instance) : option bool :=
  sql_or (ilike (title r.2) term) (ilike (plain_content r.2) term).

(** [cls.tags.any(Tag.id == tag_id)]: an EXISTS over [note_tag] joined
    with [tags]. *)
Definition has_tag (db : Database) (tag_id : string) (r : instance)
    : option bool :=
  Some (bool_decide ((r.1, tag_id) ∈ note_tag db ∧ tag_id ∈ dom (tags db))).

(** The four optional filters of [Note.search], in the order in which
    the method adds them to the query. *)
Definition filter_text (query_text : string) (query : list instance)
    : list instance :=
  if truthy query_text then
    where_ (λ r, sql_all ((λ term, search_condition term r)
                            <$> search_terms query_text)) query
  else query.

Definition filter_category (category_id : option string)
    (query : list instance) : list instance :=
  match category_id with
  | Some c => if truthy c then where_ (λ r, sql_eq (Orm.category_id r.2) c) query
              else query
  | None => query
  end.

Definition filter_tags (db : Database) (tag_ids : option (list string))
    (query : list instance) : list instance :=
  match tag_ids with
  | Some ids => foldl (λ q tag_id, where_ (has_tag db tag_id) q) query ids
  | None => query
  end.

Definition filter_pinned (pinned_only : bool) (query : list instance)
    : list instance :=
  if pinned_only then where_ (λ r, Some (bool_decide (is_pinned r.2 = true))) query
  else query.

(** [Note.search]. *)
Definition search (query_text : string) (category_id : option string)
    (tag_ids : option (list string)) (pinned_only : bool)
    (include_tags include_category : bool) (db : Database) : list instance :=
  let query := map_to_list (notes db) in
  let query := filter_text query_text query in
  let query := filter_category category_id query in
  let query := filter_tags db tag_ids query in
  let query := filter_pinned pinned_only query in
  merge_sort precedes query.

(** The keyword arguments of [Note.update]; [None] is the default of
    each, an argument that was not passed. *)
Record update_kwargs := mkUpdate {
  kw_title : option string;
  kw_content : option string;
  kw_plain_content : option string;
  kw_color : option string;
  kw_is_pinned : option bool;
  kw_category_id : option string;
  kw_tag_names : option (list string)
}.

(** [if x is not None: note.x = x]. *)
Definition set_nullable {A} (new old : option A) : option A :=
  match new with Some v => Some v | None => old end.

Definition set_column {A} (new : option A) (old : A) : A :=
  match new with Some v => v | None => old end.

Definition assign (kw : update_kwargs) (note : Note) : Note :=
  {| title := set_nullable (kw_title kw) (title note);
     content := set_nullable (kw_content kw) (content note);
     plain_content := set_nullable (kw_plain_content kw) (plain_content note);
     created_date := created_date note;
     modified_date := modified_date note;
     color := set_nullable (kw_color kw) (color note);
     is_pinned := set_column (kw_is_pinned kw) (is_pinned note);
     category_id := set_nullable (kw_category_id kw) (category_id note) |}.

(** What the flush writes for a loaded row: the unit of work emits an
    UPDATE only when some column differs from the loaded value, and
    [onupdate=datetime.datetime.now] of [modified_date] fires with that
    UPDATE and not otherwise. *)
Definition flush_row (now : instant) (loaded current : Note) : Note :=
  if decide (current = loaded) then loaded
  else {| title := title current;
          content := content current;
          plain_content := plain_content current;
          created_date := created_date current;
          modified_date := now;
          color := color current;
          is_pinned := is_pinned current;
          category_id := category_id current |}.

Definition with_notes (db : Database) (ns : gmap string Note) : Database :=
  {| notes := ns; tags := tags db; categories := categories db;
     note_tag := note_tag db |}.

(** [Tag.get_by_name]: the row whose unique [name] is the given one. *)
Definition tag_by_name (db : Database) (name : string) : option string :=
  fst <$> head (filter (λ t : string * Tag, tag_name t.2 = name)
                  (map_to_list (tags db))).

(** [Tag.get_or_create(name)]; [fresh] is the [uuid4()] drawn for the
    primary key when a row is inserted. *)
Definition get_or_create (now : instant) (fresh : string) (name : string)
    (db : Database) : result string * Database :=
  match tag_by_name db name with
  | Some tag_id => (Return tag_id, db)
  | None =>
      match tags db !! fresh with
      | Some _ => (Raise IntegrityError, db)
      | None =>
          (Return fresh,
           {| notes := notes db;
              tags := <[fresh := mkTag name None now]> (tags db);
              categories := categories db;
              note_tag := note_tag db |})
      end
  end.

(** The loop [for tag_name in tags: note.tags.append(
    Tag.get_or_create(tag_name))] of [Note.create], where [note] is an
    object that is not yet in the session; the [k]-th insertion of the
    call draws [uuid4 k].  It returns the tags to associate. *)
Fixpoint collect_tags (now : instant) (uuid4 : nat → string) (k : nat)
    (tag_names : list string) (db : Database)
    : result (list string) * Database :=
  match tag_names with
  | [] => (Return [], db)
  | name :: rest =>
      match get_or_create now (uuid4 k) name db with
      | (Raise e, db') => (Raise e, db')
      | (Return tag_id, db') =>
          match collect_tags now uuid4 (S k) rest db' with
          | (Raise e, db'') => (Raise e, db'')
          | (Return ids, db'') => (Return (tag_id :: ids), db'')
          end
      end
  end.

(** The foreign key of [notes.category_id], enforced at commit
    ([PRAGMA foreign_keys=ON]) for a value that is written. *)
Definition foreign_key_ok (written : option string) (db : Database) : bool :=
  match written with
  | Some c => bool_decide (c ∈ dom (categories db))
  | None => true
  end.

(** *** Objects of class [Note] *)

(** A Python object of class [Note] in the hands of a caller.  Every
    method of the model works inside [db_session], which commits, and
    with that expires every attribute of every object of the session,
    and then closes the session, which detaches the objects.  So the
    object that a method has returned is [Detached]: reading an
    attribute of it, its [id] too, raises [DetachedInstanceError].
    [Built] is an object that the caller constructed,
    [Note(id=..., ...)]: its attributes are the values given and are
    read without a session. *)
Inductive object : Type :=
| Built (id : string) (columns : Note)
| Detached (key : string).

(** The object that a caller holds for a row that a method returned. *)
Definition returned (r : instance) : object := Detached r.1.

(** The primary key of the row that the object stands for. *)
Definition key_of (self : object) : string :=
  match self with
  | Built id _ => id
  | Detached key => key
  end.

(** [note.tags = []], flushed: the pairs of that note are deleted. *)
Definition clear_tags (note_id : string) (nt : gset (string * string))
    : gset (string * string) :=
  filter (λ p, p.1 ≠ note_id) nt.

(** [Note.update].  The result is what is returned or raised and the
    database after the call.  Reading [self.id] raises on a detached
    object.  The foreign key is checked when the row is flushed; a
    failure rolls the transaction back.  With tag names, the first
    [Tag.get_or_create] works in the same scoped session: its query
    flushes the row and the cleared tags, its commit, or the one of
    [db_session], makes them durable together with the tag it may have
    inserted, and its [session.close()] detaches [note], so that
    [note.tags.append(tag)] raises.  The object returned is the one of
    the session, detached like every other. *)
Definition update (now : instant) (uuid4 : nat → string) (self : object)
    (kw : update_kwargs) (db : Database) : result object * Database :=
  match self with
  | Detached _ => (Raise DetachedInstanceError, db)
  | Built self_id _ =>
      match notes db !! self_id with
      | None =>
          (Raise (ValueError ("Note with ID " +:+ self_id +:+ " not found")), db)
      | Some loaded =>
          let row := flush_row now loaded (assign kw loaded) in
          if foreign_key_ok (kw_category_id kw) db then
            match kw_tag_names kw with
            | None =>
                (Return (Detached self_id),
                 with_notes db (<[self_id := row]> (notes db)))
            | Some [] =>
                (Return (Detached self_id),
                 {| notes := <[self_id := row]> (notes db);
                    tags := tags db;
                    categories := categories db;
                    note_tag := clear_tags self_id (note_tag db) |})
            | Some (name :: _) =>
                match
                  get_or_create now (uuid4 0%nat) name
                    {| notes := <[self_id := row]> (notes db);
                       tags := tags db;
                       categories := categories db;
                       note_tag := clear_tags self_id (note_tag db) |}
                with
                | (Return _, db') => (Raise DetachedInstanceError, db')
                | (Raise e, _) => (Raise e, db)
                end
            end
          else (Raise IntegrityError, db)
      end
  end.

(** [session.delete(note)] followed by the commit: the row goes, and
    with it its rows of [note_tag] (the relationship's secondary table,
    also ON DELETE CASCADE). *)
Definition delete_row (note_id : string) (db : Database) : Database :=
  {| notes := delete note_id (notes db);
     tags := tags db;
     categories := categories db;
     note_tag := filter (λ p, p.1 ≠ note_id) (note_tag db) |}.

(** [Note.delete_by_id]: the outcome and the database after.  The
    [try] block guards against a failure of the database itself, which
    this model does not have. *)
Definition delete_by_id (note_id : string) (db : Database)
    : result bool * Database :=
  match notes db !! note_id with
  | Some _ => (Return true, delete_row note_id db)
  | None => (Return false, db)
  end.

(** [Note.toggle_pin] on the object [self], held by the caller: the
    value returned or raised, [self] after the call, and the database
    after.  [note.is_pinned] is read again after the commit, inside the
    session; the last line reads the flag of [self]. *)
Definition toggle_pin (now : instant) (self : object) (db : Database)
    : result bool * object * Database :=
  match self with
  | Detached _ => (Raise DetachedInstanceError, self, db)
  | Built self_id columns =>
      match notes db !! self_id with
      | Some note =>
          let flipped :=
            {| title := title note;
               content := content note;
               plain_content := plain_content note;
               created_date := created_date note;
               modified_date := modified_date note;
               color := color note;
               is_pinned := negb (is_pinned note);
               category_id := category_id note |} in
          let row := flush_row now note flipped in
          let self' :=
            Built self_id
              {| title := title columns;
                 content := content columns;
                 plain_content := plain_content columns;
                 created_date := created_date columns;
                 modified_date := modified_date columns;
                 color := color columns;
                 is_pinned := is_pinned row;
                 category_id := category_id columns |} in
          (Return (is_pinned row), self',
           with_notes db (<[self_id := row]> (notes db)))
      | None => (Return (is_pinned columns), self, db)
      end
  end.

(** [GROUP BY key] with [count]: one result per distinct key, with the
    number of joined rows that carry it. *)
Definition group_count `{EqDecision K} (keys : list K) : list (K * nat) :=
  (λ k, (k, length (filter (λ k', k' = k) keys))) <$> remove_dups keys.

(** A dict comprehension [{k: v for (k, v) in results}]: a later pair
    replaces an earlier one with the same key. *)
Definition dict_of {V} (results : list (string * V)) : gmap string V :=
  foldl (λ d kv, <[kv.1 := kv.2]> d) ∅ results.

(** [str(r[0] or 'uncategorized')]. *)
Definition category_key (category_id : option string) : string :=
  match category_id with
  | Some c => if truthy c then c else "uncategorized"
  | None => "uncategorized"
  end.

(** [Note.count_by_category]. *)
Definition count_by_category (db : Database) : gmap string nat :=
  let results :=
    group_count ((λ r : instance, category_id r.2) <$> map_to_list (notes db)) in
  dict_of ((λ r : option string * nat, (category_key r.1, r.2)) <$> results).

(** The rows of [tags JOIN note_tag ON tags.id = note_tag.tag_id], as
    pairs of [tags.id] and [note_tag.note_id]. *)
Definition tags_join_note_tag (db : Database) : list (string * string) :=
  tag ← map_to_list (tags db);
  p ← elements (note_tag db);
  if decide (tag.1 = p.2) then [(tag.1, p.1)] else [].

(** [Note.count_by_tag]. *)
Definition count_by_tag (db : Database) : gmap string nat :=
  let results := group_count (fst <$> tags_join_note_tag db) in
  dict_of results.

(** *** Vocabulary of the statements *)

(** A call that passes [title] and nothing else. *)
Definition title_only (t : string) : update_kwargs :=
  mkUpdate (Some t) None None None None None None.

(** A query result has the pinned notes first and, among the pinned and
    among the others, no note before one that was modified later. *)
Definition pinned_first_newest_first (l : list instance) : Prop :=
  ∀ i j x y, (i < j)%nat → l !! i = Some x → l !! j = Some y →
    (is_pinned y.2 = true → is_pinned x.2 = true) ∧
    (is_pinned x.2 = is_pinned y.2 →
     (modified_date y.2 ≤ modified_date x.2)%Z).

(** The word occurs in the title or in the plain content of the note,
    whatever the case of its letters. *)
Definition word_matches (word : string) (n : Note) : Prop :=
  (∃ t, title n = Some t ∧ Text.occurs_in_ci word t) ∨
  (∃ p, plain_content n = Some p ∧ Text.occurs_in_ci word p).

(** The three filters that [search] puts on top of the text. *)
Definition passes_filters (db : Database) (category_id : option string)
    (tag_ids : option (list string)) (pinned_only : bool) (r : instance)
    : Prop :=
  (∀ c, category_id = Some c → c ≠ "" → Orm.category_id r.2 = Some c) ∧
  (∀ ids tag_id, tag_ids = Some ids → tag_id ∈ ids →
     (r.1, tag_id) ∈ note_tag db ∧ tag_id ∈ dom (tags db)) ∧
  (pinned_only = true → is_pinned r.2 = true).

(** The foreign keys of [note_tag] hold. *)
Definition referential_integrity (db : Database) : Prop :=
  ∀ note_id tag_id, (note_id, tag_id) ∈ note_tag db →
    note_id ∈ dom (notes db) ∧ tag_id ∈ dom (tags db).

(** No note has the empty text or the sentinel itself as its category
    id (the ids that [Category.create] draws are UUIDs). *)
Definition sentinel_unused (db : Database) : Prop :=
  ∀ note_id n, notes db !! note_id = Some n →
    category_id n ≠ Some "" ∧ category_id n ≠ Some "uncategorized".

(** The notes that carry the tag. *)
Definition notes_with_tag (db : Database) (tag_id : string) : list instance :=
  filter (λ r : instance, (r.1, tag_id) ∈ note_tag db) (map_to_list (notes db)).

(** The notes that have no category. *)
Definition uncategorized_notes (db : Database) : list instance :=
  filter (λ r : instance, category_id r.2 = None) (map_to_list (notes db)).

(** *** Example databases *)

(** The scenario of the specification: A is not pinned and was modified
    at 1, B is pinned and was modified at 0. *)
Definition note_A : Note := mkNote (Some "A") None None 0 1 None false None.
Definition note_B : Note := mkNote (Some "B") None None 0 0 None true None.
Definition db_AB : Database :=
  mkDatabase (<["a" := note_A]> (<["b" := note_B]> ∅))
    (<["t" := mkTag "work" None 0]> ∅) ∅ {[ ("a", "t") ]}.

(** One note whose title is [abc]. *)
Definition note_abc : Note := mkNote (Some "abc") None None 0 0 None false None.
Definition db_abc : Database := mkDatabase {[ "n" := note_abc ]} ∅ ∅ ∅.

(** *** The other queries of [Note], and [Tag] and [Category] *)

(** [Note.get_by_id]: [first()] of the rows with that primary key. *)
Definition get_by_id (note_id : string) (include_tags include_category : bool)
    (db : Database) : option instance :=
  (λ n, (note_id, n)) <$> notes db !! note_id.

(** [Note.get_by_category]. *)
Definition get_by_category (category_id : string) (include_tags : bool)
    (db : Database) : list instance :=
  merge_sort precedes
    (where_ (λ r, sql_eq (Orm.category_id r.2) category_id)
       (map_to_list (notes db))).

(** [Note.get_by_tag]. *)
Definition get_by_tag (tag_id : string) (include_category : bool)
    (db : Database) : list instance :=
  merge_sort precedes (where_ (has_tag db tag_id) (map_to_list (notes db))).

(** [ORDER BY modified_date DESC]. *)
Definition newer (x y : instance) : Prop :=
  (modified_date y.2 ≤ modified_date x.2)%Z.

Global Instance newer_dec : RelDecision newer.
Proof. intros x y. unfold newer. apply _. Defined.

(** [LIMIT n]: SQLite reads a negative [n] as no limit. *)
Definition limit_ {A} (n : Z) (q : list A) : list A :=
  if (n <? 0)%Z then q else take (Z.to_nat n) q.

(** [Note.get_recent]. *)
Definition get_recent (limit : Z) (include_tags include_category : bool)
    (db : Database) : list instance :=
  limit_ limit (merge_sort newer (map_to_list (notes db))).

(** [Tag.create]; [fresh] is the [uuid4()] drawn for the primary key.
    The insert fails on a name that is taken ([unique=True]) and on a
    key that is taken. *)
Definition Tag_create (now : instant) (fresh : string) (name : string)
    (color : option string) (db : Database) : result string * Database :=
  match tag_by_name db name, tags db !! fresh with
  | None, None =>
      (Return fresh,
       {| notes := notes db;
          tags := <[fresh := mkTag name color now]> (tags db);
          categories := categories db;
          note_tag := note_tag db |})
  | _, _ => (Raise IntegrityError, db)
  end.

(** [Category.get_by_name]. *)
Definition category_by_name (db : Database) (name : string) : option string :=
  fst <$> head (filter (λ c : string * Category, cat_name c.2 = name)
                  (map_to_list (categories db))).

(** [Category.create]. *)
Definition Category_create (now : instant) (fresh : string) (name : string)
    (color : option string) (db : Database) : result string * Database :=
  match category_by_name db name, categories db !! fresh with
  | None, None =>
      (Return fresh,
       {| notes := notes db;
          tags := tags db;
          categories := <[fresh := mkCategory name color now]> (categories db);
          note_tag := note_tag db |})
  | _, _ => (Raise IntegrityError, db)
  end.

(** [ORDER BY name]: the byte order of the names. *)
Definition by_name (x y : string * Tag) : Prop :=
  String.le (tag_name x.2) (tag_name y.2).

Global Instance by_name_dec : RelDecision by_name.
Proof. intros x y. unfold by_name. apply _. Defined.

(** [Tag.get_all]. *)
Definition Tag_get_all (db : Database) : list (string * Tag) :=
  merge_sort by_name (map_to_list (tags db)).

(** [if tags:] on the optional list of tag names. *)
Definition tags_truthy (tags : option (list string)) : bool :=
  match tags with
  | Some (_ :: _) => true
  | _ => false
  end.

(** [Note.create]; [fresh] is the [uuid4()] drawn for the primary key,
    [created] and [modified] are the two readings of the clock that the
    column defaults take at the insert, and [is_pinned] gets its
    default.  Each [Tag.get_or_create] returns an object of its own,
    so a tag that is named twice comes as two objects for one row, and
    [session.add(note)] refuses the second with
    [InvalidRequestError]. *)
Definition Note_create (created modified : instant) (fresh : string)
    (uuid4 : nat → string)
    (title content plain_content color category_id : option string)
    (tag_names : option (list string)) (db : Database)
    : result instance * Database :=
  let row :=
    mkNote title content plain_content created modified color false
      category_id in
  let '(tagged, db1) :=
    if tags_truthy tag_names then
      match collect_tags created uuid4 0 (default [] tag_names) db with
      | (Return ids, db') =>
          if decide (NoDup ids) then (Return ids, db')
          else (Raise InvalidRequestError, db')
      | (Raise e, db') => (Raise e, db')
      end
    else (Return [], db) in
  match tagged with
  | Raise e => (Raise e, db1)
  | Return ids =>
      match notes db1 !! fresh with
      | Some _ => (Raise IntegrityError, db1)
      | None =>
          if foreign_key_ok category_id db1 then
            (Return (fresh, row),
             {| notes := <[fresh := row]> (notes db1);
                tags := tags db1;
                categories := categories db1;
                note_tag := note_tag db1
                            ∪ list_to_set ((λ t, (fresh, t)) <$> ids) |})
          else (Raise IntegrityError, db1)
      end
  end.

(** [note.tags], loaded with the note: the tags that [note_tag] joins
    to it, in the order in which the database returns them. *)
Definition note_tags (db : Database) (note_id : string) : list (string * Tag) :=
  filter (λ t : string * Tag, (note_id, t.1) ∈ note_tag db)
    (map_to_list (tags db)).

(** *** More vocabulary *)

(** The constraint [unique=True] of [tags.name]. *)
Definition unique_tag_names (db : Database) : Prop :=
  ∀ i j t1 t2, tags db !! i = Some t1 → tags db !! j = Some t2 →
    tag_name t1 = tag_name t2 → i = j.

(** A call that passes no tag names. *)
Definition no_tag_names (kw : update_kwargs) : Prop := kw_tag_names kw = None.

(** Two instances with the columns of [old] but for [modified_date]
    and [is_pinned]. *)
Definition same_but_pin_and_modified (row old : Note) : Prop :=
  title row = title old ∧ content row = content old ∧
  plain_content row = plain_content old ∧ created_date row = created_date old ∧
  color row = color old ∧ category_id row = category_id old.

(** The scenario of the specification for [search]: the first note
    holds both words, the second only one. *)
Definition note_both : Note :=
  mkNote (Some "Hello") None (Some "big WORLD") 0 2 None false None.
Definition note_one : Note :=
  mkNote (Some "hello") None (Some "nothing") 0 3 None false None.
Definition db_hello : Database :=
  mkDatabase (<["n1" := note_both]> (<["n2" := note_one]> ∅)) ∅ ∅ ∅.

End Orm.

(** ** The notes of [modern_colornote.py] and their JSON file *)

Module Qt.
Import Py.

(** *** [datetime.datetime], naive *)

Record datetime := mkDatetime {
  year : Z;
  month : Z;
  day : Z;
  hour : Z;
  minute : Z;
  second : Z;
  microsecond : Z
}.

Definition is_leap (y : Z) : bool :=
  (y mod 4 =? 0)%Z && (negb (y mod 100 =? 0)%Z || (y mod 400 =? 0)%Z).

Definition days_in_month (y m : Z) : Z :=
  if (m =? 2)%Z then (if is_leap y then 29 else 28)
  else if ((m =? 4) || (m =? 6) || (m =? 9) || (m =? 11))%Z then 30
  else 31.

Definition between (lo x hi : Z) : bool := ((lo <=? x) && (x <=? hi))%Z.

(** The range check of the [datetime] constructor. *)
Definition valid (d : datetime) : bool :=
  between 1 (year d) 9999 && between 1 (month d) 12
  && between 1 (day d) (days_in_month (year d) (month d))
  && between 0 (hour d) 23 && between 0 (minute d) 59
  && between 0 (second d) 59 && between 0 (microsecond d) 999999.

(** Comparison of naive datetimes: field by field, most significant
    first. *)
Definition fields (d : datetime) : list Z :=
  [year d; month d; day d; hour d; minute d; second d; microsecond d].

Fixpoint lex_leb (a b : list Z) : bool :=
  match a, b with
  | [], _ => true
  | _ :: _, [] => false
  | x :: a', y :: b' => (x <? y)%Z || ((x =? y)%Z && lex_leb a' b')
  end.

Definition dt_leb (d1 d2 : datetime) : bool := lex_leb (fields d1) (fields d2).
Definition dt_le (d1 d2 : datetime) : Prop := dt_leb d1 d2 = true.

(** *** [isoformat] and [fromisoformat] *)

Definition digit (n : Z) : ascii := ascii_of_N (Z.to_N (48 + n)).

Definition digit_value (c : ascii) : option Z :=
  let n := Z.of_N (N_of_ascii c) in
  if between 48 n 57 then Some (n - 48) else None.

(** The [w] low decimal digits of [n], most significant first, in front
    of [rest]: what [%0wd] prints for [0 <= n < 10^w]. *)
Fixpoint zero_padded (w : nat) (n : Z) (rest : string) : string :=
  match w with
  | O => rest
  | S w' => zero_padded w' (n / 10) (String (digit (n mod 10)) rest)
  end.

(** [datetime.isoformat()]: [YYYY-MM-DDTHH:MM:SS], followed by
    [.ffffff] when the microsecond is not zero. *)
Definition isoformat (d : datetime) : string :=
  zero_padded 4 (year d) (String "-"
  (zero_padded 2 (month d) (String "-"
  (zero_padded 2 (day d) (String "T"
  (zero_padded 2 (hour d) (String ":"
  (zero_padded 2 (minute d) (String ":"
  (zero_padded 2 (second d)
    (if (microsecond d =? 0)%Z then EmptyString
     else String "." (zero_padded 6 (microsecond d) EmptyString)))))))))))).

(** Reading [w] decimal digits. *)
Fixpoint read_digits (w : nat) (acc : Z) (s : string) : option (Z * string) :=
  match w with
  | O => Some (acc, s)
  | S w' =>
      match s with
      | EmptyString => None
      | String c s' =>
          match digit_value c with
          | Some v => read_digits w' (10 * acc + v) s'
          | None => None
          end
      end
  end.

Definition expect (c : ascii) (s : string) : option string :=
  match s with
  | String c' s' => if Ascii.eqb c c' then Some s' else None
  | EmptyString => None
  end.

Definition skip_one (s : string) : option string :=
  match s with
  | String _ s' => Some s'
  | EmptyString => None
  end.

(** The two spellings that [isoformat] writes for a naive datetime:
    date, one separator character, time to the second, and optionally a
    dot with six digits.  ([fromisoformat] accepts some further
    spellings, which the application never writes; they are reported as
    malformed here.) *)
Definition parse_iso (s : string) : option datetime :=
  '(y, s) ← read_digits 4 0 s;
  s ← expect "-" s;
  '(mo, s) ← read_digits 2 0 s;
  s ← expect "-" s;
  '(d, s) ← read_digits 2 0 s;
  s ← skip_one s;
  '(h, s) ← read_digits 2 0 s;
  s ← expect ":" s;
  '(mi, s) ← read_digits 2 0 s;
  s ← expect ":" s;
  '(sec, s) ← read_digits 2 0 s;
  '(us, s) ← match s with
             | EmptyString => Some (0, EmptyString)
             | String _ _ => s ← expect "." s; read_digits 6 0 s
             end;
  match s with
  | EmptyString => Some (mkDatetime y mo d h mi sec us)
  | String _ _ => None
  end.

(** [datetime.fromisoformat]: [ValueError] on a malformed text or on a
    field out of range. *)
Definition fromisoformat (s : string) : result datetime :=
  match parse_iso s with
  | Some d => if valid d then Return d
              else Raise (ValueError "value out of range")
  | None => Raise (ValueError "Invalid isoformat string")
  end.

(** [d - datetime.timedelta(days=n)]: [OverflowError] before year 1. *)
Definition previous_day (d : datetime) : result datetime :=
  if (1 <? day d)%Z then
    Return (mkDatetime (year d) (month d) (day d - 1)
              (hour d) (minute d) (second d) (microsecond d))
  else if (1 <? month d)%Z then
    Return (mkDatetime (year d) (month d - 1)
              (days_in_month (year d) (month d - 1))
              (hour d) (minute d) (second d) (microsecond d))
  else if (1 <? year d)%Z then
    Return (mkDatetime (year d - 1) 12 31
              (hour d) (minute d) (second d) (microsecond d))
  else Raise OverflowError.

Fixpoint minus_days (n : nat) (d : datetime) : result datetime :=
  match n with
  | O => Return d
  | S n' => match previous_day d with
            | Return d' => minus_days n' d'
            | Raise e => Raise e
            end
  end.

(** *** JSON values, as [json.load] returns them *)

#[warnings="-register-all"]
Inductive json : Type :=
| JNull
| JBool (b : bool)
| JNumber (z : Z)
| JString (s : string)
| JArray (items : list json)
| JObject (members : list (string * json)).

(** [d.get(key, default)]. *)
Fixpoint dict_get (d : list (string * json)) (key : string) (default : json)
    : json :=
  match d with
  | [] => default
  | (k, v) :: d' => if String.eqb k key then v else dict_get d' key default
  end.

(** *** Class [Note] *)

Record Note := mkNote {
  title : string;
  content : string;
  is_code : bool;
  tags : list string;
  category : option string;
  created_date : datetime;
  modified_date : datetime
}.

(** [Note.to_dict]. *)
Definition to_dict (self : Note) : json :=
  JObject
    [("title", JString (title self));
     ("content", JString (content self));
     ("is_code", JBool (is_code self));
     ("tags", JArray (JString <$> tags self));
     ("category", match category self with
                  | Some c => JString c
                  | None => JNull
                  end);
     ("created_date", JString (isoformat (created_date self)));
     ("modified_date", JString (isoformat (modified_date self)))].

(** The attributes of a note are typed: text, flag, list of texts,
    optional text.  A JSON value of another type, which Python would
    store in the attribute as it is, has no counterpart in [Note] and
    is reported as [TypeError] where it is read. *)
Definition as_str (v : json) : result string :=
  match v with JString s => Return s | _ => Raise TypeError end.

Definition as_bool (v : json) : result bool :=
  match v with JBool b => Return b | _ => Raise TypeError end.

Definition as_optional_str (v : json) : result (option string) :=
  match v with
  | JNull => Return None
  | JString s => Return (Some s)
  | _ => Raise TypeError
  end.

Fixpoint as_str_items (items : list json) : result (list string) :=
  match items with
  | [] => Return []
  | v :: items' =>
      match as_str v, as_str_items items' with
      | Return s, Return l => Return (s :: l)
      | Raise e, _ => Raise e
      | _, Raise e => Raise e
      end
  end.

Definition as_str_list (v : json) : result (list string) :=
  match v with JArray items => as_str_items items | _ => Raise TypeError end.

(** [data.get] on something that is not a dict. *)
Definition as_dict (v : json) : result (list (string * json)) :=
  match v with JObject d => Return d | _ => Raise AttributeError end.

(** Iterating what should be a list. *)
Definition as_list (v : json) : result (list json) :=
  match v with JArray items => Return items | _ => Raise TypeError end.

(** *** Text operations of Python's [str] *)

(** [str.lower] on the code points below 256: the ASCII letters and the
    accented capitals [U+00C0]..[U+00DE] except the multiplication sign. *)
Definition py_lower_char (c : ascii) : ascii :=
  let n := nat_of_ascii c in
  if ((65 <=? n) && (n <=? 90))%nat
     || ((192 <=? n) && (n <=? 222) && negb (n =? 215))%nat
  then ascii_of_nat (n + 32) else c.

Fixpoint py_lower (s : string) : string :=
  match s with
  | EmptyString => EmptyString
  | String c s' => String (py_lower_char c) (py_lower s')
  end.

Fixpoint lstrip (s : string) : string :=
  match s with
  | EmptyString => EmptyString
  | String c s' => if Text.is_space c then lstrip s' else s
  end.

(** [str.strip()]. *)
Definition strip (s : string) : string :=
  String.rev (lstrip (String.rev (lstrip s))).

(** [str.split(sep)] for a one-character separator: the pieces between
    separators, empty pieces included. *)
Fixpoint split_on (sep : ascii) (cur : string) (s : string) : list string :=
  match s with
  | EmptyString => [String.rev cur]
  | String c s' =>
      if Ascii.eqb c sep then String.rev cur :: split_on sep EmptyString s'
      else split_on sep (String c cur) s'
  end.

(** *** The state of the program *)

Inductive file : Type :=
| Garbage                 (* not a JSON text *)
| Document (data : json).

(** A [Note] object is a cell of [heap]; a reference to it is the index
    of the cell.  [notes] is the one list object that
    [MainWindow.notes] and [NoteListWidget.notes] both name once
    [set_notes] has run. *)
Record state := mkState {
  ticks : nat;                       (* readings of the clock so far *)
  heap : list Note;
  notes : list nat;
  filtered_notes : list nat;         (* [note_list.filtered_notes] *)
  current_note_index : Z;
  sidebar_categories : list string;  (* [sidebar.categories] *)
  sidebar_tags : list string;        (* [sidebar.tags] *)
  notes_file : option file           (* [~/.config/c0lornote/notes.json] *)
}.

Definition with_ticks (t : nat) (s : state) : state :=
  mkState t (heap s) (notes s) (filtered_notes s) (current_note_index s)
    (sidebar_categories s) (sidebar_tags s) (notes_file s).
Definition with_heap (h : list Note) (s : state) : state :=
  mkState (ticks s) h (notes s) (filtered_notes s) (current_note_index s)
    (sidebar_categories s) (sidebar_tags s) (notes_file s).
Definition with_notes (l : list nat) (s : state) : state :=
  mkState (ticks s) (heap s) l (filtered_notes s) (current_note_index s)
    (sidebar_categories s) (sidebar_tags s) (notes_file s).
Definition with_filtered_notes (l : list nat) (s : state) : state :=
  mkState (ticks s) (heap s) (notes s) l (current_note_index s)
    (sidebar_categories s) (sidebar_tags s) (notes_file s).
Definition with_current_note_index (i : Z) (s : state) : state :=
  mkState (ticks s) (heap s) (notes s) (filtered_notes s) i
    (sidebar_categories s) (sidebar_tags s) (notes_file s).
Definition with_sidebar_categories (l : list string) (s : state) : state :=
  mkState (ticks s) (heap s) (notes s) (filtered_notes s) (current_note_index s)
    l (sidebar_tags s) (notes_file s).
Definition with_sidebar_tags (l : list string) (s : state) : state :=
  mkState (ticks s) (heap s) (notes s) (filtered_notes s) (current_note_index s)
    (sidebar_categories s) l (notes_file s).
Definition with_notes_file (f : option file) (s : state) : state :=
  mkState (ticks s) (heap s) (notes s) (filtered_notes s) (current_note_index s)
    (sidebar_categories s) (sidebar_tags s) f.

(** Computations: they read and write the state and return or raise;
    what was written before an exception stays written. *)
Definition M (A : Type) : Type := state → result A * state.

Definition ret {A} (a : A) : M A := λ s, (Return a, s).
Definition raise {A} (e : exn) : M A := λ s, (Raise e, s).
Definition bind {A B} (m : M A) (k : A → M B) : M B :=
  λ s, match m s with
       | (Return a, s') => k a s'
       | (Raise e, s') => (Raise e, s')
       end.
Definition lift {A} (r : result A) : M A := λ s, (r, s).
Definition try_except {A} (body : M A) (handler : exn → M A) : M A :=
  λ s, match body s with
       | (Return a, s') => (Return a, s')
       | (Raise e, s') => handler e s'
       end.
Definition get {A} (f : state → A) : M A := λ s, (Return (f s), s).
Definition modify (f : state → state) : M unit := λ s, (Return tt, f s).

Global Instance M_ret : MRet M := @ret.
Global Instance M_bind : MBind M := λ A B k m, bind m k.

Fixpoint for_each {A B} (f : A → M B) (l : list A) : M (list B) :=
  match l with
  | [] => ret []
  | x :: l' => y ← f x; ys ← for_each f l'; ret (y :: ys)
  end.

(** Making a new object; reading and writing an attribute of the object
    behind a reference.  A reference that was never allocated, which no
    execution produces, is reported as [ReferenceError]. *)
Definition alloc (n : Note) : M nat :=
  λ s, (Return (length (heap s)), with_heap (heap s ++ [n]) s).

Definition deref (r : nat) : M Note :=
  λ s, match heap s !! r with
       | Some n => (Return n, s)
       | None => (Raise ReferenceError, s)
       end.

Definition store (r : nat) (n : Note) : M unit :=
  modify (λ s, with_heap (<[r := n]> (heap s)) s).

(** [lst[i]] for an index that is not negative. *)
Definition item (l : list nat) (i : Z) : M nat :=
  match l !! Z.to_nat i with
  | Some r => ret r
  | None => raise IndexError
  end.

Section Program.

(** The successive values of [datetime.datetime.now()]. *)
Variable clock : nat → datetime.

Definition now : M datetime :=
  λ s, (Return (clock (ticks s)), with_ticks (S (ticks s)) s).

(** [Note.__init__]; [tags] is [None] when the argument is left out. *)
Definition Note_init (title content : string) (is_code : bool)
    (tags : option (list string)) (category : option string) : M nat :=
  created ← now;
  alloc (mkNote title content is_code (default [] tags) category created created).

Definition parse_date (v : json) : result datetime :=
  match v with
  | JString s => fromisoformat s
  | _ => Raise TypeError
  end.

(** [Note.from_dict]. *)
Definition from_dict (data : json) : M nat :=
  d ← lift (as_dict data);
  title ← lift (as_str (dict_get d "title" (JString "")));
  content ← lift (as_str (dict_get d "content" (JString "")));
  is_code ← lift (as_bool (dict_get d "is_code" (JBool false)));
  tags ← lift (as_str_list (dict_get d "tags" (JArray [])));
  category ← lift (as_optional_str (dict_get d "category" JNull));
  note ← Note_init title content is_code (Some tags) category;
  t1 ← now;
  created ← lift (parse_date (dict_get d "created_date" (JString (isoformat t1))));
  n ← deref note;
  store note (mkNote (Qt.title n) (Qt.content n) (Qt.is_code n) (Qt.tags n)
                (Qt.category n) created (modified_date n));;
  t2 ← now;
  modified ← lift (parse_date (dict_get d "modified_date" (JString (isoformat t2))));
  n ← deref note;
  store note (mkNote (Qt.title n) (Qt.content n) (Qt.is_code n) (Qt.tags n)
                (Qt.category n) (created_date n) modified);;
  ret note.

(** [NoteListWidget.set_notes] (refreshing the list widget shows the
    state and changes none of it). *)
Definition set_notes (l : list nat) : M unit :=
  modify (with_notes l);; modify (with_filtered_notes l).

Definition quote : string := String (ascii_of_nat 34) EmptyString.
Definition newline : string := String (ascii_of_nat 10) EmptyString.

Definition welcome_content : string :=
  "<h1>Welcome to C0lorNote</h1><p>This is a modern note-taking application with support for rich text and code snippets.</p><p>Features include:</p><ul><li>Rich text editing</li><li>Code editing with syntax highlighting</li><li>Multiple themes (try Matrix, Dreamcore, or Minimalist)</li><li>Organization with tags and categories</li><li>Smart views for recent notes and code snippets</li></ul><p>Get started by creating a new note!</p>".

Definition code_content : string :=
  "# A simple Python hello world example" +:+ newline +:+ newline
  +:+ "def greet(name):" +:+ newline
  +:+ "    " +:+ quote +:+ quote +:+ quote +:+ "Return a greeting message"
  +:+ quote +:+ quote +:+ quote +:+ newline
  +:+ "    return f" +:+ quote +:+ "Hello, {name}!" +:+ quote +:+ newline
  +:+ newline
  +:+ "# Test the function" +:+ newline
  +:+ "if __name__ == " +:+ quote +:+ "__main__" +:+ quote +:+ ":" +:+ newline
  +:+ "    print(greet(" +:+ quote +:+ "World" +:+ quote +:+ "))" +:+ newline
  +:+ "    # Press F5 to run this code!".

(** [MainWindow.create_sample_notes]. *)
Definition create_sample_notes : M unit :=
  welcome_note ← Note_init "Welcome to C0lorNote!" welcome_content false
                    (Some ["welcome"; "tutorial"]) (Some "Getting Started");
  code_note ← Note_init "Python Hello World Example" code_content true
                 (Some ["python"; "example"]) (Some "Code Snippets");
  modify (with_notes [welcome_note; code_note]);;
  modify (with_sidebar_categories
            ["Getting Started"; "Code Snippets"; "Personal"; "Work"]);;
  modify (with_sidebar_tags
            ["welcome"; "tutorial"; "python"; "example"; "important"]);;
  l ← get notes;
  set_notes l.

(** [json.load] of the notes file. *)
Definition json_load (f : file) : result json :=
  match f with
  | Garbage => Raise JSONDecodeError
  | Document data => Return data
  end.

(** [MainWindow.load_notes]. *)
Definition load_notes : M unit :=
  f ← get notes_file;
  match f with
  | None => create_sample_notes
  | Some f =>
      try_except
        (data ← lift (json_load f);
         d ← lift (as_dict data);
         items ← lift (as_list (dict_get d "notes" (JArray [])));
         l ← for_each from_dict items;
         modify (with_notes l);;
         categories ← lift (as_str_list (dict_get d "categories" (JArray [])));
         modify (with_sidebar_categories categories);;
         tags ← lift (as_str_list (dict_get d "tags" (JArray [])));
         modify (with_sidebar_tags tags);;
         l ← get notes;
         set_notes l)
        (λ _, create_sample_notes)
  end.

(** The document that [save_notes] writes. *)
Definition document (ns : list Note) (categories tags : list string) : json :=
  JObject [("notes", JArray (to_dict <$> ns));
           ("categories", JArray (JString <$> categories));
           ("tags", JArray (JString <$> tags))].

(** [MainWindow.save_notes]. *)
Definition save_notes : M unit :=
  try_except
    (l ← get notes;
     ns ← for_each deref l;
     categories ← get sidebar_categories;
     tags ← get sidebar_tags;
     modify (with_notes_file (Some (Document (document ns categories tags)))))
    (λ _, ret tt).

(** The references of [l] whose note satisfies [p], in order: a list
    comprehension over Note objects. *)
Definition comprehension (p : Note → bool) (l : list nat) : M (list nat) :=
  ns ← for_each deref l;
  ret (fst <$> filter (λ rn : nat * Note, p rn.2 = true) (zip l ns)).

(** [NoteListWidget.filter_notes]. *)
Definition filter_notes (filter_type filter_value : string) : M unit :=
  l ← get notes;
  if String.eqb filter_type "all" then
    modify (with_filtered_notes l)
  else if String.eqb filter_type "recent" then
    t ← now;
    seven_days_ago ← lift (minus_days 7 t);
    l' ← comprehension (λ note, dt_leb seven_days_ago (modified_date note)) l;
    modify (with_filtered_notes l')
  else if String.eqb filter_type "code" then
    l' ← comprehension is_code l;
    modify (with_filtered_notes l')
  else if String.eqb filter_type "category" then
    l' ← comprehension
           (λ note, bool_decide (category note = Some filter_value)) l;
    modify (with_filtered_notes l')
  else if String.eqb filter_type "tag" then
    l' ← comprehension (λ note, bool_decide (filter_value ∈ tags note)) l;
    modify (with_filtered_notes l')
  else if String.eqb filter_type "search" then
    let term := py_lower filter_value in
    l' ← comprehension
           (λ note, Text.containsb term (py_lower (title note))
                    || Text.containsb term (py_lower (content note))) l;
    modify (with_filtered_notes l')
  else ret tt.

(** [NoteListWidget.search_notes]. *)
Definition search_notes (text : string) : M unit :=
  if truthy text then filter_notes "search" text
  else filter_notes "all" "".

(** [MainWindow.save_current_note]; [editor_content] is what
    [note_editor.get_content()] returns. *)
Definition save_current_note (editor_content : string) : M unit :=
  i ← get current_note_index;
  if (i <? 0)%Z then ret tt
  else
    l ← get filtered_notes;
    note ← item l i;
    n ← deref note;
    store note (mkNote (title n) editor_content (is_code n) (tags n)
                  (category n) (created_date n) (modified_date n));;
    t ← now;
    n ← deref note;
    store note (mkNote (title n) (content n) (is_code n) (tags n)
                  (category n) (created_date n) t);;
    save_notes.

(** [MainWindow.handle_note_selection]. *)
Definition handle_note_selection (index : Z) (editor_content : string)
    : M unit :=
  l ← get filtered_notes;
  if ((index <? 0) || (Z.of_nat (length l) <=? index))%Z then ret tt
  else
    i ← get current_note_index;
    (if (0 <=? i)%Z then save_current_note editor_content else ret tt);;
    modify (with_current_note_index index);;
    l ← get filtered_notes;
    note ← item l index;
    _ ← deref note;
    ret tt.

(** What the dialog of [create_new_note] hands back when it is
    accepted. *)
Record new_note_dialog := mkDialog {
  title_input : string;
  category_combo : string;
  is_code_check : bool;
  tags_input : string
}.

(** [for tag in tags: if tag not in sidebar.tags: sidebar.tags.append(tag)]. *)
Fixpoint add_new_tags (new_tags sidebar : list string) : list string :=
  match new_tags with
  | [] => sidebar
  | tag :: rest =>
      add_new_tags rest
        (if bool_decide (tag ∈ sidebar) then sidebar else sidebar ++ [tag])
  end.

(** [NoteListWidget.create_new_note] after the dialog was accepted; the
    signal [note_selected] runs [handle_note_selection] at once. *)
Definition create_new_note (dialog : new_note_dialog) (editor_content : string)
    : M unit :=
  let title :=
    let t := strip (title_input dialog) in
    if truthy t then t else "Untitled" in
  let is_code := is_code_check dialog in
  let category :=
    if String.eqb (category_combo dialog) "(None)" then None
    else Some (category_combo dialog) in
  let tags :=
    strip <$> filter (λ tag, truthy (strip tag) = true)
                (split_on "," EmptyString (tags_input dialog)) in
  note ← Note_init title "" is_code (Some tags) category;
  l ← get notes;
  modify (with_notes (l ++ [note]));;
  l ← get notes;
  modify (with_filtered_notes l);;
  handle_note_selection (Z.of_nat (length l) - 1) editor_content;;
  sidebar ← get sidebar_tags;
  modify (with_sidebar_tags (add_new_tags tags sidebar)).

(** The position of the object [note] in [l]: the loop with [n is note]. *)
Fixpoint index_of (note : nat) (l : list nat) : option nat :=
  match l with
  | [] => None
  | n :: l' => if (n =? note)%nat then Some O else S <$> index_of note l'
  end.

(** [MainWindow.delete_current_note]; [confirm] is the answer to the
    message box. *)
Definition delete_current_note (confirm : bool) : M unit :=
  i ← get current_note_index;
  if (i <? 0)%Z then ret tt
  else
    l ← get filtered_notes;
    note ← item l i;
    _ ← deref note;
    if confirm then
      l ← get notes;
      match index_of note l with
      | Some note_index =>
          modify (with_notes (delete note_index l));;
          modify (with_current_note_index (-1));;
          l ← get notes;
          set_notes l;;
          save_notes
      | None => ret tt
      end
    else ret tt.

(** [MainWindow.closeEvent]. *)
Definition closeEvent (editor_content : string) : M unit :=
  i ← get current_note_index;
  (if (0 <=? i)%Z then save_current_note editor_content else ret tt);;
  save_notes.

(** [MainWindow.__init__] in a new process: nothing is left of the
    previous one but the notes file; the clock goes on. *)
Definition MainWindow_init : M unit :=
  modify (λ s, mkState (ticks s) [] [] [] (-1) [] [] (notes_file s));;
  load_notes.

(** What the user can do. *)
Inductive event : Type :=
| Start
| NewNote (dialog : new_note_dialog) (editor_content : string)
| Select (index : Z) (editor_content : string)
| Save (editor_content : string)
| Delete (confirm : bool)
| Filter (filter_type filter_value : string)
| Search (text : string)
| Close (editor_content : string).

Definition handle (ev : event) : M unit :=
  match ev with
  | Start => MainWindow_init
  | NewNote dialog editor_content => create_new_note dialog editor_content
  | Select index editor_content => handle_note_selection index editor_content
  | Save editor_content => save_current_note editor_content
  | Delete confirm => delete_current_note confirm
  | Filter filter_type filter_value => filter_notes filter_type filter_value
  | Search text => search_notes text
  | Close editor_content => closeEvent editor_content
  end.

(** The computer before the first run: no notes file, at clock reading
    number [t]. *)
Definition installed (t : nat) : state :=
  mkState t [] [] [] (-1) [] [] None.

(** The states the program goes through from the first run on,
    whatever a handler returns or raises. *)
Inductive reachable : state → Prop :=
| reachable_start t : reachable (handle Start (installed t)).2
| reachable_event ev s : reachable s → reachable (handle ev s).2.

(** [SidebarWidget.add_category] once its dialog is closed, with Save
    ([accepted]) or not; [name_input] is the text of the line edit. *)
Definition add_category (accepted : bool) (name_input : string) : M unit :=
  if accepted then
    let category_name := strip name_input in
    if truthy category_name then
      categories ← get sidebar_categories;
      if bool_decide (category_name ∈ categories) then ret tt
      else modify (with_sidebar_categories (categories ++ [category_name]))
    else ret tt
  else ret tt.

(** [SidebarWidget.add_tag], likewise. *)
Definition add_tag (accepted : bool) (name_input : string) : M unit :=
  if accepted then
    let tag_name := strip name_input in
    if truthy tag_name then
      tags ← get sidebar_tags;
      if bool_decide (tag_name ∈ tags) then ret tt
      else modify (with_sidebar_tags (tags ++ [tag_name]))
    else ret tt
  else ret tt.

(** What the user can do that reads or writes the notes, the two lists
    of the sidebar or the notes file: the events of the window, the two
    dialogs of the sidebar, and File > Save All, which runs
    [save_notes].  The theme and the formatting buttons of the editor
    write none of them.  Export, which writes a file that the user
    names, and Run Code, which runs the text of the editor as a program
    of its own, are not actions of this model: the notes file is taken
    to be written by the window only. *)
Inductive action : Type :=
| Window (ev : event)
| AddCategory (accepted : bool) (name_input : string)
| AddTag (accepted : bool) (name_input : string)
| SaveAll.

Definition perform (a : action) : M unit :=
  match a with
  | Window ev => handle ev
  | AddCategory accepted name_input => add_category accepted name_input
  | AddTag accepted name_input => add_tag accepted name_input
  | SaveAll => save_notes
  end.

(** The states the program goes through from the first run on, by
    these actions, whatever a handler returns or raises. *)
Inductive reachable_by_user : state → Prop :=
| by_user_start t : reachable_by_user (handle Start (installed t)).2
| by_user_action a s : reachable_by_user s → reachable_by_user (perform a s).2.

End Program.

(** *** Vocabulary of the statements *)

(** The notes of the window, in order, as values. *)
Definition notes_of (s : state) : list (option Note) :=
  (λ r, heap s !! r) <$> notes s.

(** Every note of the list is an allocated object whose two dates are
    values that the [datetime] constructor accepts. *)
Definition well_formed (s : state) : Prop :=
  ∀ r, r ∈ notes s →
    ∃ n, heap s !! r = Some n ∧ valid (created_date n) = true
         ∧ valid (modified_date n) = true.

Definition dates_valid (n : Note) : Prop :=
  valid (created_date n) = true ∧ valid (modified_date n) = true.

(** The two notes of [create_sample_notes], created at [t1] and [t2]. *)
Definition welcome_note (t1 : datetime) : Note :=
  mkNote "Welcome to C0lorNote!" welcome_content false
    ["welcome"; "tutorial"] (Some "Getting Started") t1 t1.
Definition code_note (t2 : datetime) : Note :=
  mkNote "Python Hello World Example" code_content true
    ["python"; "example"] (Some "Code Snippets") t2 t2.

(** The clock shows valid times and never goes back. *)
Definition steady (clock : nat → datetime) : Prop :=
  (∀ i, valid (clock i) = true) ∧
  (∀ i j, (i ≤ j)%nat → dt_le (clock i) (clock j)).

(** A note that keeps the rule of the data model at clock reading
    number [t]: its dates are valid, it was not modified before it was
    created, and not after the time that the clock shows. *)
Definition in_order (clock : nat → datetime) (t : nat) (n : Note) : Prop :=
  dates_valid n ∧ dt_le (created_date n) (modified_date n)
  ∧ dt_le (modified_date n) (clock t).

(** A notes file that is absent, or that [save_notes] wrote from notes
    in order. *)
Definition file_in_order (clock : nat → datetime) (t : nat)
    (f : option file) : Prop :=
  match f with
  | None => True
  | Some Garbage => False
  | Some (Document data) =>
      ∃ ns categories tags,
        data = document ns categories tags ∧ Forall (in_order clock t) ns
  end.

Definition invariant (clock : nat → datetime) (s : state) : Prop :=
  Forall (in_order clock (ticks s)) (heap s)
  ∧ file_in_order clock (ticks s) (notes_file s).

(** A computation keeps the invariant, whatever it returns or raises. *)
Definition keeps (clock : nat → datetime) {A} (m : M A) : Prop :=
  ∀ s, invariant clock s → invariant clock (m s).2.

(** A clock stopped at noon of 2024-01-01. *)
Definition noon : datetime := mkDatetime 2024 1 1 12 0 0 0.
Definition stopped_clock : nat → datetime := λ _, noon.

(** A notes file, written by hand, whose one note was modified a day
    before it was created. *)
Definition backdated : json :=
  JObject [("notes", JArray [JObject [("title", JString "x");
                                       ("content", JString "");
                                       ("is_code", JBool false);
                                       ("tags", JArray []);
                                       ("category", JNull);
                                       ("created_date", JString "2024-01-02T00:00:00");
                                       ("modified_date", JString "2024-01-01T00:00:00")]]);
           ("categories", JArray []);
           ("tags", JArray [])].

(** The first run under the stopped clock; then the first note is
    selected and saved with a new content. *)
Definition first_run : state := (handle stopped_clock Start (installed 0)).2.
Definition after_edit : state :=
  (handle stopped_clock (Save "hello")
     (handle stopped_clock (Select 0 "") first_run).2).2.

(** A computer on which the hand-written file is the notes file. *)
Definition with_backdated_file : state :=
  mkState 0 [] [] [] (-1) [] [] (Some (Document backdated)).

(** *** The list widget *)

(** [s.replace(old, new)] for two characters. *)
Fixpoint replace_char (old new : ascii) (s : string) : string :=
  match s with
  | EmptyString => EmptyString
  | String c s' =>
      String (if Ascii.eqb c old then new else c) (replace_char old new s')
  end.

(** [s[:n]]. *)
Fixpoint slice_to (n : nat) (s : string) : string :=
  match n, s with
  | S n', String c s' => String c (slice_to n' s')
  | _, _ => EmptyString
  end.

(** [note.content[:50].replace(newline, " ") + "..." if
    len(note.content) > 50 else note.content]: the conditional
    expression binds weaker than [+]. *)
Definition preview (content : string) : string :=
  if (50 <? String.length content)%nat
  then replace_char (ascii_of_nat 10) " " (slice_to 50 content) +:+ "..."
  else content.

(** [strftime("%Y-%m-%d %H:%M")], for the years that print with four
    digits. *)
Definition strftime_minute (d : datetime) : string :=
  zero_padded 4 (year d) (String "-"
  (zero_padded 2 (month d) (String "-"
  (zero_padded 2 (day d) (String " "
  (zero_padded 2 (hour d) (String ":"
  (zero_padded 2 (minute d) EmptyString)))))))).

(** The text of one item of the list. *)
Definition item_text (note : Note) : string :=
  (if is_code note then "[Code] " else "")
  +:+ (if truthy (title note) then title note else "Untitled")
  +:+ newline +:+ preview (content note)
  +:+ newline +:+ strftime_minute (modified_date note).

(** [NoteListWidget.update_list]: the items that the list widget holds
    afterwards, each with its text and its [UserRole] data; the item
    that stands for an empty list has no data. *)
Definition update_list : M (list (string * option Z)) :=
  l ← get filtered_notes;
  match l with
  | [] => ret [("No notes found", None)]
  | _ :: _ =>
      ns ← for_each deref l;
      ret (imap (λ i note, (item_text note, Some (Z.of_nat i))) ns)
  end.

(** *** More vocabulary *)

(** A Hoare triple for a computation: from a state in [P] it returns
    [a] in a state in [Q a], or raises in a state in [E]. *)
Definition triple {A} (P : state → Prop) (m : M A)
    (Q : A → state → Prop) (E : state → Prop) : Prop :=
  ∀ s, P s → match m s with
             | (Return a, s') => Q a s'
             | (Raise _, s') => E s'
             end.

(** The two lists of the window are in good shape: no note is listed
    twice, every listed note is an object that was allocated, and the
    filtered list shows listed notes only. *)
Definition tidy (s : state) : Prop :=
  NoDup (notes s) ∧ (∀ r, r ∈ notes s → (r < length (heap s))%nat) ∧
  (∀ r, r ∈ filtered_notes s → r ∈ notes s).

(** A computation that leaves the lists in good shape, whatever it
    returns or raises. *)
Definition stays {A} (m : M A) : Prop := triple tidy m (λ _, tidy) tidy.

(** The note [n] once [save_current_note] has put the content of the
    editor into it at time [t]. *)
Definition edited (n : Note) (editor_content : string) (t : datetime) : Note :=
  mkNote (title n) editor_content (is_code n) (tags n) (category n)
    (created_date n) t.

(** A dict without the key. *)
Definition missing (key : string) (d : list (string * json)) : Prop :=
  key ∉ d.*1.

(** The references of [l] whose object satisfies [p]. *)
Definition selected (p : Note → bool) (s : state) (l : list nat) : list nat :=
  filter (λ r, p <$> heap s !! r = Some true) l.

(** The first run under the stopped clock, with the first note
    selected. *)
Definition first_selected : state :=
  (handle stopped_clock (Select 0 "") first_run).2.

End Qt.

(** ** Removing a tag from a note *)

Module OrmTags.
Import Py Orm.

(** [tag.name.lower() == tag_name.lower()]. *)
Definition same_name (name tag_name : string) : Prop :=
  Qt.py_lower name = Qt.py_lower tag_name.

Global Instance same_name_dec (name tag_name : string) :
  Decision (same_name name tag_name).
Proof. unfold same_name. apply _. Defined.

(** [Note.remove_tag]: the value returned or raised and the database
    after.  The loop takes the first tag of the note whose name is the
    given one up to case; removing it from [note.tags] deletes its row
    of [note_tag] and writes no column of the note.  On a detached
    object [self.id] raises inside the [try], and the handler, which
    calls [logging.error] in a module that does not import [logging],
    raises [NameError]. *)
Definition remove_tag (self : object) (tag_name : string) (db : Database)
    : result bool * Database :=
  match self with
  | Detached _ => (Raise NameError, db)
  | Built self_id _ =>
      match notes db !! self_id with
      | None => (Return false, db)
      | Some _ =>
          match head (filter (λ t : string * Tag,
                                same_name (Orm.tag_name t.2) tag_name)
                        (note_tags db self_id)) with
          | None => (Return false, db)
          | Some tag_to_remove =>
              (Return true,
               {| notes := notes db;
                  tags := tags db;
                  categories := categories db;
                  note_tag := note_tag db ∖ {[ (self_id, tag_to_remove.1) ]} |})
          end
      end
  end.

(** The note carries a tag with that name, up to case. *)
Definition carries (db : Database) (self_id tag_name : string) : Prop :=
  ∃ t, t ∈ note_tags db self_id ∧ same_name (Orm.tag_name t.2) tag_name.

(** A note with the tags [Work] and [home]. *)
Definition db_tagged : Database :=
  mkDatabase {[ "a" := note_A ]}
    (<["t" := mkTag "Work" None 0]> (<["u" := mkTag "home" None 0]> ∅)) ∅
    {[ ("a", "t"); ("a", "u") ]}.

End OrmTags.

(** * Properties of the text helpers *)

Module TextFacts.
Import Text.

Lemma app_cons (a : ascii) (s t : string) :
  String a s +:+ t = String a (s +:+ t).
Proof. reflexivity. Qed.

Lemma app_empty_l (t : string) : EmptyString +:+ t = t.
Proof. reflexivity. Qed.

Lemma app_empty_r (s : string) : s +:+ EmptyString = s.
Proof. induction s as [|c s IH]; [done|]. by rewrite app_cons, IH. Qed.

Lemma lower_app (a b : string) : lower (a +:+ b) = lower a +:+ lower b.
Proof.
  induction a as [|c a IH]; [done|].
  rewrite app_cons. simpl. by rewrite IH, app_cons.
Qed.

Lemma lower_ascii_idem (c : ascii) :
  lower_ascii (lower_ascii c) = lower_ascii c.
Proof. by destruct c as [[] [] [] [] [] [] [] []]. Qed.

Lemma lower_idem (s : string) : lower (lower s) = lower s.
Proof. induction s as [|c s IH]; simpl; [done|]. by rewrite lower_ascii_idem, IH. Qed.

Lemma lower_ascii_percent (c : ascii) :
  Ascii.eqb (lower_ascii c) "%" = Ascii.eqb c "%".
Proof. by destruct c as [[] [] [] [] [] [] [] []]. Qed.

Lemma lower_ascii_underscore (c : ascii) :
  Ascii.eqb (lower_ascii c) "_" = Ascii.eqb c "_".
Proof. by destruct c as [[] [] [] [] [] [] [] []]. Qed.

(** A text whose lower-case form splits in two splits in two itself. *)
Lemma lower_app_inv (s a b : string) :
  lower s = a +:+ b →
  ∃ s1 s2, s = s1 +:+ s2 ∧ lower s1 = a ∧ lower s2 = b.
Proof.
  revert s. induction a as [|c a IH]; intros s Hs.
  - exists EmptyString, s. by rewrite app_empty_l in Hs.
  - destruct s as [|d s]; [done|]. rewrite app_cons in Hs. simpl in Hs.
    injection Hs as Hd Hs. destruct (IH s Hs) as (s1 & s2 & -> & H1 & H2).
    exists (String d s1), s2. rewrite app_cons. simpl. by rewrite Hd, H1.
Qed.

(** *** [prefixb] and [containsb] decide occurrence *)

Lemma prefixb_spec (w s : string) :
  prefixb w s = true ↔ ∃ post, s = w +:+ post.
Proof.
  revert s. induction w as [|a w IH]; intros s; simpl.
  - split; [|done]. intros _. by exists s.
  - destruct s as [|b s].
    + split; [done|]. by intros [post Hp].
    + rewrite andb_true_iff, IH. split.
      * intros [Hab [post ->]]. apply Ascii.eqb_eq in Hab as ->.
        by exists post.
      * intros [post Hp]. rewrite app_cons in Hp. injection Hp as -> ->.
        split; [apply Ascii.eqb_refl|by exists post].
Qed.

Lemma containsb_spec (w s : string) :
  containsb w s = true ↔ occurs_in w s.
Proof.
  unfold occurs_in. induction s as [|b s IH].
  - simpl. rewrite orb_false_r, prefixb_spec. split.
    + intros [post ->]. by exists EmptyString, post.
    + intros (pre & post & Hs). destruct pre; [by exists post|done].
  - cbn [containsb]. rewrite orb_true_iff, IH, prefixb_spec. split.
    + intros [[post ->]|(pre & post & ->)].
      * by exists EmptyString, post.
      * by exists (String b pre), post.
    + intros (pre & post & Hs). destruct pre as [|c pre].
      * left. by exists post.
      * right. rewrite app_cons in Hs. injection Hs as -> ->. by exists pre, post.
Qed.

(** *** What [LIKE] matches *)

Lemma like_percent_unfold (p s : string) :
  like (String "%" p) s
  = like p s || match s with
                | EmptyString => false
                | String _ s' => like (String "%" p) s'
                end.
Proof. by destruct s. Qed.

(** [%] in front: the rest of the pattern matches some suffix. *)
Lemma like_percent (p s : string) :
  like (String "%" p) s = true ↔ ∃ pre t, s = pre +:+ t ∧ like p t = true.
Proof.
  induction s as [|c s IH]; rewrite like_percent_unfold, orb_true_iff.
  - split.
    + intros [H|H]; [|done]. exists EmptyString, EmptyString. by split.
    + intros (pre & t & Hs & Ht). left.
      destruct pre; [|done]. rewrite app_empty_l in Hs. by subst.
  - rewrite IH. split.
    + intros [H|(pre & t & -> & Ht)].
      * exists EmptyString, (String c s). by split.
      * exists (String c pre), t. by split.
    + intros (pre & t & Hs & Ht). destruct pre as [|d pre].
      * left. rewrite app_empty_l in Hs. by subst.
      * right. rewrite app_cons in Hs. injection Hs as -> ->. by exists pre, t.
Qed.

Lemma like_percent_only (s : string) : like "%" s = true.
Proof. apply like_percent. exists s, EmptyString. by rewrite app_empty_r. Qed.

Lemma like_literal_unfold (c : ascii) (p : string) (d : ascii) (s : string) :
  Ascii.eqb c "%" = false →
  like (String c p) (String d s)
  = (Ascii.eqb c "_" || Ascii.eqb (lower_ascii c) (lower_ascii d)) && like p s.
Proof. intros Hc. simpl. by rewrite Hc. Qed.

(** A pattern of plain characters followed by [%]: the text starts with
    those characters, up to case. *)
Lemma like_plain_then_percent (w t : string) :
  wildcard_free w = true →
  like (w +:+ "%") t = true ↔ ∃ post, lower t = lower w +:+ post.
Proof.
  revert t. induction w as [|c w IH]; intros t Hw.
  - rewrite app_empty_l, like_percent_only. split; [|done].
    intros _. by exists (lower t).
  - simpl in Hw. apply andb_true_iff in Hw as [Hc Hw].
    apply andb_true_iff in Hc as [Hc1 Hc2].
    apply negb_true_iff in Hc1, Hc2. rewrite app_cons.
    destruct t as [|d t].
    + simpl. rewrite Hc1. split; [done|]. by intros [post Hp].
    + rewrite like_literal_unfold, Hc2 by done. simpl.
      rewrite andb_true_iff, (IH t Hw). split.
      * intros [Hcd [post Hp]]. apply Ascii.eqb_eq in Hcd.
        exists post. by rewrite app_cons, Hcd, Hp.
      * intros [post Hp]. rewrite app_cons in Hp. injection Hp as Hd Ht.
        split; [rewrite Hd; apply Ascii.eqb_refl|by exists post].
Qed.

Lemma wildcard_free_lower (w : string) :
  wildcard_free (lower w) = wildcard_free w.
Proof.
  induction w as [|c w IH]; simpl; [done|].
  by rewrite lower_ascii_percent, lower_ascii_underscore, IH.
Qed.

(** A word without wildcards between two [%] matches exactly the texts
    in which it occurs, up to case. *)
Lemma like_contains (w s : string) :
  wildcard_free w = true →
  like (lower ("%" +:+ w +:+ "%")) (lower s) = true ↔ occurs_in_ci w s.
Proof.
  intros Hw. unfold occurs_in_ci, occurs_in.
  rewrite !lower_app. change (lower "%") with "%".
  change ("%" +:+ lower w +:+ "%") with (String "%" (lower w +:+ "%")).
  rewrite like_percent. split.
  - intros (pre & t & Hs & Ht).
    apply like_plain_then_percent in Ht as [post Ht];
      [|by rewrite wildcard_free_lower].
    rewrite lower_idem in Ht.
    exists (lower pre), post.
    rewrite <- Ht, <- lower_app, <- Hs. by rewrite lower_idem.
  - intros (pre & post & Hs).
    exists pre, (lower w +:+ post). split; [done|].
    apply like_plain_then_percent; [by rewrite wildcard_free_lower|].
    exists (lower post). by rewrite lower_app, !lower_idem.
Qed.

End TextFacts.
(** * Properties of the ORM layer *)

Module OrmFacts.
Import Py Orm.

(** ** The ordering of [get_all] and [search] *)

Global Instance precedes_total : Total precedes.
Proof.
  intros [i x] [j y]. unfold precedes, order_by_pinned_modified. simpl.
  destruct (is_pinned x), (is_pinned y); auto;
    rewrite !Z.leb_le; lia.
Qed.

Global Instance precedes_trans : Transitive precedes.
Proof.
  intros [i x] [j y] [k z]. unfold precedes, order_by_pinned_modified. simpl.
  destruct (is_pinned x), (is_pinned y), (is_pinned z);
    rewrite ?Z.leb_le; try done; lia.
Qed.

Lemma precedes_pinned (x y : instance) :
  precedes x y → is_pinned y.2 = true → is_pinned x.2 = true.
Proof.
  unfold precedes, order_by_pinned_modified.
  destruct (is_pinned x.2), (is_pinned y.2); done.
Qed.

Lemma precedes_modified (x y : instance) :
  precedes x y → is_pinned x.2 = is_pinned y.2 →
  (modified_date y.2 ≤ modified_date x.2)%Z.
Proof.
  unfold precedes, order_by_pinned_modified.
  destruct (is_pinned x.2), (is_pinned y.2); try done;
    intros H _; by apply Z.leb_le.
Qed.

(** In a strongly sorted list an earlier element is related to every
    later one. *)
Lemma StronglySorted_lookup {A} (R : relation A) (l : list A) i j x y :
  StronglySorted R l → (i < j)%nat → l !! i = Some x → l !! j = Some y → R x y.
Proof.
  intros Hl. revert i j. induction Hl as [|a l Hl IH Hall]; intros i j Hij Hi Hj.
  - done.
  - destruct i as [|i], j as [|j]; try lia; simpl in *.
    + injection Hi as ->. rewrite Forall_forall in Hall.
      apply Hall. eapply list_elem_of_lookup_2. exact Hj.
    + apply (IH i j); [lia|done..].
Qed.

Lemma sorted_pinned_first (q : list instance) :
  pinned_first_newest_first (merge_sort precedes q).
Proof.
  intros i j x y Hij Hi Hj.
  assert (precedes x y) as Hxy.
  { eapply StronglySorted_lookup; [|exact Hij|exact Hi|exact Hj].
    apply StronglySorted_merge_sort; apply _. }
  split; eauto using precedes_pinned, precedes_modified.
Qed.

(** In such a result a pinned note stands before every note that is
    not pinned. *)
Lemma pinned_before_unpinned (l : list instance) i j x y :
  pinned_first_newest_first l →
  l !! i = Some x → l !! j = Some y →
  is_pinned x.2 = true → is_pinned y.2 = false → (i < j)%nat.
Proof.
  intros Hl Hi Hj Hx Hy.
  destruct (decide (i < j)%nat) as [|Hge]; [done|].
  destruct (decide (i = j)) as [->|Hne].
  - rewrite Hi in Hj. injection Hj as ->. congruence.
  - destruct (Hl j i y x) as [Hp _]; [lia|done..|].
    rewrite Hp in Hy; done.
Qed.

(** C1. [get_all] returns every note of the table, each once; every
    pinned note stands before every note that is not pinned, and among
    the pinned notes, as among the others, the modified timestamps never
    increase.  So a pinned note stands before an unpinned one even when
    it was modified earlier. *)
Theorem get_all_pinned_first_newest_first
    (include_tags include_category : bool) (db : Database) :
  let l := get_all include_tags include_category db in
  l ≡ₚ map_to_list (notes db) ∧
  pinned_first_newest_first l ∧
  (∀ i j x y, l !! i = Some x → l !! j = Some y →
     is_pinned x.2 = true → is_pinned y.2 = false → (i < j)%nat).
Proof.
  simpl. unfold get_all. split; [apply merge_sort_Permutation|].
  split; [apply sorted_pinned_first|].
  intros i j x y. apply pinned_before_unpinned, sorted_pinned_first.
Qed.

Lemma get_all_pinned_first_witness :
  get_all true true db_AB = [("b", note_B); ("a", note_A)] ∧ (0 < 1)%nat.
Proof.
  split; [by vm_compute|].
  apply (get_all_pinned_first_newest_first true true db_AB)
    with (x := ("b", note_B)) (y := ("a", note_A)); by vm_compute.
Defined.

(** ** [search] without text and filters *)

(** C7. With an empty text and no category, tag or pinned filter,
    [search] returns the same notes in the same order as [get_all]. *)
Theorem search_nothing_is_get_all (include_tags include_category : bool)
    (db : Database) :
  search "" None None false include_tags include_category db
  = get_all include_tags include_category db.
Proof. reflexivity. Qed.

(** ** What [search] selects *)

Lemma sql_or_true (a b : option bool) :
  sql_or a b = Some true ↔ a = Some true ∨ b = Some true.
Proof. destruct a as [[]|], b as [[]|]; simpl; intuition congruence. Qed.

Lemma sql_and_true (a b : option bool) :
  sql_and a b = Some true ↔ a = Some true ∧ b = Some true.
Proof. destruct a as [[]|], b as [[]|]; simpl; intuition congruence. Qed.

Lemma sql_all_true (conds : list (option bool)) :
  sql_all conds = Some true ↔ Forall (λ c, c = Some true) conds.
Proof.
  unfold sql_all. induction conds as [|c conds IH]; simpl.
  - split; [by constructor|done].
  - rewrite sql_and_true, IH, Forall_cons. done.
Qed.

Lemma ilike_some (s pattern : string) :
  ilike (Some s) pattern
  = Some (Text.like (Text.lower pattern) (Text.lower s)).
Proof. reflexivity. Qed.

Lemma ilike_word (column : option string) (w : string) :
  Text.wildcard_free w = true →
  ilike column ("%" +:+ w +:+ "%") = Some true
  ↔ ∃ s, column = Some s ∧ Text.occurs_in_ci w s.
Proof.
  intros Hw. destruct column as [s|].
  - rewrite ilike_some. split.
    + intros [= H]. exists s. split; [done|].
      by apply (TextFacts.like_contains w s Hw).
    + intros (s' & Hs & H). injection Hs as <-.
      apply (TextFacts.like_contains w s Hw) in H. by rewrite H.
  - split; [done|]. by intros (s & ? & _).
Qed.

Lemma search_condition_word (w : string) (r : instance) :
  Text.wildcard_free w = true →
  search_condition ("%" +:+ w +:+ "%") r = Some true ↔ word_matches w r.2.
Proof.
  intros Hw. unfold search_condition, word_matches.
  by rewrite sql_or_true, !ilike_word.
Qed.

Lemma elem_of_where_ (cond : instance → option bool) (q : list instance)
    (r : instance) :
  r ∈ where_ cond q ↔ cond r = Some true ∧ r ∈ q.
Proof. unfold where_. by rewrite list_elem_of_filter. Qed.

Lemma elem_of_foldl_where_ (db : Database) (ids : list string)
    (q : list instance) (r : instance) :
  r ∈ foldl (λ q tag_id, where_ (has_tag db tag_id) q) q ids
  ↔ r ∈ q ∧ ∀ tag_id, tag_id ∈ ids →
              (r.1, tag_id) ∈ note_tag db ∧ tag_id ∈ dom (tags db).
Proof.
  revert q. induction ids as [|t ids IH]; intros q; simpl.
  - split; [|by intros [? _]]. intros H. split; [done|]. by intros ? ?%elem_of_nil.
  - rewrite IH, elem_of_where_. unfold has_tag. split.
    + intros [[Ht Hq] Hids]. split; [done|]. intros tag_id [->|Hin]%elem_of_cons.
      * injection Ht as Ht. by apply bool_decide_eq_true in Ht.
      * by apply Hids.
    + intros [Hq Hids]. split; [split; [|done]|].
      * f_equal. apply bool_decide_eq_true. apply Hids. by left.
      * intros tag_id Hin. apply Hids. by right.
Qed.

Lemma truthy_nonempty (s : string) : truthy s = true ↔ s ≠ "".
Proof. destruct s; simpl; split; done. Qed.

(** For a query whose words hold no [%] and no [_], [search] returns
    exactly the stored notes in which every word occurs, in the title or
    in the plain content, up to case, and which pass the category, tag
    and pinned filters; it returns them pinned first, newest first. *)
Lemma search_selects (query_text : string) (category_id : option string)
    (tag_ids : option (list string)) (pinned_only : bool)
    (include_tags include_category : bool) (db : Database) :
  Forall (λ w, Text.wildcard_free w = true) (Text.split query_text) →
  let l := search query_text category_id tag_ids pinned_only
             include_tags include_category db in
  (∀ r, r ∈ l ↔
     notes db !! r.1 = Some r.2 ∧
     Forall (λ w, word_matches w r.2) (Text.split query_text) ∧
     passes_filters db category_id tag_ids pinned_only r) ∧
  pinned_first_newest_first l.
Proof.
  intros Hfree. simpl. split; [|apply sorted_pinned_first].
  intros r. unfold search. cbv zeta. rewrite merge_sort_Permutation.
  set (q0 := map_to_list (notes db)).
  set (q1 := filter_text query_text q0).
  set (q2 := filter_category category_id q1).
  set (q3 := filter_tags db tag_ids q2).
  assert (r ∈ q0 ↔ notes db !! r.1 = Some r.2) as H0.
  { subst q0. destruct r as [i n]. apply elem_of_map_to_list. }
  assert (r ∈ q1 ↔ r ∈ q0 ∧ Forall (λ w, word_matches w r.2) (Text.split query_text))
    as H1.
  { assert (r ∈ where_ (λ r, sql_all ((λ term, search_condition term r)
                                       <$> search_terms query_text)) q0
            ↔ r ∈ q0 ∧ Forall (λ w, word_matches w r.2) (Text.split query_text))
      as Hw.
    { rewrite elem_of_where_, sql_all_true. unfold search_terms.
      rewrite <- list_fmap_compose, Forall_fmap.
      assert (Forall ((λ c, c = Some true)
                        ∘ ((λ term, search_condition term r)
                             ∘ (λ term, "%" +:+ term +:+ "%")))
                (Text.split query_text)
              ↔ Forall (λ w, word_matches w r.2) (Text.split query_text)) as ->.
      { rewrite !Forall_forall. rewrite Forall_forall in Hfree.
        split; intros H w Hin; specialize (H w Hin); simpl in *;
          by apply (search_condition_word w r (Hfree w Hin)). }
      tauto. }
    subst q1. unfold filter_text. destruct query_text as [|c rest]; [|exact Hw].
    simpl. split; [|by intros [? _]]. intros H. split; [done|]. constructor. }
  assert (r ∈ q2 ↔ r ∈ q1 ∧
            ∀ c, category_id = Some c → c ≠ "" → Orm.category_id r.2 = Some c)
    as H2.
  { subst q2. unfold filter_category. destruct category_id as [c|].
    - destruct (truthy c) eqn:Hc.
      + rewrite elem_of_where_. unfold sql_eq. split.
        * intros [Heq Hq]. split; [done|]. intros c' [= <-] _.
          destruct (Orm.category_id r.2) as [c'|]; [|done]. simpl in Heq.
          injection Heq as Heq. by apply bool_decide_eq_true in Heq as ->.
        * intros [Hq Hcat]. split; [|done].
          rewrite (Hcat c eq_refl); [|by apply truthy_nonempty].
          simpl. by rewrite bool_decide_eq_true_2.
      + split; [|by intros [? _]]. intros H. split; [done|].
        intros c' [= <-] Hne. apply truthy_nonempty in Hne. congruence.
    - split; [|by intros [? _]]. intros H. split; [done|]. by intros c [=]. }
  assert (r ∈ q3 ↔ r ∈ q2 ∧
            ∀ ids tag_id, tag_ids = Some ids → tag_id ∈ ids →
              (r.1, tag_id) ∈ note_tag db ∧ tag_id ∈ dom (tags db))
    as H3.
  { subst q3. unfold filter_tags. destruct tag_ids as [ids|].
    - rewrite elem_of_foldl_where_. split; intros [Hq Hids]; (split; [done|]).
      + intros ids' tag_id [= <-]. apply Hids.
      + intros tag_id. by apply Hids.
    - split; [|by intros [? _]]. intros H. split; [done|]. by intros ? ? [=]. }
  unfold passes_filters, filter_pinned. destruct pinned_only.
  - rewrite elem_of_where_, H3, H2, H1, H0. split.
    + intros [Hp (((Hn & Hw) & Hc) & Ht)]. injection Hp as Hp.
      apply bool_decide_eq_true in Hp. done.
    + intros (Hn & Hw & Hc & Ht & Hp). split; [|done].
      f_equal. apply bool_decide_eq_true. by apply Hp.
  - rewrite H3, H2, H1, H0. split.
    + intros (((Hn & Hw) & Hc) & Ht). done.
    + intros (Hn & Hw & Hc & Ht & Hp). done.
Qed.

(** C2.  [search] is to return the notes in which every word of the
    query occurs, and for words without [LIKE] wildcards it does
    ([search_selects]).  A word that holds [_] or [%] is taken as a
    pattern, though: the query [a_c] returns the note titled [abc], in
    which [a_c] does not occur. *)
Theorem search_underscore_matches_any_character :
  Text.split "a_c" = ["a_c"] ∧
  search "a_c" None None false true true db_abc = [("n", note_abc)] ∧
  ¬ word_matches "a_c" note_abc.
Proof.
  split; [by vm_compute|]. split; [by vm_compute|].
  intros [(t & [= <-] & H)|(p & [=] & _)].
  apply TextFacts.containsb_spec in H. by vm_compute in H.
Qed.

(** ** Unknown ids *)

(** C6. [delete_by_id] returns whether the note was there; it removes
    that note and no other; called again with the same id it returns
    [False], raises nothing and changes nothing; on an id that is not
    there it changes nothing either. *)
Theorem delete_by_id_twice (note_id : string) (db : Database) :
  ∃ db1,
    delete_by_id note_id db
      = (Return (bool_decide (is_Some (notes db !! note_id))), db1) ∧
    notes db1 = delete note_id (notes db) ∧
    delete_by_id note_id db1 = (Return false, db1) ∧
    (notes db !! note_id = None → db1 = db).
Proof.
  unfold delete_by_id. destruct (notes db !! note_id) as [n|] eqn:Hn.
  - exists (delete_row note_id db). simpl. rewrite lookup_delete_eq.
    done.
  - exists db. rewrite Hn. simpl. by rewrite delete_id.
Qed.

Lemma delete_by_id_twice_witness :
  ∃ db1, delete_by_id "b" db_AB = (Return true, db1) ∧
         delete_by_id "b" db1 = (Return false, db1).
Proof.
  destruct (delete_by_id_twice "b" db_AB) as (db1 & H1 & _ & H2 & _).
  exists db1. split; [|exact H2]. rewrite H1. reflexivity.
Defined.

(** A call on a detached object raises at [self.id], before any
    statement is sent: the database is as before. *)
Lemma update_detached (now : instant) (uuid4 : nat → string) (key : string)
    (kw : update_kwargs) (db : Database) :
  update now uuid4 (Detached key) kw db = (Raise DetachedInstanceError, db).
Proof. reflexivity. Qed.

Lemma toggle_pin_detached (now : instant) (key : string) (db : Database) :
  toggle_pin now (Detached key) db
  = (Raise DetachedInstanceError, Detached key, db).
Proof. reflexivity. Qed.

(** C4, as the code has it.  When the note of the object is not
    stored, [update] does not return normally, and neither [update] nor
    [toggle_pin] changes the database.  On an object whose attributes
    can be read, [update] raises the [ValueError] that says that the
    note was not found, and [toggle_pin] raises nothing: it returns the
    pinned flag that the caller's object holds, and that object is as
    before. *)
Theorem unknown_id_update_raises_toggle_pin_returns
    (now : instant) (uuid4 : nat → string) (kw : update_kwargs)
    (self : object) (db : Database) :
  notes db !! key_of self = None →
  (∃ e, (update now uuid4 self kw db).1 = Raise e) ∧
  (update now uuid4 self kw db).2 = db ∧
  (toggle_pin now self db).2 = db ∧
  (∀ id columns, self = Built id columns →
     update now uuid4 self kw db
       = (Raise (ValueError ("Note with ID " +:+ id +:+ " not found")), db) ∧
     toggle_pin now self db = (Return (is_pinned columns), self, db)).
Proof.
  intros Hn. destruct self as [self_id cols|key]; cbn [key_of] in Hn.
  - assert (update now uuid4 (Built self_id cols) kw db
            = (Raise (ValueError ("Note with ID " +:+ self_id +:+ " not found")),
               db)) as Hu by (unfold update; by rewrite Hn).
    assert (toggle_pin now (Built self_id cols) db
            = (Return (is_pinned cols), Built self_id cols, db)) as Ht
      by (unfold toggle_pin; by rewrite Hn).
    rewrite Hu, Ht. split; [by eexists|]. do 2 (split; [done|]).
    intros id columns [= <- <-]. done.
  - rewrite update_detached, toggle_pin_detached.
    split; [by eexists|]. do 2 (split; [done|]). intros id columns [=].
Qed.

Lemma unknown_id_witness :
  notes db_AB !! "ghost" = None ∧
  toggle_pin 5 (Built "ghost" note_A) db_AB
  = (Return false, Built "ghost" note_A, db_AB).
Proof.
  split; [by vm_compute|].
  destruct (unknown_id_update_raises_toggle_pin_returns 5 (λ _, "")
              (title_only "x") (Built "ghost" note_A) db_AB) as (_ & _ & _ & H);
    [by vm_compute|].
  destruct (H "ghost" note_A eq_refl) as [_ Ht]. exact Ht.
Defined.

(** The specification has [toggle_pin] raise a not-found condition on
    an unknown id.  On an object that the caller built for an id that
    is not stored, it returns.  On the object that [get_by_id] returned
    for a note that was deleted since, both [toggle_pin] and [update]
    raise, but not a not-found condition: they raise
    [DetachedInstanceError], as they do on that object while the note
    is stored. *)
Lemma toggle_pin_unknown_id_returns :
  (notes db_AB !! "ghost" = None ∧
   toggle_pin 5 (Built "ghost" note_A) db_AB
   = (Return false, Built "ghost" note_A, db_AB)) ∧
  (get_by_id "a" true true db_AB = Some ("a", note_A) ∧
   delete_by_id "a" db_AB = (Return true, delete_row "a" db_AB) ∧
   notes (delete_row "a" db_AB) !! "a" = None ∧
   (toggle_pin 5 (returned ("a", note_A)) (delete_row "a" db_AB)).1.1
   = Raise DetachedInstanceError ∧
   (update 5 (λ _, "") (returned ("a", note_A)) (title_only "x")
      (delete_row "a" db_AB)).1
   = Raise DetachedInstanceError ∧
   (toggle_pin 5 (returned ("a", note_A)) db_AB).1.1
   = Raise DetachedInstanceError).
Proof.
  split; [split; by vm_compute|].
  split; [by vm_compute|]. split; [by vm_compute|].
  split; [by vm_compute|]. done.
Qed.

(** ** Updating the title only *)

Lemma flush_row_modified (now : instant) (loaded current : Note) :
  modified_date current = modified_date loaded →
  modified_date (flush_row now loaded current)
  = if decide (current = loaded) then modified_date loaded else now.
Proof. intros H. unfold flush_row. by case_decide. Qed.

Lemma flush_row_columns (now : instant) (loaded current : Note) :
  let row := flush_row now loaded current in
  title row = title current ∧ content row = content current ∧
  plain_content row = plain_content current ∧
  created_date row = created_date current ∧ color row = color current ∧
  is_pinned row = is_pinned current ∧ category_id row = category_id current.
Proof. simpl. unfold flush_row. case_decide; simplify_eq; done. Qed.

(** C3, as the code has it.  An update of an existing note that passes
    a title and nothing else leaves the content, plain content, color,
    pinned flag, category, created timestamp and tags of the note, and
    every other row of every table, as before.  Called on an object
    whose attributes can be read, it returns and stores that title; the
    modified timestamp becomes the current time when the title differs
    from the stored one; when it is the stored title nothing is written
    and the modified timestamp stays. *)
Theorem update_title_only (now : instant) (uuid4 : nat → string)
    (self : object) (t : string) (db : Database) (old : Note) :
  notes db !! key_of self = Some old →
  let db' := (update now uuid4 self (title_only t) db).2 in
  (∃ row,
     notes db' !! key_of self = Some row ∧
     content row = content old ∧ plain_content row = plain_content old ∧
     color row = color old ∧ is_pinned row = is_pinned old ∧
     category_id row = category_id old ∧ created_date row = created_date old ∧
     (∀ id columns, self = Built id columns →
        update now uuid4 self (title_only t) db
          = (Return (Detached id), with_notes db (<[id := row]> (notes db))) ∧
        title row = Some t ∧
        modified_date row
          = (if decide (title old = Some t) then modified_date old else now))) ∧
  (∀ other, other ≠ key_of self → notes db' !! other = notes db !! other) ∧
  tags db' = tags db ∧ categories db' = categories db ∧
  note_tag db' = note_tag db.
Proof.
  intros Hold. destruct self as [self_id cols|key]; cbn [key_of] in Hold |- *.
  - set (cur := assign (title_only t) old).
    assert (update now uuid4 (Built self_id cols) (title_only t) db
            = (Return (Detached self_id),
               with_notes db (<[self_id := flush_row now old cur]> (notes db))))
      as Hu by (unfold update; by rewrite Hold).
    cbv zeta. rewrite Hu. cbn [snd notes tags categories note_tag with_notes].
    split; [|split; [|done]].
    + exists (flush_row now old cur). rewrite lookup_insert_eq.
      destruct (flush_row_columns now old cur)
        as (Ht & Hc & Hp & Hcr & Hco & Hpi & Hca).
      rewrite Ht, Hc, Hp, Hcr, Hco, Hpi, Hca.
      rewrite flush_row_modified by done.
      do 7 (split; [done|]). intros id columns [= <- <-].
      do 2 (split; [done|]).
      destruct old as [ot oc op ocr om oco opi oca]; subst cur; simpl.
      unfold assign; simpl.
      destruct (decide (ot = Some t)) as [->|Hne].
      * by rewrite decide_True.
      * rewrite decide_False; [done|]. intros [=]. congruence.
    + intros other Hne. by rewrite lookup_insert_ne.
  - cbv zeta. rewrite update_detached. cbn [snd].
    split; [|done]. exists old. repeat split; try done.
Qed.

Lemma update_title_only_witness :
  notes db_AB !! "a" = Some note_A ∧
  ∃ row, update 7 (λ _, "") (Built "a" note_B) (title_only "New") db_AB
         = (Return (Detached "a"),
            with_notes db_AB (<["a" := row]> (notes db_AB)))
         ∧ title row = Some "New" ∧ modified_date row = 7.
Proof.
  split; [by vm_compute|].
  destruct (update_title_only 7 (λ _, "") (Built "a" note_B) "New" db_AB note_A)
    as [(row & _ & _ & _ & _ & _ & _ & _ & H) _]; [by vm_compute|].
  destruct (H "a" note_B eq_refl) as (H1 & H2 & H3).
  exists row. repeat split; [exact H1|exact H2|].
  rewrite H3. reflexivity.
Defined.

(** The specification has the title stored and the modified timestamp
    become the current time on every update of an existing note that
    passes a title.  The timestamp stays when the title passed is the
    stored one; and on the object that [get_by_id] returned for the
    note, the call raises and the title is not stored. *)
Lemma update_same_title_keeps_modified :
  (notes db_AB !! "a" = Some note_A ∧
   ∃ row,
     update 7 (λ _, "") (Built "a" note_A) (title_only "A") db_AB
     = (Return (Detached "a"), db_AB) ∧
     notes db_AB !! "a" = Some row ∧
     modified_date row = 1 ∧ modified_date row ≠ 7) ∧
  (get_by_id "a" true true db_AB = Some ("a", note_A) ∧
   update 7 (λ _, "") (returned ("a", note_A)) (title_only "New") db_AB
   = (Raise DetachedInstanceError, db_AB) ∧
   title <$> notes db_AB !! "a" = Some (Some "A")).
Proof.
  split.
  - split; [by vm_compute|]. exists note_A.
    split; by vm_compute.
  - split; [by vm_compute|]. split; [done|]. by vm_compute.
Qed.

(** ** The counting queries *)

(** A dict comprehension over pairs with distinct keys holds exactly
    those pairs. *)
Lemma foldl_insert_lookup {V} (l : list (string * V)) (d : gmap string V)
    (k : string) (v : V) :
  NoDup (l.*1) →
  foldl (λ d kv, <[kv.1 := kv.2]> d) d l !! k = Some v
  ↔ (k, v) ∈ l ∨ (¬ k ∈ fst <$> l) ∧ d !! k = Some v.
Proof.
  revert d. induction l as [|[k' v'] l IH]; intros d Hnd; simpl.
  - split; [right; split; [apply not_elem_of_nil|done]|].
    intros [?%elem_of_nil|[_ ?]]; done.
  - apply NoDup_cons in Hnd as [Hk' Hnd]. rewrite (IH _ Hnd).
    rewrite elem_of_cons, not_elem_of_cons. simpl in *.
    destruct (decide (k' = k)) as [->|Hne].
    + rewrite lookup_insert_eq. split.
      * intros [Hin|[Hnin [= ->]]]; [|by left; left].
        exfalso. apply Hk'. apply list_elem_of_fmap. by exists (k, v).
      * intros [[[= ->]|Hin]|[[? _] _]]; [|by left|done].
        right. split; [done|done].
    + rewrite lookup_insert_ne by done. split.
      * intros [Hin|[Hnin Hd]]; [by left; right|]. right. done.
      * intros [[[= -> ->]|Hin]|[[_ Hnin] Hd]]; [done|by left|by right].
Qed.

Lemma dict_of_lookup {V} (l : list (string * V)) (k : string) (v : V) :
  NoDup (l.*1) → dict_of l !! k = Some v ↔ (k, v) ∈ l.
Proof.
  intros Hnd. unfold dict_of. rewrite foldl_insert_lookup by done.
  rewrite lookup_empty. split; [|by left]. by intros [?|[_ ?]].
Qed.

Lemma group_count_keys `{EqDecision K} (keys : list K) :
  (group_count keys).*1 = remove_dups keys.
Proof.
  unfold group_count. rewrite <- list_fmap_compose.
  generalize (remove_dups keys) as l.
  induction l as [|k l IH]; simpl; [done|]. by f_equal.
Qed.

Lemma elem_of_group_count `{EqDecision K} (keys : list K) (k : K) (n : nat) :
  (k, n) ∈ group_count keys
  ↔ k ∈ keys ∧ n = length (filter (λ k', k' = k) keys).
Proof.
  unfold group_count. rewrite list_elem_of_fmap. split.
  - intros (k' & Heq & Hin). injection Heq as -> ->.
    rewrite elem_of_remove_dups in Hin. done.
  - intros [Hin ->]. exists k. by rewrite elem_of_remove_dups.
Qed.

(** An option that is [Some] exactly for one value of a counter. *)
Lemma lookup_counted {A} (o : option nat) (l : list A) :
  (∀ n, o = Some n ↔ l ≠ [] ∧ n = length l) →
  o = if decide (l = []) then None else Some (length l).
Proof.
  intros H. case_decide as Hl.
  - destruct o as [n|]; [|done]. by destruct (proj1 (H n) eq_refl).
  - by apply H.
Qed.

(** The rows that the join holds for one tag. *)
Lemma count_in_join (db : Database) (tag_id : string) :
  length (filter (λ k, k = tag_id) (fst <$> tags_join_note_tag db))
  = if decide (tag_id ∈ dom (tags db))
    then length (filter (λ p : string * string, p.2 = tag_id)
                   (elements (note_tag db)))
    else 0%nat.
Proof.
  unfold tags_join_note_tag.
  assert (∀ t : string,
    length (filter (λ k, k = tag_id)
              (fst <$> (elements (note_tag db) ≫= λ p,
                          if decide (t = p.2) then [(t, p.1)] else [])))
    = if decide (t = tag_id)
      then length (filter (λ p : string * string, p.2 = tag_id)
                     (elements (note_tag db)))
      else 0%nat) as Hrow.
  { intros t. induction (elements (note_tag db)) as [|p l IH].
    - simpl. by case_decide.
    - rewrite bind_cons, fmap_app, filter_app, length_app, IH.
      rewrite (filter_cons _ p l).
      destruct (decide (t = tag_id)) as [->|Hne].
      + destruct (decide (tag_id = p.2)) as [Hp|Hp].
        * rewrite (decide_True (P := p.2 = tag_id)) by done.
          simpl. rewrite filter_cons, decide_True by done. done.
        * rewrite (decide_False (P := p.2 = tag_id)) by done. done.
      + destruct (decide (t = p.2)) as [Hp|Hp]; [|done].
        simpl. rewrite filter_cons, decide_False by done. done. }
  pose proof (NoDup_fst_map_to_list (tags db)) as Hnd.
  assert (length (filter (λ k, k = tag_id)
            (fst <$> (map_to_list (tags db) ≫= λ tag : string * Tag,
               elements (note_tag db) ≫= λ p,
                 if decide (tag.1 = p.2) then [(tag.1, p.1)] else [])))
          = if decide (tag_id ∈ (map_to_list (tags db)).*1)
            then length (filter (λ p : string * string, p.2 = tag_id)
                           (elements (note_tag db)))
            else 0%nat) as ->.
  { induction (map_to_list (tags db)) as [|[k t] l IH].
    - case_decide as Hin; [by apply elem_of_nil in Hin|done].
    - rewrite fmap_cons in Hnd. apply NoDup_cons in Hnd as [Hk Hnd].
      rewrite bind_cons, fmap_app, filter_app, length_app, Hrow, (IH Hnd).
      rewrite fmap_cons. cbn [fst].
      destruct (decide (k = tag_id)) as [->|Hne].
      + rewrite (decide_False (P := tag_id ∈ l.*1)) by done.
        rewrite decide_True by (by left). lia.
      + destruct (decide (tag_id ∈ l.*1)) as [Hin|Hin].
        * rewrite decide_True by (by right). done.
        * rewrite decide_False; [done|].
          rewrite not_elem_of_cons. split; [congruence|done]. }
  assert (tag_id ∈ dom (tags db) ↔ tag_id ∈ (map_to_list (tags db)).*1) as Hdom.
  { rewrite elem_of_dom, list_elem_of_fmap. split.
    - intros [t Ht]. exists (tag_id, t). split; [done|].
      by apply elem_of_map_to_list.
    - intros ([k t] & -> & Hin). apply elem_of_map_to_list in Hin. by exists t. }
  do 2 case_decide; tauto.
Qed.

(** The pairs of [note_tag] for a tag are as many as the notes that
    carry the tag. *)
Lemma pairs_are_notes (db : Database) (tag_id : string) :
  referential_integrity db →
  length (filter (λ p : string * string, p.2 = tag_id) (elements (note_tag db)))
  = length (notes_with_tag db tag_id).
Proof.
  intros Hri.
  transitivity (length (fst <$> filter (λ p : string * string, p.2 = tag_id)
                                  (elements (note_tag db))));
    [by rewrite length_fmap|].
  transitivity (length (fst <$> notes_with_tag db tag_id));
    [|by rewrite length_fmap].
  apply Permutation_length, NoDup_Permutation.
  - apply NoDup_fmap_2_strong.
    + intros [n1 t1] [n2 t2] [H1 _]%list_elem_of_filter [H2 _]%list_elem_of_filter.
      simpl in *. intros ->. by subst.
    + apply NoDup_filter, NoDup_elements.
  - unfold notes_with_tag. apply NoDup_fmap_2_strong.
    + intros [n1 x1] [n2 x2] [_ H1]%list_elem_of_filter [_ H2]%list_elem_of_filter.
      simpl. intros ->. apply elem_of_map_to_list in H1, H2. congruence.
    + apply NoDup_filter, NoDup_map_to_list.
  - intros note_id. unfold notes_with_tag. rewrite !list_elem_of_fmap. split.
    + intros ([n t] & -> & [Ht Hin]%list_elem_of_filter). simpl in *. subst t.
      apply elem_of_elements in Hin.
      destruct (Hri _ _ Hin) as [[x Hx]%elem_of_dom _].
      exists (n, x). split; [done|]. apply list_elem_of_filter. split; [done|].
      by apply elem_of_map_to_list.
    + intros ([n x] & -> & [Ht Hin]%list_elem_of_filter). simpl in *.
      exists (n, tag_id). split; [done|]. apply list_elem_of_filter.
      split; [done|]. by apply elem_of_elements.
Qed.

Lemma filter_length_nonempty {A} (P : A → Prop) `{∀ x, Decision (P x)}
    (l : list A) :
  filter P l ≠ [] ↔ ∃ x, x ∈ l ∧ P x.
Proof.
  split.
  - intros Hne. destruct (filter P l) as [|x l'] eqn:Hf; [done|].
    exists x. apply and_comm, (list_elem_of_filter P). rewrite Hf. by left.
  - intros (x & Hin & Hx) Hf.
    by apply (filter_nil_not_elem_of P l x).
Qed.

(** Filtering the image of a list, whatever the decision procedures. *)
Lemma filter_fmap_length {A B} (f : A → B) (P : B → Prop) (Q : A → Prop)
    `{∀ y, Decision (P y)} `{∀ x, Decision (Q x)} (l : list A) :
  (∀ x, P (f x) ↔ Q x) →
  length (filter P (f <$> l)) = length (filter Q l).
Proof.
  intros HPQ. induction l as [|x l IH]; [done|].
  rewrite fmap_cons, !filter_cons.
  destruct (decide (P (f x))) as [HP|HP], (decide (Q x)) as [HQ|HQ];
    simpl; rewrite ?IH; try done; by apply HPQ in HP || by apply HPQ in HQ.
Qed.

Lemma count_by_tag_lookup (db : Database) (tag_id : string) :
  referential_integrity db →
  count_by_tag db !! tag_id
  = if decide (notes_with_tag db tag_id = []) then None
    else Some (length (notes_with_tag db tag_id)).
Proof.
  intros Hri. apply lookup_counted. intros n. unfold count_by_tag.
  rewrite dict_of_lookup by (rewrite group_count_keys; apply NoDup_remove_dups).
  rewrite elem_of_group_count, count_in_join.
  pose proof (pairs_are_notes db tag_id Hri) as Hlen.
  assert (notes_with_tag db tag_id ≠ []
          ↔ filter (λ p : string * string, p.2 = tag_id)
              (elements (note_tag db)) ≠ []) as ->.
  { rewrite <- !length_zero_iff_nil, Hlen. done. }
  rewrite <- Hlen. clear Hlen.
  assert (tag_id ∈ fst <$> tags_join_note_tag db
          ↔ filter (λ p : string * string, p.2 = tag_id)
              (elements (note_tag db)) ≠ []) as ->.
  { rewrite filter_length_nonempty. unfold tags_join_note_tag.
    rewrite list_elem_of_fmap. split.
    - intros ([k n'] & -> & Hin). apply list_elem_of_bind in Hin as ([k' t] & Hin & _).
      apply list_elem_of_bind in Hin as (p & Hin & Hp).
      case_decide; [|by apply elem_of_nil in Hin].
      apply list_elem_of_singleton in Hin as [= -> ->]. simpl in *. by exists p.
    - intros ([n' t] & Hin & Ht). simpl in Ht. subst t.
      pose proof Hin as Hin'. apply elem_of_elements in Hin'.
      destruct (Hri _ _ Hin') as [_ [x Hx]%elem_of_dom].
      exists (tag_id, n'). split; [done|]. apply list_elem_of_bind.
      exists (tag_id, x). split; [|by apply elem_of_map_to_list].
      apply list_elem_of_bind. exists (n', tag_id). split; [|done].
      simpl. rewrite decide_True by done. by left. }
  case_decide as Hdom; [reflexivity|].
  assert (¬ filter (λ p : string * string, p.2 = tag_id)
              (elements (note_tag db)) ≠ []) as Hnil.
  { intros ([n' t] & Hin & Ht)%filter_length_nonempty.
    simpl in Ht. subst t. apply elem_of_elements in Hin.
    by destruct (Hri _ _ Hin). }
  split; by intros [? _].
Qed.

(** C10.  While the foreign keys of [note_tag] hold, [count_by_tag] has
    an entry for a tag exactly when some note carries the tag, and the
    entry is the number of those notes; a tag that no note carries has
    no entry (not an entry 0).  [count_by_category] puts the notes
    without category under the key [uncategorized] (when that key is
    not itself the id of a category in use). *)
Theorem count_by_tag_counts_the_notes (db : Database) (tag_id : string) :
  referential_integrity db →
  count_by_tag db !! tag_id
  = (if decide (notes_with_tag db tag_id = []) then None
     else Some (length (notes_with_tag db tag_id))) ∧
  (sentinel_unused db →
   count_by_category db !! "uncategorized"
   = if decide (uncategorized_notes db = []) then None
     else Some (length (uncategorized_notes db))).
Proof.
  intros Hri. split; [by apply count_by_tag_lookup|].
  intros Hsent. apply lookup_counted. intros n. unfold count_by_category.
  set (keys := (λ r : instance, category_id r.2) <$> map_to_list (notes db)).
  assert (∀ g, g ∈ keys → category_key g = "uncategorized" → g = None) as Hkey.
  { intros g ([i x] & -> & Hin)%list_elem_of_fmap Hg. simpl in *.
    apply elem_of_map_to_list in Hin. destruct (Hsent i x Hin) as [H1 H2].
    destruct (category_id x) as [c|]; [|done]. simpl in Hg.
    destruct c as [|a c]; [done|]. simpl in Hg. congruence. }
  assert (∀ g1 g2, g1 ∈ keys → g2 ∈ keys →
            category_key g1 = category_key g2 → g1 = g2) as Hinj.
  { intros g1 g2 H1 H2 Heq.
    destruct g1 as [c1|], g2 as [c2|]; try done.
    - pose proof H1 as ([i x] & Hx & Hin)%list_elem_of_fmap.
      pose proof H2 as ([j y] & Hy & Hjn)%list_elem_of_fmap. simpl in *.
      apply elem_of_map_to_list in Hin, Hjn.
      destruct (Hsent i x Hin) as [Hx1 _]. destruct (Hsent j y Hjn) as [Hy1 _].
      rewrite <- Hx in Hx1. rewrite <- Hy in Hy1.
      destruct c1, c2; simpl in Heq; congruence.
    - by specialize (Hkey (Some c1) H1 Heq).
    - by specialize (Hkey (Some c2) H2 (eq_sym Heq)). }
  rewrite dict_of_lookup.
  - rewrite list_elem_of_fmap. split.
    + intros ([g m] & [= Hg ->] & Hin). simpl in *.
      apply elem_of_group_count in Hin as [Hin ->].
      symmetry in Hg. apply Hkey in Hg as ->; [|done].
      unfold uncategorized_notes. subst keys.
      split; [|by apply filter_fmap_length].
      apply filter_length_nonempty.
      apply list_elem_of_fmap in Hin as (r & Hr & Hin). by exists r.
    + intros [Hne ->]. exists (None, length (uncategorized_notes db)).
      split; [done|]. apply elem_of_group_count.
      apply filter_length_nonempty in Hne as (r & Hin & Hr).
      split; [apply list_elem_of_fmap; by exists r|].
      unfold uncategorized_notes. subst keys. symmetry.
      by apply filter_fmap_length.
  - rewrite <- list_fmap_compose.
    apply NoDup_fmap_2_strong.
    + intros [g1 m1] [g2 m2] [H1 ->]%elem_of_group_count
        [H2 ->]%elem_of_group_count Heq. simpl in Heq.
      by rewrite (Hinj g1 g2 H1 H2 Heq).
    + apply (NoDup_fmap_1 fst). rewrite group_count_keys.
      apply NoDup_remove_dups.
Qed.

Lemma count_by_tag_witness :
  referential_integrity db_AB ∧ sentinel_unused db_AB ∧
  count_by_tag db_AB !! "t" = Some 1%nat ∧
  count_by_tag db_AB !! "u" = None ∧
  count_by_category db_AB !! "uncategorized" = Some 2%nat.
Proof.
  assert (referential_integrity db_AB) as Hri.
  { intros note_id tag_id Hin. cbn [note_tag db_AB] in Hin.
    apply elem_of_singleton in Hin. injection Hin as -> ->.
    split; apply elem_of_dom; eexists; reflexivity. }
  assert (sentinel_unused db_AB) as Hs.
  { intros note_id n Hn. cbn [notes db_AB] in Hn.
    apply lookup_insert_Some in Hn as [[_ <-]|[_ Hn]]; [done|].
    apply lookup_insert_Some in Hn as [[_ <-]|[_ Hn]]; [done|].
    by rewrite lookup_empty in Hn. }
  split; [exact Hri|]. split; [exact Hs|].
  destruct (count_by_tag_counts_the_notes db_AB "t" Hri) as [Ht Hc].
  destruct (count_by_tag_counts_the_notes db_AB "u" Hri) as [Hu _].
  rewrite Ht, Hu, (Hc Hs). clear. vm_compute. repeat split; reflexivity.
Defined.

End OrmFacts.

(** * More properties of the ORM layer *)

Module OrmMoreFacts.
Import Py Orm OrmFacts OrmTags.

Lemma NoDup_where_ (cond : instance → option bool) (q : list instance) :
  NoDup q → NoDup (where_ cond q).
Proof. apply NoDup_filter. Qed.

Lemma NoDup_search (query_text : string) (category_id : option string)
    (tag_ids : option (list string)) (pinned_only : bool)
    (include_tags include_category : bool) (db : Database) :
  NoDup (search query_text category_id tag_ids pinned_only
           include_tags include_category db).
Proof.
  unfold search. cbv zeta. rewrite merge_sort_Permutation.
  assert (∀ q, NoDup q → NoDup (filter_text query_text q)) as H1.
  { intros q Hq. unfold filter_text. case_match; [by apply NoDup_where_|done]. }
  assert (∀ q, NoDup q → NoDup (filter_category category_id q)) as H2.
  { intros q Hq. unfold filter_category.
    repeat case_match; try done; by apply NoDup_where_. }
  assert (∀ q, NoDup q → NoDup (filter_tags db tag_ids q)) as H3.
  { intros q Hq. unfold filter_tags. destruct tag_ids as [ids|]; [|done].
    revert q Hq. induction ids as [|t ids IH]; intros q Hq; [done|].
    simpl. by apply IH, NoDup_where_. }
  assert (∀ q, NoDup q → NoDup (filter_pinned pinned_only q)) as H4.
  { intros q Hq. unfold filter_pinned. case_match; [by apply NoDup_where_|done]. }
  apply H4, H3, H2, H1, NoDup_map_to_list.
Qed.

(** X1.  For a query whose words hold no [%] and no [_], [search]
    returns exactly the stored notes in which every word occurs, in the
    title or in the plain content, up to the case of ASCII letters, and
    which pass the category, tag and pinned filters; it returns each of
    them once, pinned first, newest first. *)
Theorem search_finds_every_word (query_text : string)
    (category_id : option string) (tag_ids : option (list string))
    (pinned_only : bool) (include_tags include_category : bool)
    (db : Database) :
  Forall (λ w, Text.wildcard_free w = true) (Text.split query_text) →
  let l := search query_text category_id tag_ids pinned_only
             include_tags include_category db in
  (∀ r, r ∈ l ↔
     notes db !! r.1 = Some r.2 ∧
     Forall (λ w, word_matches w r.2) (Text.split query_text) ∧
     passes_filters db category_id tag_ids pinned_only r) ∧
  NoDup l ∧
  pinned_first_newest_first l.
Proof.
  intros Hfree. cbv zeta.
  destruct (search_selects query_text category_id tag_ids pinned_only
              include_tags include_category db Hfree) as [Hin Hsorted].
  split; [exact Hin|]. split; [apply NoDup_search|exact Hsorted].
Qed.

Lemma search_finds_every_word_witness :
  Forall (λ w, Text.wildcard_free w = true) (Text.split "hello world") ∧
  ("n1", note_both) ∈ search "hello world" None None false true true db_hello.
Proof.
  assert (Forall (λ w, Text.wildcard_free w = true) (Text.split "hello world"))
    as Hfree by (by repeat constructor).
  split; [exact Hfree|].
  apply (search_finds_every_word "hello world" None None false true true
           db_hello Hfree).
  split; [reflexivity|]. split.
  - change (Text.split "hello world") with ["hello"; "world"].
    apply Forall_cons. split; [|apply Forall_cons; split; [|constructor]].
    + left. exists "Hello". split; [reflexivity|].
      apply TextFacts.containsb_spec. reflexivity.
    + right. exists "big WORLD". split; [reflexivity|].
      apply TextFacts.containsb_spec. reflexivity.
  - unfold passes_filters. split; [by intros c [=]|].
    split; [by intros ids t [=]|by intros [=]].
Defined.

(** ** Tags: get-or-create *)

Lemma tag_by_name_Some (db : Database) (name i : string) :
  tag_by_name db name = Some i →
  ∃ t, tags db !! i = Some t ∧ tag_name t = name.
Proof.
  unfold tag_by_name.
  destruct (filter _ (map_to_list (tags db))) as [|[j t] l] eqn:Hf; [done|].
  simpl. intros [= <-].
  assert ((j, t) ∈ filter (λ t : string * Tag, tag_name t.2 = name)
                     (map_to_list (tags db))) as Hin by (rewrite Hf; by left).
  apply list_elem_of_filter in Hin as [Hn Hin]. apply elem_of_map_to_list in Hin.
  by exists t.
Qed.

Lemma tag_by_name_None (db : Database) (name : string) :
  tag_by_name db name = None →
  ∀ i t, tags db !! i = Some t → tag_name t ≠ name.
Proof.
  unfold tag_by_name.
  destruct (filter _ (map_to_list (tags db))) as [|[j t'] l] eqn:Hf; [|done].
  intros _ i t Hi Hn.
  assert ((i, t) ∈ filter (λ t : string * Tag, tag_name t.2 = name)
                     (map_to_list (tags db))) as Hin.
  { apply list_elem_of_filter. split; [done|]. by apply elem_of_map_to_list. }
  rewrite Hf in Hin. by apply elem_of_nil in Hin.
Qed.

Lemma tag_by_name_unique (db : Database) (name i : string) (t : Tag) :
  unique_tag_names db → tags db !! i = Some t → tag_name t = name →
  tag_by_name db name = Some i.
Proof.
  intros Hu Hi Hn. destruct (tag_by_name db name) as [j|] eqn:Hj.
  - apply tag_by_name_Some in Hj as (t' & Hj & Hn').
    f_equal. apply (Hu j i t' t Hj Hi). congruence.
  - by destruct (tag_by_name_None db name Hj i t Hi).
Qed.

Lemma unique_tag_names_insert (db : Database) (fresh name : string)
    (color : option string) (now : instant) :
  unique_tag_names db → tag_by_name db name = None →
  ∀ i j t1 t2,
    <[fresh := mkTag name color now]> (tags db) !! i = Some t1 →
    <[fresh := mkTag name color now]> (tags db) !! j = Some t2 →
    tag_name t1 = tag_name t2 → i = j.
Proof.
  intros Hu Hnone i j t1 t2 Hi Hj Hn.
  apply lookup_insert_Some in Hi as [[<- <-]|[Hi1 Hi]];
    apply lookup_insert_Some in Hj as [[<- <-]|[Hj1 Hj]]; try done.
  - simpl in Hn. by destruct (tag_by_name_None db name Hnone j t2 Hj).
  - simpl in Hn. by destruct (tag_by_name_None db name Hnone i t1 Hi).
  - by apply (Hu i j t1 t2).
Qed.

(** X2.  [Tag.get_or_create], on a table with unique names: when it
    returns, the id it returns is that of a tag with the given name, no
    tag that was there has changed, the names are still unique, notes and
    associations are untouched, and asking again for the same name
    returns the same id and changes nothing.  It raises only when the
    name is new and the key drawn for it is taken, and then the database
    is as before. *)
Theorem get_or_create_gets_or_creates (now now' : instant)
    (fresh fresh' name : string) (db : Database) :
  unique_tag_names db →
  (∃ tag_id db1 t,
     get_or_create now fresh name db = (Return tag_id, db1) ∧
     tags db1 !! tag_id = Some t ∧ tag_name t = name ∧
     unique_tag_names db1 ∧
     (∀ j t', tags db !! j = Some t' → tags db1 !! j = Some t') ∧
     notes db1 = notes db ∧ note_tag db1 = note_tag db ∧
     categories db1 = categories db ∧
     get_or_create now' fresh' name db1 = (Return tag_id, db1)) ∨
  (get_or_create now fresh name db = (Raise IntegrityError, db) ∧
   tag_by_name db name = None ∧ is_Some (tags db !! fresh)).
Proof.
  intros Hu. unfold get_or_create at 1 3.
  destruct (tag_by_name db name) as [i|] eqn:Hname.
  - left. destruct (tag_by_name_Some db name i Hname) as (t & Hi & Hn).
    exists i, db, t. repeat split; try done.
    unfold get_or_create. by rewrite Hname.
  - destruct (tags db !! fresh) as [t|] eqn:Hfresh; [right; eauto|].
    left. eexists fresh, _, (mkTag name None now).
    split; [reflexivity|]. cbn [tags notes note_tag categories].
    rewrite lookup_insert_eq.
    assert (unique_tag_names
              {| notes := notes db;
                 tags := <[fresh := mkTag name None now]> (tags db);
                 categories := categories db;
                 note_tag := note_tag db |}) as Hu'.
    { unfold unique_tag_names. cbn [tags].
      by apply unique_tag_names_insert. }
    repeat split; try done.
    + intros j t' Hj. rewrite lookup_insert_ne; [done|]. congruence.
    + unfold get_or_create.
      rewrite (tag_by_name_unique _ name fresh (mkTag name None now) Hu');
        [done| |done].
      cbn [tags]. by rewrite lookup_insert_eq.
Qed.

Lemma db_AB_unique_tag_names : unique_tag_names db_AB.
Proof.
  intros i j t1 t2 Hi Hj _. cbn [tags db_AB] in Hi, Hj.
  apply lookup_insert_Some in Hi as [[<- _]|[_ Hi]];
    [|by rewrite lookup_empty in Hi].
  apply lookup_insert_Some in Hj as [[<- _]|[_ Hj]];
    [done|by rewrite lookup_empty in Hj].
Qed.

Lemma get_or_create_witness :
  unique_tag_names db_AB ∧
  get_or_create 5 "u1" "work" db_AB = (Return "t", db_AB) ∧
  ∃ db1, get_or_create 5 "u1" "home" db_AB = (Return "u1", db1)
         ∧ get_or_create 6 "u2" "home" db1 = (Return "u1", db1).
Proof.
  split; [exact db_AB_unique_tag_names|]. split; [reflexivity|].
  destruct (get_or_create_gets_or_creates 5 6 "u1" "u2" "home" db_AB
              db_AB_unique_tag_names)
    as [(i & db1 & t & H1 & _ & _ & _ & _ & _ & _ & _ & H2)|[H _]].
  - exists db1. assert (i = "u1") as ->.
    { assert (get_or_create 5 "u1" "home" db_AB = (Return "u1", (get_or_create 5 "u1" "home" db_AB).2))
        as H by reflexivity.
      rewrite H1 in H. by injection H. }
    by split.
  - exfalso. clear -H. assert ((get_or_create 5 "u1" "home" db_AB).1 = Return "u1")
      as H' by reflexivity. rewrite H in H'. discriminate.
Defined.

(** ** Deleting a note *)

(** X3.  Deleting a stored note removes its row and every association
    of it with a tag, and nothing else: the other notes, their
    associations, the tags and the categories stay, the note is no longer
    found by id, and the foreign keys of [note_tag] still hold. *)
Theorem delete_by_id_cascades (note_id : string) (db : Database) :
  is_Some (notes db !! note_id) →
  referential_integrity db →
  ∃ db1,
    delete_by_id note_id db = (Return true, db1) ∧
    get_by_id note_id true true db1 = None ∧
    (∀ tag_id, (note_id, tag_id) ∉ note_tag db1) ∧
    (∀ other, other ≠ note_id →
       notes db1 !! other = notes db !! other ∧
       ∀ tag_id, (other, tag_id) ∈ note_tag db1 ↔ (other, tag_id) ∈ note_tag db) ∧
    tags db1 = tags db ∧ categories db1 = categories db ∧
    referential_integrity db1.
Proof.
  intros [n Hn] Hri. exists (delete_row note_id db).
  unfold delete_by_id, get_by_id. rewrite Hn. cbn [delete_row notes note_tag tags categories].
  rewrite lookup_delete_eq. repeat split; try done.
  - intros tag_id [Hne _]%elem_of_filter. by apply Hne.
  - by rewrite lookup_delete_ne.
  - by intros [_ ?]%elem_of_filter.
  - intros Hin. by apply elem_of_filter.
  - cbn [delete_row notes note_tag tags categories] in *.
    apply elem_of_filter in H as [Hne Hin]. simpl in Hne.
    destruct (Hri _ _ Hin) as [Hd _]. apply elem_of_dom.
    rewrite lookup_delete_ne by done. by apply elem_of_dom.
  - cbn [delete_row notes note_tag tags categories] in *.
    apply elem_of_filter in H as [_ Hin]. by destruct (Hri _ _ Hin).
Qed.

Lemma db_AB_integrity : referential_integrity db_AB.
Proof.
  intros note_id tag_id Hin. cbn [note_tag db_AB] in Hin.
  apply elem_of_singleton in Hin. injection Hin as -> ->.
  split; apply elem_of_dom; eexists; reflexivity.
Qed.

Lemma delete_by_id_cascades_witness :
  is_Some (notes db_AB !! "a") ∧ referential_integrity db_AB ∧
  ∀ tag_id, ("a", tag_id) ∉ note_tag (delete_by_id "a" db_AB).2.
Proof.
  assert (is_Some (notes db_AB !! "a")) as Ha by (eexists; reflexivity).
  split; [exact Ha|]. split; [exact db_AB_integrity|].
  destruct (delete_by_id_cascades "a" db_AB Ha db_AB_integrity)
    as (db1 & H1 & _ & H2 & _).
  rewrite H1. exact H2.
Defined.

(** ** Pinning *)

(** X4.  [toggle_pin] for a stored note.  On an object that a method
    of the model returned it raises [DetachedInstanceError] when it
    reads [self.id], and changes nothing.  On an object that the caller
    built with the id of the note it negates the stored flag (not the
    flag of the caller's object), returns the new flag and writes it to
    the caller's object, sets the modified timestamp to the current
    time, and leaves every other column, every other note and the other
    tables as they are; toggling again gives the flag back. *)
Theorem toggle_pin_flips (now now' : instant) (self : object)
    (db : Database) (stored : Note) :
  notes db !! key_of self = Some stored →
  match self with
  | Detached _ =>
      toggle_pin now self db = (Raise DetachedInstanceError, self, db)
  | Built id columns =>
      ∃ row columns' db1,
        toggle_pin now self db
          = (Return (negb (is_pinned stored)), Built id columns', db1) ∧
        is_pinned columns' = negb (is_pinned stored) ∧
        notes db1 !! id = Some row ∧
        is_pinned row = negb (is_pinned stored) ∧ modified_date row = now ∧
        same_but_pin_and_modified row stored ∧
        (∀ other, other ≠ id → notes db1 !! other = notes db !! other) ∧
        tags db1 = tags db ∧ categories db1 = categories db ∧
        note_tag db1 = note_tag db ∧
        (toggle_pin now' (Built id columns') db1).1.1
        = Return (is_pinned stored)
  end.
Proof.
  intros Hs. destruct self as [id columns|key]; [|reflexivity].
  cbn [key_of] in Hs. unfold toggle_pin at 1. rewrite Hs.
  set (flipped := mkNote _ _ _ _ _ _ (negb (is_pinned stored)) _).
  assert (flipped ≠ stored) as Hne.
  { intros Heq. apply (f_equal is_pinned) in Heq. simpl in Heq.
    by destruct (is_pinned stored). }
  assert (flush_row now stored flipped
          = mkNote (title stored) (content stored) (plain_content stored)
              (created_date stored) now (color stored)
              (negb (is_pinned stored)) (category_id stored)) as Hrow.
  { unfold flush_row. by rewrite decide_False. }
  rewrite Hrow. cbn [is_pinned].
  eexists _, _, _. split; [reflexivity|].
  cbn [fst snd is_pinned with_notes notes tags categories note_tag].
  rewrite lookup_insert_eq.
  repeat split; try done.
  - intros other Hne'. by rewrite lookup_insert_ne.
  - unfold toggle_pin. cbn [fst snd with_notes notes].
    rewrite lookup_insert_eq. unfold flush_row.
    case_decide as Heq; cbn [is_pinned].
    + apply (f_equal is_pinned) in Heq. simpl in Heq.
      by destruct (is_pinned stored).
    + by rewrite negb_involutive.
Qed.

Lemma toggle_pin_flips_witness :
  notes db_AB !! "a" = Some note_A ∧
  (toggle_pin 9 (Built "a" note_B) db_AB).1.1 = Return true ∧
  (toggle_pin 9 (returned ("a", note_A)) db_AB).1.1
  = Raise DetachedInstanceError.
Proof.
  split; [reflexivity|]. split.
  - destruct (toggle_pin_flips 9 10 (Built "a" note_B) db_AB note_A eq_refl)
      as (row & columns' & db1 & H & _).
    rewrite H. reflexivity.
  - rewrite (toggle_pin_flips 9 10 (returned ("a", note_A)) db_AB note_A
               eq_refl).
    reflexivity.
Defined.

(** ** [update] as a sparse patch *)

Lemma with_notes_same (db : Database) : with_notes db (notes db) = db.
Proof. by destruct db. Qed.

(** X5.  [update] for a stored note, with no tag names and no
    category but an existing one.  On an object that a method of the
    model returned it raises [DetachedInstanceError] when it reads
    [self.id], and changes nothing.  On an object that the caller built
    with the id of the note it returns normally.  It never changes the
    created timestamp; it cannot put NULL into a column; the modified
    timestamp becomes the current time exactly when some column gets a
    value other than the stored one, and a call after which every
    column has its stored value (no argument, or the stored values
    again) leaves the whole database as it was. *)
Theorem update_is_sparse (now : instant) (uuid4 : nat → string)
    (self : object) (kw : update_kwargs) (db : Database) (old : Note) :
  notes db !! key_of self = Some old →
  no_tag_names kw →
  foreign_key_ok (kw_category_id kw) db = true →
  match self with
  | Detached _ =>
      update now uuid4 self kw db = (Raise DetachedInstanceError, db)
  | Built id _ =>
      ∃ row,
        update now uuid4 self kw db
          = (Return (Detached id), with_notes db (<[id := row]> (notes db))) ∧
        created_date row = created_date old ∧
        modified_date row
          = (if decide (assign kw old = old) then modified_date old else now) ∧
        (is_Some (title old) → is_Some (title row)) ∧
        (is_Some (content old) → is_Some (content row)) ∧
        (is_Some (plain_content old) → is_Some (plain_content row)) ∧
        (is_Some (color old) → is_Some (color row)) ∧
        (is_Some (category_id old) → is_Some (category_id row)) ∧
        (assign kw old = old →
         with_notes db (<[id := row]> (notes db)) = db)
  end.
Proof.
  intros Hold Htags Hfk. destruct self as [id columns|key]; [|reflexivity].
  cbn [key_of] in Hold. unfold update. rewrite Hold.
  unfold no_tag_names in Htags. rewrite Htags. cbn zeta. rewrite Hfk.
  exists (flush_row now old (assign kw old)). split; [done|].
  destruct (flush_row_columns now old (assign kw old))
    as (Ht & Hc & Hp & Hcr & Hco & Hpi & Hca).
  rewrite Ht, Hc, Hp, Hcr, Hco, Hca.
  rewrite flush_row_modified by done.
  split; [done|]. split; [done|].
  unfold assign. cbn [title content plain_content color category_id].
  unfold set_nullable.
  repeat split.
  - intros [? ?]. by destruct (kw_title kw).
  - intros [? ?]. by destruct (kw_content kw).
  - intros [? ?]. by destruct (kw_plain_content kw).
  - intros [? ?]. by destruct (kw_color kw).
  - intros [? ?]. by destruct (kw_category_id kw).
  - intros Heq. fold (assign kw old) in Heq |- *. unfold flush_row.
    rewrite decide_True by done.
    rewrite insert_id by done. apply with_notes_same.
Qed.

Lemma update_is_sparse_witness :
  notes db_AB !! "a" = Some note_A ∧
  update 7 (λ _, "") (Built "a" note_B)
    (mkUpdate None None None None None None None) db_AB
  = (Return (Detached "a"), db_AB) ∧
  update 7 (λ _, "") (returned ("a", note_A))
    (mkUpdate None None None None None None None) db_AB
  = (Raise DetachedInstanceError, db_AB).
Proof.
  split; [reflexivity|]. split.
  - destruct (update_is_sparse 7 (λ _, "") (Built "a" note_B)
                (mkUpdate None None None None None None None) db_AB note_A
                eq_refl eq_refl eq_refl)
      as (row & -> & _ & _ & _ & _ & _ & _ & _ & Hsame).
    f_equal. by apply Hsame.
  - exact (update_is_sparse 7 (λ _, "") (returned ("a", note_A))
             (mkUpdate None None None None None None None) db_AB note_A
             eq_refl eq_refl eq_refl).
Defined.

(** X6.  An update for a stored note that passes a category which does
    not exist (and no tag names) raises and leaves the database as
    before: [DetachedInstanceError] on an object that a method of the
    model returned, [IntegrityError] on an object that the caller built
    with the id of the note. *)
Theorem update_unknown_category_raises (now : instant) (uuid4 : nat → string)
    (self : object) (c : string) (kw : update_kwargs) (db : Database) :
  is_Some (notes db !! key_of self) →
  no_tag_names kw →
  kw_category_id kw = Some c → c ∉ dom (categories db) →
  update now uuid4 self kw db
  = (Raise (match self with
            | Detached _ => DetachedInstanceError
            | Built _ _ => IntegrityError
            end), db).
Proof.
  intros [old Hold] Htags Hc Hdom.
  destruct self as [id columns|key]; [|reflexivity].
  cbn [key_of] in Hold. unfold update. rewrite Hold.
  unfold no_tag_names in Htags. rewrite Htags. cbn zeta.
  rewrite Hc. cbn [foreign_key_ok]. by rewrite bool_decide_eq_false_2.
Qed.

Lemma update_unknown_category_witness :
  is_Some (notes db_AB !! "a") ∧
  update 7 (λ _, "") (Built "a" note_A)
    (mkUpdate None None None None None (Some "nowhere") None) db_AB
  = (Raise IntegrityError, db_AB).
Proof.
  assert (is_Some (notes db_AB !! "a")) as Ha by (eexists; reflexivity).
  split; [exact Ha|].
  apply (update_unknown_category_raises 7 (λ _, "") (Built "a" note_A)
           "nowhere"
           (mkUpdate None None None None None (Some "nowhere") None) db_AB Ha
           eq_refl eq_refl).
  cbn [categories db_AB]. rewrite dom_empty_L. apply not_elem_of_empty.
Defined.

(** With tag names, on an object that the caller built with the id of a
    stored note: the columns are written and the tags of the note are
    cleared, the first name is looked up or inserted, and the call
    raises [DetachedInstanceError] where it appends that tag; no tag is
    associated with the note. *)
Lemma update_tag_names_raises (now : instant) (uuid4 : nat → string)
    (id : string) (columns : Note) (kw : update_kwargs) (db : Database)
    (old : Note) (name : string) (rest : list string) :
  notes db !! id = Some old →
  kw_tag_names kw = Some (name :: rest) →
  foreign_key_ok (kw_category_id kw) db = true →
  tags db !! uuid4 0%nat = None →
  let out := update now uuid4 (Built id columns) kw db in
  out.1 = Raise DetachedInstanceError ∧
  notes out.2 !! id = Some (flush_row now old (assign kw old)) ∧
  (∀ tag_id, (id, tag_id) ∉ note_tag out.2) ∧
  (∃ tag_id t, tags out.2 !! tag_id = Some t ∧ tag_name t = name).
Proof.
  intros Hold Hnames Hfk Hfresh. cbv zeta. unfold update.
  rewrite Hold, Hnames, Hfk. unfold get_or_create.
  set (db1 := mkDatabase _ _ _ _).
  assert (tags db1 = tags db) as Htags by reflexivity.
  destruct (tag_by_name db1 name) as [tag_id|] eqn:Hby.
  - cbn [fst snd]. split; [done|]. split.
    { subst db1. cbn [notes]. by rewrite lookup_insert_eq. }
    split.
    { intros tag_id' Hin. subst db1. cbn [note_tag] in Hin.
      unfold clear_tags in Hin. apply elem_of_filter in Hin as [Hne _].
      by apply Hne. }
    unfold tag_by_name in Hby.
    destruct (head (filter (λ t : string * Tag, tag_name t.2 = name)
                      (map_to_list (tags db1)))) as [[i t]|] eqn:Hhead;
      [|done].
    apply head_Some_elem_of in Hhead.
    apply list_elem_of_filter in Hhead as [Hname Hin].
    apply elem_of_map_to_list in Hin. by exists i, t.
  - rewrite Htags, Hfresh. cbn [fst snd notes note_tag tags]. split; [done|].
    split.
    { subst db1. cbn [notes]. by rewrite lookup_insert_eq. }
    split.
    { intros tag_id' Hin. subst db1. cbn [note_tag] in Hin.
      unfold clear_tags in Hin. apply elem_of_filter in Hin as [Hne _].
      by apply Hne. }
    exists (uuid4 0%nat), (mkTag name None now).
    by rewrite lookup_insert_eq.
Qed.

(** ** The other queries *)

Global Instance newer_total : Total newer.
Proof. intros x y. unfold newer. lia. Qed.

Global Instance newer_trans : Transitive newer.
Proof. intros x y z. unfold newer. lia. Qed.

(** X7.  [get_recent] returns stored notes, each at most once, newest
    first whatever their pinned flags; with a limit that is not negative
    it returns that many notes, or all of them if they are fewer, and
    every note it leaves out is no newer than any note it returns; with
    a negative limit it returns all notes. *)
Theorem get_recent_newest (limit : Z) (include_tags include_category : bool)
    (db : Database) :
  let l := get_recent limit include_tags include_category db in
  ((0 ≤ limit)%Z → length l = Nat.min (Z.to_nat limit) (size (notes db))) ∧
  ((limit < 0)%Z → l ≡ₚ map_to_list (notes db)) ∧
  NoDup l ∧
  (∀ r, r ∈ l → notes db !! r.1 = Some r.2) ∧
  (∀ i j x y, (i < j)%nat → l !! i = Some x → l !! j = Some y →
     (modified_date y.2 ≤ modified_date x.2)%Z) ∧
  (∀ x y, x ∈ l → notes db !! y.1 = Some y.2 → y ∉ l →
     (modified_date y.2 ≤ modified_date x.2)%Z).
Proof.
  cbn zeta. unfold get_recent.
  set (sorted := merge_sort newer (map_to_list (notes db))).
  assert (sorted ≡ₚ map_to_list (notes db)) as Hperm
    by apply merge_sort_Permutation.
  assert (NoDup sorted) as Hnd by (rewrite Hperm; apply NoDup_map_to_list).
  assert (StronglySorted newer sorted) as Hss
    by (apply StronglySorted_merge_sort; apply _).
  assert (∀ r, r ∈ sorted ↔ notes db !! r.1 = Some r.2) as Hin.
  { intros [i n]. rewrite Hperm. apply elem_of_map_to_list. }
  unfold limit_. destruct (limit <? 0)%Z eqn:Hneg.
  - apply Z.ltb_lt in Hneg. split; [lia|]. split; [done|]. split; [done|].
    split; [intros r; apply Hin|]. split.
    + intros i j x y Hij Hi Hj.
      exact (StronglySorted_lookup newer sorted i j x y Hss Hij Hi Hj).
    + intros x y _ Hy Hny. by apply Hin in Hy.
  - apply Z.ltb_ge in Hneg. split.
    { intros _. rewrite length_take. f_equal.
      rewrite <- length_map_to_list. by rewrite Hperm. }
    split; [lia|].
    rewrite <- (take_drop (Z.to_nat limit) sorted) in Hnd, Hss, Hin.
    apply NoDup_app in Hnd as (Hnd & _ & _).
    apply StronglySorted_app in Hss as (Hcross & Hss & _).
    split; [done|]. split.
    { intros r Hr. apply Hin, elem_of_app. by left. }
    split.
    + intros i j x y Hij Hi Hj.
      exact (StronglySorted_lookup newer _ i j x y Hss Hij Hi Hj).
    + intros x y Hx Hy Hny. apply Hcross; [done|].
      apply Hin, elem_of_app in Hy as [?|?]; done.
Qed.

(** What [count_by_category] holds under the key of one group of
    notes, when no note has the empty string or the sentinel as its
    category. *)
Lemma count_by_category_lookup (db : Database) (g0 : option string) :
  sentinel_unused db → g0 ≠ Some "" → g0 ≠ Some "uncategorized" →
  count_by_category db !! category_key g0
  = if decide (filter (λ r : instance, category_id r.2 = g0)
                 (map_to_list (notes db)) = []) then None
    else Some (length (filter (λ r : instance, category_id r.2 = g0)
                         (map_to_list (notes db)))).
Proof.
  intros Hsent Hg1 Hg2. apply lookup_counted. intros n.
  unfold count_by_category.
  set (keys := (λ r : instance, category_id r.2) <$> map_to_list (notes db)).
  assert (∀ g, g ∈ keys → g ≠ Some "" ∧ g ≠ Some "uncategorized") as Hok.
  { intros g ([i x] & -> & Hin)%list_elem_of_fmap. simpl.
    apply elem_of_map_to_list in Hin. exact (Hsent i x Hin). }
  assert (∀ g1 g2, g1 ≠ Some "" → g1 ≠ Some "uncategorized" →
            g2 ≠ Some "" → g2 ≠ Some "uncategorized" →
            category_key g1 = category_key g2 → g1 = g2) as Hinj.
  { intros [[|a1 c1]|] [[|a2 c2]|] ? ? ? ? Heq; simpl in Heq;
      try done; congruence. }
  rewrite dict_of_lookup.
  - rewrite list_elem_of_fmap. split.
    + intros ([g m] & [= Hg ->] & Hin). simpl in *.
      apply elem_of_group_count in Hin as [Hin ->].
      destruct (Hok g Hin) as [? ?].
      apply Hinj in Hg as ->; try done.
      subst keys. split; [|by apply filter_fmap_length].
      apply filter_length_nonempty.
      apply list_elem_of_fmap in Hin as (r & Hr & Hin). by exists r.
    + intros [Hne ->].
      exists (g0, length (filter (λ r : instance, category_id r.2 = g0)
                            (map_to_list (notes db)))).
      split; [done|]. apply elem_of_group_count.
      apply filter_length_nonempty in Hne as (r & Hin & Hr).
      split; [apply list_elem_of_fmap; by exists r|].
      subst keys. symmetry. by apply filter_fmap_length.
  - rewrite <- list_fmap_compose.
    apply NoDup_fmap_2_strong.
    + intros [g1 m1] [g2 m2] [H1 ->]%elem_of_group_count
        [H2 ->]%elem_of_group_count Heq. simpl in Heq.
      destruct (Hok g1 H1), (Hok g2 H2).
      by rewrite (Hinj g1 g2) by done.
    + apply (NoDup_fmap_1 fst). rewrite group_count_keys.
      apply NoDup_remove_dups.
Qed.

Lemma counted_length {A B} (l1 : list A) (l2 : list B) :
  length l1 = length l2 →
  (if decide (l1 = []) then None else Some (length l1))
  = (if decide (l2 = []) then None else Some (length l2)).
Proof.
  intros Hlen. destruct l1, l2; try done. simpl in *.
  repeat case_decide; try done. by rewrite Hlen.
Qed.

(** X8.  The counters agree with the queries: while the foreign keys of
    [note_tag] hold, the entry of [count_by_tag] for a tag is the number
    of notes that [get_by_tag] returns for it, and the entry of
    [count_by_category] for a category id (not empty, not the sentinel
    [uncategorized], neither of which is a category id in use) is the
    number of notes that [get_by_category] returns; an empty result has
    no entry. *)
Theorem counts_agree_with_queries (db : Database) (c tag_id : string)
    (include_tags include_category : bool) :
  referential_integrity db → sentinel_unused db →
  c ≠ "" → c ≠ "uncategorized" →
  count_by_tag db !! tag_id
  = (if decide (get_by_tag tag_id include_category db = []) then None
     else Some (length (get_by_tag tag_id include_category db))) ∧
  count_by_category db !! c
  = (if decide (get_by_category c include_tags db = []) then None
     else Some (length (get_by_category c include_tags db))).
Proof.
  intros Hri Hsent Hc1 Hc2. split.
  - rewrite count_by_tag_lookup by done. apply counted_length.
    unfold get_by_tag. rewrite merge_sort_Permutation.
    unfold notes_with_tag, where_. f_equal. apply list_filter_iff.
    intros r. unfold has_tag. split.
    + intros Hin. f_equal. apply bool_decide_eq_true. split; [done|].
      by destruct (Hri _ _ Hin).
    + intros [= [? _]%bool_decide_eq_true]. done.
  - assert (category_key (Some c) = c) as Hk.
    { destruct c; [done|reflexivity]. }
    rewrite <- Hk at 1.
    rewrite count_by_category_lookup by (done || congruence).
    apply counted_length.
    unfold get_by_category. rewrite merge_sort_Permutation.
    unfold where_. f_equal. apply list_filter_iff.
    intros r. unfold sql_eq. destruct (category_id r.2) as [c'|]; simpl.
    + split; [intros [= ->]; f_equal; by apply bool_decide_eq_true|].
      intros [= ->%bool_decide_eq_true]. done.
    + done.
Qed.

Lemma counts_agree_with_queries_witness :
  referential_integrity db_AB ∧ sentinel_unused db_AB ∧
  count_by_tag db_AB !! "t" = Some (length (get_by_tag "t" true db_AB)) ∧
  count_by_category db_AB !! "work" = None.
Proof.
  assert (sentinel_unused db_AB) as Hs.
  { intros note_id n Hn. cbn [notes db_AB] in Hn.
    apply lookup_insert_Some in Hn as [[_ <-]|[_ Hn]]; [done|].
    apply lookup_insert_Some in Hn as [[_ <-]|[_ Hn]]; [done|].
    by rewrite lookup_empty in Hn. }
  split; [exact db_AB_integrity|]. split; [exact Hs|].
  destruct (counts_agree_with_queries db_AB "work" "t" true true
              db_AB_integrity Hs ltac:(done) ltac:(done)) as [-> ->].
  clear. vm_compute. split; reflexivity.
Defined.

(** [ORDER BY name] is a total preorder. *)
#[local] Instance by_name_total : Total by_name.
Proof.
  intros x y. unfold by_name.
  destruct (String.le_total (tag_name x.2) (tag_name y.2)); auto.
Qed.

#[local] Instance by_name_trans : Transitive by_name.
Proof. intros x y z. unfold by_name. apply transitivity. Qed.

(** X10.  [Tag.create] on a table with unique names: with a name that
    no tag has (and a fresh key) it inserts one row, which
    [Tag.get_by_name] then finds, leaves every other row alone and keeps
    the names unique; with a name that is taken it raises and inserts
    nothing. *)
Theorem Tag_create_inserts_or_raises (now : instant) (fresh name : string)
    (color : option string) (db : Database) :
  unique_tag_names db →
  (tag_by_name db name = None → tags db !! fresh = None →
   ∃ db1, Tag_create now fresh name color db = (Return fresh, db1) ∧
     tags db1 !! fresh = Some (mkTag name color now) ∧
     tag_by_name db1 name = Some fresh ∧
     (∀ j, j ≠ fresh → tags db1 !! j = tags db !! j) ∧
     notes db1 = notes db ∧ note_tag db1 = note_tag db ∧
     unique_tag_names db1) ∧
  (is_Some (tag_by_name db name) →
   Tag_create now fresh name color db = (Raise IntegrityError, db)).
Proof.
  intros Huniq. split.
  - intros Hname Hfresh. unfold Tag_create. rewrite Hname, Hfresh.
    eexists. split; [reflexivity|]. cbn [tags notes note_tag].
    assert (unique_tag_names
              {| notes := notes db;
                 tags := <[fresh := mkTag name color now]> (tags db);
                 categories := categories db; note_tag := note_tag db |}) as Hu.
    { exact (unique_tag_names_insert db fresh name color now Huniq Hname). }
    split; [by rewrite lookup_insert_eq|]. split.
    { apply (tag_by_name_unique _ _ _ (mkTag name color now)); [done| |done].
      cbn [tags]. by rewrite lookup_insert_eq. }
    split; [by intros j Hj; rewrite lookup_insert_ne|]. done.
  - intros [i Hi]. unfold Tag_create. by rewrite Hi.
Qed.

Lemma Tag_create_witness :
  unique_tag_names db_AB ∧ tag_by_name db_AB "home" = None ∧
  tags db_AB !! "x" = None ∧ is_Some (tag_by_name db_AB "work") ∧
  (Tag_create 5 "x" "home" None db_AB).1 = Return "x" ∧
  Tag_create 5 "y" "work" None db_AB = (Raise IntegrityError, db_AB).
Proof.
  destruct (Tag_create_inserts_or_raises 5 "x" "home" None db_AB
              db_AB_unique_tag_names) as [Hnew _].
  destruct (Tag_create_inserts_or_raises 5 "y" "work" None db_AB
              db_AB_unique_tag_names) as [_ Hold].
  assert (tag_by_name db_AB "home" = None) as H1 by (by vm_compute).
  assert (tags db_AB !! "x" = None) as H2 by (by vm_compute).
  assert (is_Some (tag_by_name db_AB "work")) as H3.
  { exists "t". by vm_compute. }
  destruct (Hnew H1 H2) as (db1 & -> & _).
  rewrite (Hold H3).
  split; [exact db_AB_unique_tag_names|]. split; [exact H1|].
  split; [exact H2|]. split; [exact H3|]. split; reflexivity.
Defined.

(** X11.  [Tag.get_all] returns every tag once, in the order of the
    names; while the names are unique, no two entries have the same
    name. *)
Theorem Tag_get_all_by_name (db : Database) :
  Tag_get_all db ≡ₚ map_to_list (tags db) ∧
  NoDup (Tag_get_all db) ∧
  (∀ i j x y, (i < j)%nat →
     Tag_get_all db !! i = Some x → Tag_get_all db !! j = Some y →
     String.le (tag_name x.2) (tag_name y.2) ∧
     (unique_tag_names db → tag_name x.2 ≠ tag_name y.2)).
Proof.
  unfold Tag_get_all.
  pose proof (merge_sort_Permutation by_name (map_to_list (tags db))) as Hp.
  assert (NoDup (merge_sort by_name (map_to_list (tags db)))) as Hnd.
  { rewrite Hp. apply NoDup_map_to_list. }
  split; [done|]. split; [done|].
  intros i j x y Hij Hi Hj. split.
  - pose proof (StronglySorted_merge_sort by_name (map_to_list (tags db)))
      as Hss.
    exact (StronglySorted_lookup by_name _ i j x y Hss Hij Hi Hj).
  - intros Huniq Heq.
    assert (x ∈ map_to_list (tags db)) as Hx.
    { rewrite <- Hp. by eapply list_elem_of_lookup_2. }
    assert (y ∈ map_to_list (tags db)) as Hy.
    { rewrite <- Hp. by eapply list_elem_of_lookup_2. }
    destruct x as [kx tx], y as [ky ty]. simpl in Heq.
    apply elem_of_map_to_list in Hx, Hy.
    pose proof (Huniq kx ky tx ty Hx Hy Heq) as ->.
    assert (tx = ty) as -> by congruence.
    assert (i = j); [|lia].
    by eapply NoDup_lookup.
Qed.

(** X9.  A search with a text that has at least one word never returns
    a note whose title and plain content are both NULL, not even for the
    word [%], which matches every text. *)
Theorem search_skips_notes_without_text (query_text : string)
    (category_id : option string) (tag_ids : option (list string))
    (pinned_only include_tags include_category : bool) (db : Database)
    (r : instance) :
  Text.split query_text ≠ [] →
  title r.2 = None → plain_content r.2 = None →
  r ∉ search query_text category_id tag_ids pinned_only
        include_tags include_category db.
Proof.
  intros Hwords Ht Hp Hin. unfold search in Hin. cbv zeta in Hin.
  rewrite merge_sort_Permutation in Hin.
  assert (∀ q, r ∈ filter_pinned pinned_only q → r ∈ q) as H4.
  { intros q. unfold filter_pinned. destruct pinned_only; [|done].
    by intros [_ ?]%elem_of_where_. }
  assert (∀ q, r ∈ filter_tags db tag_ids q → r ∈ q) as H3.
  { intros q. unfold filter_tags. destruct tag_ids as [ids|]; [|done].
    by intros [? _]%elem_of_foldl_where_. }
  assert (∀ q, r ∈ filter_category category_id q → r ∈ q) as H2.
  { intros q. unfold filter_category. destruct category_id as [c|]; [|done].
    destruct (truthy c); [|done]. by intros [_ ?]%elem_of_where_. }
  apply H4, H3, H2 in Hin. unfold filter_text in Hin.
  destruct query_text as [|a q]; [done|]. cbn [truthy] in Hin.
  apply elem_of_where_ in Hin as [Hall _].
  apply sql_all_true in Hall. unfold search_terms in Hall.
  destruct (Text.split (String a q)) as [|w ws]; [done|].
  rewrite !fmap_cons in Hall. apply Forall_cons in Hall as [Hw _].
  unfold search_condition in Hw. by rewrite Ht, Hp in Hw.
Qed.

Lemma search_skips_notes_without_text_witness :
  Text.split "%" ≠ [] ∧
  ("x", mkNote None (Some "body") None 0 0 None false None)
  ∉ search "%" None None false true true
      (mkDatabase {[ "x" := mkNote None (Some "body") None 0 0 None false None ]}
         ∅ ∅ ∅).
Proof.
  split; [done|].
  by apply (search_skips_notes_without_text "%" None None false true true
              _ ("x", mkNote None (Some "body") None 0 0 None false None)).
Defined.


Lemma get_recent_witness :
  (0 ≤ 1)%Z ∧ length (get_recent 1 true true db_AB) = 1%nat.
Proof.
  assert (0 ≤ 1)%Z as H by lia. split; [exact H|].
  pose proof (get_recent_newest 1 true true db_AB) as Hrecent.
  cbv zeta in Hrecent. destruct Hrecent as [Hlen _].
  rewrite (Hlen H). clear. by vm_compute.
Defined.

Lemma Tag_get_all_witness :
  unique_tag_names db_AB ∧ length (Tag_get_all db_AB) = 1%nat.
Proof.
  split; [exact db_AB_unique_tag_names|].
  pose proof (proj1 (Tag_get_all_by_name db_AB)) as Hperm.
  apply Permutation_length in Hperm. rewrite Hperm. clear. by vm_compute.
Defined.


(** ** Creating a note; removing a tag; a new category *)

(** X24.  [Note.create] without tag names, with a key that is free:
    when the category is absent or exists, it inserts one row with the
    given columns, not pinned, which [get_by_id] then finds and
    [get_all] lists beside the notes there were; the other notes and
    all associations stay, and the new note has no tag.  When the
    category does not exist it raises [IntegrityError] and the database
    is as before. *)
Theorem Note_create_inserts (created modified : instant) (fresh : string)
    (uuid4 : nat → string)
    (title content plain_content color category_id : option string)
    (tag_names : option (list string)) (db : Database) :
  tags_truthy tag_names = false → notes db !! fresh = None →
  let row := mkNote title content plain_content created modified color false
               category_id in
  let db1 := with_notes db (<[fresh := row]> (notes db)) in
  (foreign_key_ok category_id db = true →
   Note_create created modified fresh uuid4 title content plain_content color
     category_id tag_names db = (Return (fresh, row), db1) ∧
   get_by_id fresh true true db1 = Some (fresh, row) ∧
   (∀ other, other ≠ fresh → notes db1 !! other = notes db !! other) ∧
   get_all true true db1 ≡ₚ (fresh, row) :: get_all true true db ∧
   (referential_integrity db → ∀ tag_id, (fresh, tag_id) ∉ note_tag db1)) ∧
  (foreign_key_ok category_id db = false →
   Note_create created modified fresh uuid4 title content plain_content color
     category_id tag_names db = (Raise IntegrityError, db)).
Proof.
  intros Htags Hfresh. cbv zeta. split.
  - intros Hfk. split; [|split; [|split; [|split]]].
    + unfold Note_create. rewrite Htags. cbv zeta iota beta.
      rewrite Hfresh, Hfk. unfold with_notes. do 2 f_equal.
      rewrite fmap_nil, list_to_set_nil. by rewrite (right_id_L ∅ (∪)).
    + unfold get_by_id. cbn [notes with_notes]. by rewrite lookup_insert_eq.
    + intros other Hother. cbn [notes with_notes].
      by rewrite lookup_insert_ne.
    + unfold get_all. rewrite !merge_sort_Permutation. cbn [notes with_notes].
      by apply map_to_list_insert.
    + intros Hri tag_id Hin. cbn [note_tag with_notes] in Hin.
      destruct (Hri _ _ Hin) as [Hdom _].
      apply elem_of_dom in Hdom as [? Hdom]. congruence.
  - intros Hfk. unfold Note_create. rewrite Htags. cbv zeta iota beta.
    by rewrite Hfresh, Hfk.
Qed.

Lemma Note_create_witness :
  tags_truthy (Some []) = false ∧ notes db_AB !! "c" = None ∧
  foreign_key_ok None db_AB = true ∧
  (Note_create 5 6 "c" (λ _, "") (Some "C") None None None None (Some [])
     db_AB).1
  = Return ("c", mkNote (Some "C") None None 5 6 None false None).
Proof.
  split; [reflexivity|]. split; [reflexivity|]. split; [reflexivity|].
  destruct (Note_create_inserts 5 6 "c" (λ _, "") (Some "C") None None None
              None (Some []) db_AB eq_refl eq_refl) as [Hok _].
  destruct (Hok eq_refl) as [-> _]. reflexivity.
Defined.

(** X25.  [Note.remove_tag].  On an object that a method of the model
    returned, [self.id] raises inside the [try], the handler calls
    [logging.error] in a module that does not import [logging], and the
    call raises [NameError]; nothing changes.  On an object that the
    caller built, it returns, and it returns [True] exactly when the
    note is stored and carries a tag with the given name up to case; it
    then deletes the association of the note with one such tag and
    nothing else: the row of the note (its modified timestamp too) and
    the tag itself stay.  Otherwise it changes nothing.  When only one
    tag of the note has that name up to case, removing it again returns
    [False]. *)
Theorem remove_tag_removes_one (self : object) (tag_name : string)
    (db : Database) :
  match self with
  | Detached _ => remove_tag self tag_name db = (Raise NameError, db)
  | Built self_id _ =>
      ∃ removed : bool,
        (remove_tag self tag_name db).1 = Return removed ∧
        (removed = true
         ↔ is_Some (notes db !! self_id) ∧ carries db self_id tag_name) ∧
        notes (remove_tag self tag_name db).2 = notes db ∧
        tags (remove_tag self tag_name db).2 = tags db ∧
        categories (remove_tag self tag_name db).2 = categories db ∧
        (removed = false → (remove_tag self tag_name db).2 = db) ∧
        (removed = true →
         ∃ t, t ∈ note_tags db self_id ∧ same_name (Orm.tag_name t.2) tag_name ∧
           note_tag (remove_tag self tag_name db).2
           = note_tag db ∖ {[ (self_id, t.1) ]} ∧
           ((∀ t', t' ∈ note_tags db self_id →
               same_name (Orm.tag_name t'.2) tag_name → t' = t) →
            (remove_tag self tag_name (remove_tag self tag_name db).2).1
            = Return false))
  end.
Proof.
  destruct self as [self_id columns|key]; [|reflexivity].
  set (self := Built self_id columns).
  destruct (notes db !! self_id) as [n|] eqn:Hn.
  2:{ assert (remove_tag self tag_name db = (Return false, db)) as ->
        by (unfold remove_tag, self; by rewrite Hn).
      exists false. cbn [fst snd]. repeat split; try done.
      by intros [[? ?] _]. }
  destruct (head (filter (λ t : string * Tag,
                            same_name (Orm.tag_name t.2) tag_name)
                    (note_tags db self_id))) as [t|] eqn:Hhead.
  - assert (remove_tag self tag_name db
            = (Return true,
               {| notes := notes db; tags := tags db;
                  categories := categories db;
                  note_tag := note_tag db ∖ {[ (self_id, t.1) ]} |}))
      as -> by (unfold remove_tag, self; by rewrite Hn, Hhead).
    pose proof (head_Some_elem_of _ _ Hhead) as Hin.
    apply list_elem_of_filter in Hin as [Hname Hin].
    exists true. cbn [fst snd notes tags categories note_tag].
    split; [done|].
    split; [split; [intros _; split; [done|by exists t]|done]|].
    do 3 (split; [done|]). split; [done|]. intros _.
    exists t. split; [done|]. split; [done|]. split; [done|].
    intros Huniq.
    set (db' := {| notes := notes db; tags := tags db;
                   categories := categories db;
                   note_tag := note_tag db ∖ {[ (self_id, t.1) ]} |}).
    unfold remove_tag, self. cbn [notes db']. rewrite Hn.
    destruct (head (filter (λ t : string * Tag,
                              same_name (Orm.tag_name t.2) tag_name)
                      (note_tags db' self_id))) as [t'|] eqn:Hhead';
      [|done]. exfalso.
    apply head_Some_elem_of in Hhead'.
    apply list_elem_of_filter in Hhead' as [Hname' Hin'].
    unfold note_tags in Hin'. cbn [tags note_tag db'] in Hin'.
    apply list_elem_of_filter in Hin' as [Hpair Hin'].
    apply elem_of_difference in Hpair as [Hpair Hnot].
    assert (t' = t) as ->.
    { apply Huniq; [|done]. unfold note_tags. by apply list_elem_of_filter. }
    apply Hnot. by apply elem_of_singleton.
  - assert (remove_tag self tag_name db = (Return false, db)) as ->
      by (unfold remove_tag, self; by rewrite Hn, Hhead).
    exists false. cbn [fst snd]. split; [done|]. split; [|done].
    split; [done|]. intros [_ (t & Hin & Hname)]. exfalso.
    assert (t ∈ filter (λ t : string * Tag, same_name (Orm.tag_name t.2) tag_name)
                  (note_tags db self_id)) as Hf
      by (by apply list_elem_of_filter).
    destruct (filter _ (note_tags db self_id)); [|done].
    by apply elem_of_nil in Hf.
Qed.

Lemma remove_tag_witness :
  (remove_tag (Built "a" note_A) "WORK" db_tagged).1 = Return true ∧
  note_tag (remove_tag (Built "a" note_A) "WORK" db_tagged).2
  = {[ ("a", "u") ]} ∧
  remove_tag (returned ("a", note_A)) "WORK" db_tagged
  = (Raise NameError, db_tagged).
Proof.
  assert ((remove_tag (Built "a" note_A) "WORK" db_tagged).1 = Return true)
    as H by reflexivity.
  split; [exact H|]. split.
  2:{ exact (remove_tag_removes_one (returned ("a", note_A)) "WORK"
               db_tagged). }
  destruct (remove_tag_removes_one (Built "a" note_A) "WORK" db_tagged)
    as (removed & Hret & _ & _ & _ & _ & _ & Hrm).
  rewrite H in Hret. injection Hret as <-.
  destruct (Hrm eq_refl) as (t & Hin & Hname & -> & _).
  assert (t.1 = "t") as ->.
  { unfold note_tags in Hin. apply list_elem_of_filter in Hin as [_ Hin].
    destruct t as [i t]. apply elem_of_map_to_list in Hin.
    cbn [tags db_tagged] in Hin. simpl in Hname.
    apply lookup_insert_Some in Hin as [[<- <-]|[_ Hin]]; [done|].
    apply lookup_insert_Some in Hin as [[<- <-]|[_ Hin]]; [done|].
    by rewrite lookup_empty in Hin. }
  cbn [note_tag db_tagged]. apply set_eq. intros p.
  rewrite elem_of_difference, elem_of_union, !elem_of_singleton.
  split; [intros [[->| ->] Hne]; done|]. by intros ->; split; [right|].
Defined.

Lemma category_by_name_None (db : Database) (name : string) :
  category_by_name db name = None →
  ∀ i c, categories db !! i = Some c → cat_name c ≠ name.
Proof.
  unfold category_by_name.
  destruct (filter _ (map_to_list (categories db))) as [|[j c'] l] eqn:Hf;
    [|done].
  intros _ i c Hi Hn.
  assert ((i, c) ∈ filter (λ c : string * Category, cat_name c.2 = name)
                     (map_to_list (categories db))) as Hin.
  { apply list_elem_of_filter. split; [done|]. by apply elem_of_map_to_list. }
  rewrite Hf in Hin. by apply elem_of_nil in Hin.
Qed.

(** X26.  [Category.create] with a name that no category has and a
    free key inserts the category and changes no other table.  A note
    could not be created in the new category before ([Note.create]
    raised [IntegrityError] and the database was as before); after the
    category exists the same call returns the note, and
    [get_by_category] for the new key returns that note. *)
Theorem Category_create_then_assign (now created modified : instant)
    (fresh name : string) (color : option string) (uuid4 : nat → string)
    (key : string) (title content plain_content note_color : option string)
    (tag_names : option (list string)) (db : Database) :
  category_by_name db name = None → categories db !! fresh = None →
  notes db !! key = None → tags_truthy tag_names = false →
  let row := mkNote title content plain_content created modified note_color
               false (Some fresh) in
  ∃ db1,
    Category_create now fresh name color db = (Return fresh, db1) ∧
    categories db1 !! fresh = Some (mkCategory name color now) ∧
    notes db1 = notes db ∧ tags db1 = tags db ∧ note_tag db1 = note_tag db ∧
    Note_create created modified key uuid4 title content plain_content
      note_color (Some fresh) tag_names db = (Raise IntegrityError, db) ∧
    ∃ db2,
      Note_create created modified key uuid4 title content plain_content
        note_color (Some fresh) tag_names db1 = (Return (key, row), db2) ∧
      (key, row) ∈ get_by_category fresh true db2.
Proof.
  intros Hname Hfresh Hkey Htags. cbv zeta.
  unfold Category_create. rewrite Hname, Hfresh.
  eexists. split; [reflexivity|]. cbn [categories notes tags note_tag].
  split; [by rewrite lookup_insert_eq|]. do 3 (split; [done|]).
  split.
  - unfold Note_create. rewrite Htags. cbv zeta iota beta. rewrite Hkey.
    cbn [foreign_key_ok]. rewrite bool_decide_eq_false_2; [done|].
    by rewrite not_elem_of_dom.
  - unfold Note_create. rewrite Htags. cbv zeta iota beta. cbn [notes].
    rewrite Hkey. cbn [foreign_key_ok categories].
    rewrite bool_decide_eq_true_2
      by (apply elem_of_dom; rewrite lookup_insert_eq; by eexists).
    eexists. split; [reflexivity|].
    unfold get_by_category. rewrite merge_sort_Permutation.
    apply elem_of_where_. split.
    + cbn [snd]. unfold sql_eq. simpl.
      by rewrite bool_decide_eq_true_2.
    + apply elem_of_map_to_list. cbn [notes]. by rewrite lookup_insert_eq.
Qed.

Lemma Category_create_then_assign_witness :
  category_by_name db_AB "Work" = None ∧ categories db_AB !! "w" = None ∧
  notes db_AB !! "c" = None ∧
  (Category_create 3 "w" "Work" None db_AB).1 = Return "w" ∧
  Note_create 4 5 "c" (λ _, "") (Some "C") None None None (Some "w") None
    db_AB = (Raise IntegrityError, db_AB).
Proof.
  assert (category_by_name db_AB "Work" = None) as H1 by reflexivity.
  assert (categories db_AB !! "w" = None) as H2 by reflexivity.
  assert (notes db_AB !! "c" = None) as H4 by reflexivity.
  split; [exact H1|]. split; [exact H2|]. split; [exact H4|].
  destruct (Category_create_then_assign 3 4 5 "w" "Work" None (λ _, "") "c"
              (Some "C") None None None None db_AB H1 H2 H4 eq_refl)
    as (db1 & -> & _ & _ & _ & _ & -> & _).
  split; reflexivity.
Defined.

End OrmMoreFacts.

(** * Properties of the JSON layer *)

Module QtFacts.
Import Py Qt.

(** ** [fromisoformat] reads what [isoformat] writes *)

Lemma digit_value_digit (k : Z) :
  (0 ≤ k ≤ 9)%Z → digit_value (digit k) = Some k.
Proof.
  intros Hk.
  assert (k = 0 ∨ k = 1 ∨ k = 2 ∨ k = 3 ∨ k = 4 ∨ k = 5 ∨ k = 6 ∨ k = 7
          ∨ k = 8 ∨ k = 9)%Z as Hcases by lia.
  repeat (destruct Hcases as [->|Hcases]; [reflexivity|]). by subst.
Qed.

Lemma read_digits_last (w : nat) (acc : Z) (s : string) :
  read_digits (S w) acc s
  = match read_digits w acc s with
    | Some (a, s') => read_digits 1 a s'
    | None => None
    end.
Proof.
  revert acc s. induction w as [|w IH]; intros acc s; [done|].
  cbn [read_digits] in *. destruct s as [|c s]; [done|].
  destruct (digit_value c) as [v|]; [|done].
  specialize (IH (10 * acc + v)%Z s). cbn [read_digits] in IH. exact IH.
Qed.

Lemma read_digits_zero_padded (w : nat) (n acc : Z) (rest : string) :
  (0 ≤ n < 10 ^ Z.of_nat w)%Z →
  read_digits w acc (zero_padded w n rest)
  = Some ((acc * 10 ^ Z.of_nat w + n)%Z, rest).
Proof.
  revert n rest. induction w as [|w IH]; intros n rest Hn.
  - simpl in *. do 2 f_equal. lia.
  - rewrite Nat2Z.inj_succ, Z.pow_succ_r in Hn by lia.
    rewrite read_digits_last. cbn [zero_padded].
    rewrite IH by (split; [apply Z.div_pos; lia|apply Z.div_lt_upper_bound; lia]).
    cbn [read_digits].
    rewrite digit_value_digit
      by (pose proof (Z.mod_pos_bound n 10 ltac:(lia)); lia).
    do 2 f_equal. rewrite Nat2Z.inj_succ, Z.pow_succ_r by lia.
    pose proof (Z.div_mod n 10 ltac:(lia)). lia.
Qed.

(** The ranges that [valid] checks. *)
Lemma valid_ranges (d : datetime) :
  valid d = true →
  (1 ≤ year d ≤ 9999 ∧ 1 ≤ month d ≤ 12 ∧ 1 ≤ day d ≤ 31 ∧ 0 ≤ hour d ≤ 23
   ∧ 0 ≤ minute d ≤ 59 ∧ 0 ≤ second d ≤ 59 ∧ 0 ≤ microsecond d ≤ 999999)%Z.
Proof.
  unfold valid, between. rewrite !andb_true_iff, !Z.leb_le.
  intros [[[[[[[? ?] [? ?]] [? Hday]] [? ?]] [? ?]] [? ?]] [? ?]].
  assert (days_in_month (year d) (month d) ≤ 31)%Z.
  { unfold days_in_month. repeat case_match; lia. }
  lia.
Qed.

Local Arguments zero_padded : simpl never.
Local Arguments read_digits : simpl never.

Lemma parse_iso_isoformat (d : datetime) :
  valid d = true → parse_iso (isoformat d) = Some d.
Proof.
  intros Hv. pose proof (valid_ranges d Hv) as (Hy & Hmo & Hd & Hh & Hmi & Hs & Hus).
  unfold parse_iso, isoformat.
  rewrite read_digits_zero_padded by (simpl; lia). simpl.
  rewrite read_digits_zero_padded by (simpl; lia). simpl.
  rewrite read_digits_zero_padded by (simpl; lia). simpl.
  rewrite read_digits_zero_padded by (simpl; lia). simpl.
  rewrite read_digits_zero_padded by (simpl; lia). simpl.
  rewrite read_digits_zero_padded by (simpl; lia). simpl.
  destruct d as [y mo dd h mi sec us]. simpl in *.
  destruct (us =? 0)%Z eqn:Hz.
  - apply Z.eqb_eq in Hz as ->. done.
  - simpl. rewrite read_digits_zero_padded by (simpl; lia). done.
Qed.

Lemma fromisoformat_isoformat (d : datetime) :
  valid d = true → fromisoformat (isoformat d) = Return d.
Proof.
  intros Hv. unfold fromisoformat. by rewrite parse_iso_isoformat, Hv.
Qed.

(** ** The order of datetimes *)

Lemma lex_leb_refl (a : list Z) : lex_leb a a = true.
Proof.
  induction a as [|x a IH]; [done|]. simpl.
  by rewrite Z.eqb_refl, IH, orb_true_r.
Qed.

Lemma lex_leb_trans (a b c : list Z) :
  lex_leb a b = true → lex_leb b c = true → lex_leb a c = true.
Proof.
  revert b c. induction a as [|x a IH]; intros [|y b] [|z c]; simpl; try done.
  rewrite !orb_true_iff, !andb_true_iff, !Z.ltb_lt, !Z.eqb_eq.
  intros [Hxy|[-> Hab]] [Hyz|[-> Hbc]]; eauto with lia.
Qed.

Lemma dt_le_refl (d : datetime) : dt_le d d.
Proof. apply lex_leb_refl. Qed.

Lemma dt_le_trans (d1 d2 d3 : datetime) :
  dt_le d1 d2 → dt_le d2 d3 → dt_le d1 d3.
Proof. apply lex_leb_trans. Qed.

(** ** [from_dict] reads what [to_dict] writes *)

Lemma as_str_items_fmap (l : list string) :
  as_str_items (JString <$> l) = Return l.
Proof.
  induction l as [|x l IH]; [done|].
  rewrite fmap_cons. cbn [as_str_items as_str]. by rewrite IH.
Qed.

Lemma lookup_after_alloc (h : list Note) (n : Note) :
  (h ++ [n])%list !! length h = Some n.
Proof. by rewrite lookup_app_r, Nat.sub_diag by lia. Qed.

Lemma insert_after_alloc (h : list Note) (n n' : Note) :
  <[length h := n']> (h ++ [n])%list = (h ++ [n'])%list.
Proof.
  rewrite insert_app_r_alt by lia. by rewrite Nat.sub_diag.
Qed.

Section Program.
Variable clock : nat → datetime.

(** Reading the dict of a note allocates a copy of the note; the clock
    is read three times on the way. *)
Lemma from_dict_to_dict (n : Note) (s : state) :
  valid (created_date n) = true → valid (modified_date n) = true →
  from_dict clock (to_dict n) s
  = (Return (length (heap s)),
     with_ticks (3 + ticks s) (with_heap (heap s ++ [n]) s)).
Proof.
  intros Hc Hm. destruct n as [t c ic tg cat cr mo]. simpl in Hc, Hm.
  unfold from_dict, to_dict. unfold mbind, M_bind, bind, lift. simpl.
  rewrite as_str_items_fmap.
  assert (as_optional_str match cat with
                          | Some c0 => JString c0
                          | None => JNull
                          end = Return cat) as -> by (by destruct cat).
  rewrite !fromisoformat_isoformat by done.
  unfold deref at 1. cbn [heap with_ticks with_heap].
  rewrite lookup_after_alloc.
  unfold deref at 1. cbn [heap with_ticks with_heap ticks].
  rewrite insert_after_alloc, lookup_after_alloc.
  cbn [heap with_ticks with_heap ticks]. rewrite insert_after_alloc.
  done.
Qed.

Lemma for_each_from_dict (ns : list Note) (s : state) :
  Forall (λ n, valid (created_date n) = true ∧ valid (modified_date n) = true) ns →
  for_each (from_dict clock) (to_dict <$> ns) s
  = (Return (seq (length (heap s)) (length ns)),
     with_ticks (3 * length ns + ticks s) (with_heap (heap s ++ ns) s)).
Proof.
  intros Hns. revert s. induction Hns as [|n ns [Hc Hm] _ IH]; intros s.
  - simpl. unfold ret. destruct s. unfold with_ticks, with_heap. simpl.
    by rewrite app_nil_r.
  - rewrite fmap_cons. cbn [for_each]. unfold mbind, M_bind, bind at 1.
    rewrite from_dict_to_dict by done. unfold bind at 1. rewrite IH.
    unfold ret. simpl. rewrite length_app. simpl.
    replace (length (heap s) + 1)%nat with (S (length (heap s))) by lia.
    f_equal. unfold with_ticks, with_heap. simpl.
    rewrite <- app_assoc. simpl. f_equal. lia.
Qed.

(** [for_each deref] reads the heap and leaves the state alone. *)
Lemma for_each_deref (l : list nat) (s : state) :
  for_each deref l s
  = (match mapM (λ r, heap s !! r) l with
     | Some ns => Return ns
     | None => Raise ReferenceError
     end, s).
Proof.
  induction l as [|r l IH]; [done|].
  cbn [for_each mapM]. unfold mbind at 1, M_bind, bind at 1, deref at 1.
  destruct (heap s !! r) as [n|]; [|done].
  unfold mbind at 1, bind at 1. rewrite IH. simpl.
  by destruct (mapM (λ r, heap s !! r) l).
Qed.

(** [save_notes] writes the document of the notes (and writes nothing
    if a reference of the list were not allocated). *)
Lemma save_notes_writes (s : state) :
  save_notes s
  = (Return tt,
     match mapM (λ r, heap s !! r) (notes s) with
     | Some ns =>
         with_notes_file
           (Some (Document (document ns (sidebar_categories s) (sidebar_tags s)))) s
     | None => s
     end).
Proof.
  unfold save_notes, try_except, mbind, M_bind, bind, get. simpl.
  rewrite for_each_deref.
  by destruct (mapM (λ r, heap s !! r) (notes s)).
Qed.

(** Loading a document that [save_notes] wrote allocates its notes
    anew, in order, and restores the two lists of the sidebar. *)
Lemma load_notes_reads (ns : list Note) (categories tags : list string)
    (s : state) :
  notes_file s = Some (Document (document ns categories tags)) →
  Forall dates_valid ns →
  load_notes clock s
  = (Return tt,
     mkState (3 * length ns + ticks s) (heap s ++ ns)
       (seq (length (heap s)) (length ns)) (seq (length (heap s)) (length ns))
       (current_note_index s) categories tags (notes_file s)).
Proof.
  intros Hfile Hns.
  unfold load_notes, mbind at 1, M_bind, bind at 1, get at 1. rewrite Hfile.
  unfold try_except, document, mbind, M_bind, bind, lift. simpl.
  rewrite for_each_from_dict by done.
  rewrite !as_str_items_fmap. unfold modify, get, set_notes. simpl.
  unfold mbind, M_bind, bind, modify. simpl.
  unfold with_filtered_notes, with_notes, with_sidebar_tags,
    with_sidebar_categories, with_ticks, with_heap. simpl. by rewrite Hfile.
Qed.

Lemma lookup_allocated (h ns : list Note) :
  (λ r, (h ++ ns)%list !! r) <$> seq (length h) (length ns) = Some <$> ns.
Proof.
  revert h. induction ns as [|n ns IH]; intros h; [done|].
  simpl. rewrite lookup_app_r, Nat.sub_diag by lia. simpl. f_equal.
  specialize (IH (h ++ [n])%list). rewrite length_app in IH. simpl in IH.
  rewrite <- app_assoc in IH. simpl in IH.
  rewrite Nat.add_1_r in IH. exact IH.
Qed.

Lemma well_formed_notes (s : state) :
  well_formed s →
  ∃ ns, mapM (λ r, heap s !! r) (notes s) = Some ns
        ∧ Forall dates_valid ns ∧ notes_of s = Some <$> ns.
Proof.
  unfold well_formed, notes_of. induction (notes s) as [|r l IH]; intros Hwf.
  - exists []. by repeat split.
  - destruct (Hwf r) as (n & Hn & Hc & Hm); [by left|].
    destruct IH as (ns & Hns & Hv & Heq); [intros r' ?; apply Hwf; by right|].
    exists (n :: ns). cbn [mapM]. rewrite Hn, Hns, !fmap_cons, Hn, Heq.
    split; [done|]. split; [by constructor|done].
Qed.

(** C5.  What [load_notes] reconstructs from the file that [save_notes]
    wrote is the saved list of notes: as many notes, in the same order,
    each with the saved title, content, code flag, tags, category and
    created and modified dates, the dates having gone through their ISO
    text; and the categories and tags of the sidebar are the saved
    ones.  (These seven are the fields that a note of this program
    has.) *)
Theorem load_after_save (s s0 : state) :
  well_formed s →
  notes_file s0 = notes_file (save_notes s).2 →
  (load_notes clock s0).1 = Return tt ∧
  notes_of (load_notes clock s0).2 = notes_of s ∧
  sidebar_categories (load_notes clock s0).2 = sidebar_categories s ∧
  sidebar_tags (load_notes clock s0).2 = sidebar_tags s.
Proof.
  intros Hwf Hfile.
  destruct (well_formed_notes s Hwf) as (ns & Hns & Hv & Heq).
  rewrite save_notes_writes, Hns in Hfile. simpl in Hfile.
  rewrite (load_notes_reads ns _ _ s0 Hfile Hv). simpl.
  repeat split; try done.
  rewrite Heq. unfold notes_of. simpl. apply lookup_allocated.
Qed.

Lemma create_sample_notes_result (s : state) :
  create_sample_notes clock s
  = (Return tt,
     mkState (2 + ticks s)
       (heap s ++ [welcome_note (clock (ticks s));
                   code_note (clock (S (ticks s)))])
       [length (heap s); S (length (heap s))]
       [length (heap s); S (length (heap s))]
       (current_note_index s)
       ["Getting Started"; "Code Snippets"; "Personal"; "Work"]
       ["welcome"; "tutorial"; "python"; "example"; "important"]
       (notes_file s)).
Proof.
  destruct s as [t h l fl i cs ts f].
  unfold create_sample_notes, Note_init, now, alloc, set_notes, modify, get,
    mbind, M_bind, bind, ret.
  cbn [ticks heap notes filtered_notes current_note_index sidebar_categories
       sidebar_tags notes_file default with_filtered_notes with_notes
       with_sidebar_tags with_sidebar_categories with_ticks with_heap].
  rewrite length_app, <- app_assoc. cbn [length app].
  by rewrite Nat.add_1_r.
Qed.

Lemma load_notes_no_file (s : state) :
  notes_file s = None → load_notes clock s = create_sample_notes clock s.
Proof.
  intros Hfile. unfold load_notes, mbind, M_bind, bind, get. by rewrite Hfile.
Qed.

(** C9.  When there is no notes file, [load_notes] leaves the window
    with exactly two notes: the welcome note, which is rich text, and
    the Python example, which is code. *)
Theorem load_notes_first_run (s : state) :
  notes_file s = None →
  (load_notes clock s).1 = Return tt ∧
  notes_of (load_notes clock s).2
  = [Some (welcome_note (clock (ticks s)));
     Some (code_note (clock (S (ticks s))))] ∧
  is_code (welcome_note (clock (ticks s))) = false ∧
  is_code (code_note (clock (S (ticks s)))) = true.
Proof.
  intros Hfile. rewrite load_notes_no_file, create_sample_notes_result by done.
  repeat split. unfold notes_of. simpl.
  rewrite lookup_app_r, Nat.sub_diag by lia. simpl.
  rewrite lookup_app_r by lia.
  by replace (S (length (heap s)) - length (heap s))%nat with 1%nat by lia.
Qed.

(** ** Modified is never before created *)

Section Invariant.
Hypothesis clock_steady : steady clock.

Lemma in_order_later (t t' : nat) (n : Note) :
  (t ≤ t')%nat → in_order clock t n → in_order clock t' n.
Proof.
  intros Ht (Hv & Hcm & Hm). repeat split; try done; try apply Hv.
  eapply dt_le_trans; [exact Hm|]. by apply clock_steady.
Qed.

Lemma file_in_order_later (t t' : nat) (f : option file) :
  (t ≤ t')%nat → file_in_order clock t f → file_in_order clock t' f.
Proof.
  intros Ht. destruct f as [[|data]|]; simpl; try done.
  intros (ns & cs & ts & -> & Hns). exists ns, cs, ts. split; [done|].
  eapply Forall_impl; [exact Hns|]. intros n. by apply in_order_later.
Qed.

(** A note made or modified at the reading that was just taken. *)
Lemma in_order_now (t : nat) (n : Note) :
  valid (created_date n) = true →
  dt_le (created_date n) (clock t) →
  modified_date n = clock t →
  in_order clock (S t) n.
Proof.
  intros Hv Hc Hm. destruct clock_steady as [Hvalid Hmono].
  repeat split; rewrite ?Hm; try done.
  apply Hmono. lia.
Qed.

Lemma keeps_ret {A} (a : A) : keeps clock (ret a).
Proof. by intros s. Qed.

Lemma keeps_raise {A} (e : exn) : keeps clock (@raise A e).
Proof. by intros s. Qed.

Lemma keeps_lift {A} (r : result A) : keeps clock (lift r).
Proof. by intros s. Qed.

Lemma keeps_get {A} (f : state → A) : keeps clock (get f).
Proof. by intros s. Qed.

Lemma keeps_bind {A B} (m : M A) (k : A → M B) :
  keeps clock m → (∀ a, keeps clock (k a)) → keeps clock (m ≫= k).
Proof.
  intros Hm Hk s Hs. unfold mbind, M_bind, bind.
  specialize (Hm s Hs). destruct (m s) as [[a|e] s']; [|done].
  by apply Hk.
Qed.

Lemma keeps_try_except {A} (body : M A) (handler : exn → M A) :
  keeps clock body → (∀ e, keeps clock (handler e)) → keeps clock (try_except body handler).
Proof.
  intros Hb Hh s Hs. unfold try_except.
  specialize (Hb s Hs). destruct (body s) as [[a|e] s']; [done|].
  by apply Hh.
Qed.

Lemma keeps_for_each {A B} (f : A → M B) (l : list A) :
  (∀ x, keeps clock (f x)) → keeps clock (for_each f l).
Proof.
  intros Hf. induction l as [|x l IH]; [apply keeps_ret|].
  cbn [for_each]. apply keeps_bind; [apply Hf|]. intros y.
  apply keeps_bind; [apply IH|]. intros ys. apply keeps_ret.
Qed.

Lemma keeps_deref (r : nat) : keeps clock (deref r).
Proof. intros s Hs. unfold deref. by destruct (heap s !! r). Qed.

Lemma keeps_item (l : list nat) (i : Z) : keeps clock (item l i).
Proof. unfold item. destruct (l !! Z.to_nat i); [apply keeps_ret|apply keeps_raise]. Qed.

Lemma keeps_now : keeps clock (now clock).
Proof.
  intros s [Hh Hf]. split; simpl.
  - eapply Forall_impl; [exact Hh|]. intros n. apply in_order_later. lia.
  - eapply file_in_order_later; [|exact Hf]. lia.
Qed.

(** Writing a field other than the heap, the clock and the file. *)
Lemma keeps_modify (f : state → state) :
  (∀ s, ticks (f s) = ticks s ∧ heap (f s) = heap s
        ∧ notes_file (f s) = notes_file s) →
  keeps clock (modify f).
Proof.
  intros Hf s [Hh Hfile]. destruct (Hf s) as (Ht & Hheap & Hnf).
  unfold modify, invariant. simpl. by rewrite Ht, Hheap, Hnf.
Qed.

Lemma keeps_set_notes (l : list nat) : keeps clock (set_notes l).
Proof.
  unfold set_notes. apply keeps_bind; [by apply keeps_modify|].
  intros _. by apply keeps_modify.
Qed.

Lemma keeps_Note_init (title content : string) (is_code : bool)
    (tags : option (list string)) (category : option string) :
  keeps clock (Note_init clock title content is_code tags category).
Proof.
  intros s Hs. unfold Note_init, mbind, M_bind, bind, now, alloc. simpl.
  destruct (keeps_now s Hs) as [Hh Hf]. simpl in Hh, Hf.
  split; simpl; [|done]. apply Forall_app. split; [done|].
  apply Forall_singleton. apply in_order_now; simpl; try done.
  - apply clock_steady.
  - apply dt_le_refl.
Qed.

Lemma mapM_lookup_elem (h : list Note) (l : list nat) (ns : list Note) :
  mapM (λ r, h !! r) l = Some ns → ∀ n, n ∈ ns → n ∈ h.
Proof.
  revert ns. induction l as [|r l IH]; intros ns; cbn [mapM].
  - intros [= <-] n Hn. by apply elem_of_nil in Hn.
  - destruct (h !! r) as [x|] eqn:Hx; [|done]. simpl.
    destruct (mapM (λ r, h !! r) l) as [xs|]; [|done]. simpl.
    intros [= <-] n [->|Hn]%elem_of_cons.
    + by eapply list_elem_of_lookup_2.
    + by eapply IH.
Qed.

Lemma keeps_save_notes : keeps clock save_notes.
Proof.
  intros s [Hh Hf]. rewrite save_notes_writes. simpl.
  destruct (mapM (λ r, heap s !! r) (notes s)) as [ns|] eqn:Hns; [|done].
  split; simpl; [done|].
  exists ns, (sidebar_categories s), (sidebar_tags s). split; [done|].
  apply Forall_forall. intros n Hn. rewrite Forall_forall in Hh.
  apply Hh. by eapply mapM_lookup_elem.
Qed.

Lemma keeps_create_sample_notes : keeps clock (create_sample_notes clock).
Proof.
  unfold create_sample_notes.
  apply keeps_bind; [apply keeps_Note_init|]. intros w.
  apply keeps_bind; [apply keeps_Note_init|]. intros c.
  apply keeps_bind; [by apply keeps_modify|]. intros _.
  apply keeps_bind; [by apply keeps_modify|]. intros _.
  apply keeps_bind; [by apply keeps_modify|]. intros _.
  apply keeps_bind; [apply keeps_get|]. intros l. apply keeps_set_notes.
Qed.

Lemma keeps_load_notes : keeps clock (load_notes clock).
Proof.
  intros s Hs. destruct (notes_file s) as [[|data]|] eqn:Hfile.
  - destruct Hs as [_ Hf]. by rewrite Hfile in Hf.
  - pose proof Hs as [Hh Hf]. rewrite Hfile in Hf.
    destruct Hf as (ns & cs & ts & -> & Hns).
    rewrite (load_notes_reads ns cs ts s Hfile).
    + split; simpl.
      * apply Forall_app. split; (eapply Forall_impl; [eassumption|]);
          intros n; apply in_order_later; lia.
      * rewrite Hfile. exists ns, cs, ts. split; [done|].
        eapply Forall_impl; [exact Hns|]. intros n. apply in_order_later. lia.
    + eapply Forall_impl; [exact Hns|]. by intros n [Hv _].
  - rewrite load_notes_no_file by done. by apply keeps_create_sample_notes.
Qed.

Lemma keeps_comprehension (p : Note → bool) (l : list nat) :
  keeps clock (comprehension p l).
Proof.
  unfold comprehension. apply keeps_bind; [apply keeps_for_each, keeps_deref|].
  intros ns. apply keeps_ret.
Qed.

Lemma keeps_filter_notes (filter_type filter_value : string) :
  keeps clock (filter_notes clock filter_type filter_value).
Proof.
  unfold filter_notes. apply keeps_bind; [apply keeps_get|]. intros l.
  repeat case_match;
    repeat first
      [ apply keeps_ret
      | by apply keeps_modify
      | apply keeps_bind; [first [apply keeps_now | apply keeps_lift
                                  | apply keeps_comprehension]|intros ?] ].
Qed.

Lemma keeps_search_notes (text : string) : keeps clock (search_notes clock text).
Proof. unfold search_notes. case_match; apply keeps_filter_notes. Qed.

(** The heart of [save_current_note]: the note gets the content of the
    editor and the time of the clock. *)
Lemma keeps_save_current_note (editor_content : string) :
  keeps clock (save_current_note clock editor_content).
Proof.
  unfold save_current_note. apply keeps_bind; [apply keeps_get|]. intros i.
  case_match; [apply keeps_ret|].
  apply keeps_bind; [apply keeps_get|]. intros l.
  apply keeps_bind; [apply keeps_item|]. intros note.
  intros s Hs. pose proof Hs as [Hh Hf].
  unfold mbind, M_bind, bind, deref at 1.
  destruct (heap s !! note) as [n|] eqn:Hn; [|done].
  pose proof (lookup_lt_Some _ _ _ Hn) as Hlt.
  unfold store at 1, modify, now, deref. cbn [heap with_heap with_ticks ticks].
  rewrite list_lookup_insert_eq by done.
  unfold store, modify. cbn [heap with_heap with_ticks ticks].
  apply keeps_save_notes.
  rewrite Forall_forall in Hh.
  destruct (Hh n (list_elem_of_lookup_2 _ _ _ Hn)) as ([Hvc Hvm] & Hcm & Hm).
  split; simpl.
  - rewrite list_insert_insert_eq. apply Forall_insert.
    + apply Forall_forall. intros x Hx. eapply in_order_later; [|by apply Hh]. lia.
    + apply in_order_now; simpl; try done. by eapply dt_le_trans.
  - eapply file_in_order_later; [|exact Hf]. lia.
Qed.

Lemma keeps_handle_note_selection (index : Z) (editor_content : string) :
  keeps clock (handle_note_selection clock index editor_content).
Proof.
  unfold handle_note_selection. apply keeps_bind; [apply keeps_get|]. intros l.
  case_match; [apply keeps_ret|].
  apply keeps_bind; [apply keeps_get|]. intros i.
  apply keeps_bind.
  { case_match; [apply keeps_save_current_note|apply keeps_ret]. }
  intros _. apply keeps_bind; [by apply keeps_modify|]. intros _.
  apply keeps_bind; [apply keeps_get|]. intros l'.
  apply keeps_bind; [apply keeps_item|]. intros note.
  apply keeps_bind; [apply keeps_deref|]. intros _. apply keeps_ret.
Qed.

Lemma keeps_create_new_note (dialog : new_note_dialog)
    (editor_content : string) :
  keeps clock (create_new_note clock dialog editor_content).
Proof.
  unfold create_new_note.
  apply keeps_bind; [apply keeps_Note_init|]. intros note.
  apply keeps_bind; [apply keeps_get|]. intros l.
  apply keeps_bind; [by apply keeps_modify|]. intros _.
  apply keeps_bind; [apply keeps_get|]. intros l'.
  apply keeps_bind; [by apply keeps_modify|]. intros _.
  apply keeps_bind; [apply keeps_handle_note_selection|]. intros _.
  apply keeps_bind; [apply keeps_get|]. intros sidebar.
  by apply keeps_modify.
Qed.

Lemma keeps_delete_current_note (confirm : bool) :
  keeps clock (delete_current_note confirm).
Proof.
  unfold delete_current_note. apply keeps_bind; [apply keeps_get|]. intros i.
  case_match; [apply keeps_ret|].
  apply keeps_bind; [apply keeps_get|]. intros l.
  apply keeps_bind; [apply keeps_item|]. intros note.
  apply keeps_bind; [apply keeps_deref|]. intros _.
  destruct confirm; [|apply keeps_ret].
  apply keeps_bind; [apply keeps_get|]. intros l'.
  case_match; [|apply keeps_ret].
  apply keeps_bind; [by apply keeps_modify|]. intros _.
  apply keeps_bind; [by apply keeps_modify|]. intros _.
  apply keeps_bind; [apply keeps_get|]. intros l''.
  apply keeps_bind; [apply keeps_set_notes|]. intros _.
  apply keeps_save_notes.
Qed.

Lemma keeps_closeEvent (editor_content : string) :
  keeps clock (closeEvent clock editor_content).
Proof.
  unfold closeEvent. apply keeps_bind; [apply keeps_get|]. intros i.
  apply keeps_bind; [|intros _; apply keeps_save_notes].
  case_match; [apply keeps_save_current_note|apply keeps_ret].
Qed.

Lemma keeps_MainWindow_init : keeps clock (MainWindow_init clock).
Proof.
  unfold MainWindow_init. apply keeps_bind; [|intros _; apply keeps_load_notes].
  intros s [Hh Hf]. split; simpl; [by constructor|done].
Qed.

Lemma keeps_handle (ev : event) : keeps clock (handle clock ev).
Proof.
  destruct ev; simpl;
    auto using keeps_MainWindow_init, keeps_create_new_note,
      keeps_handle_note_selection, keeps_save_current_note,
      keeps_delete_current_note, keeps_filter_notes, keeps_search_notes,
      keeps_closeEvent.
Qed.

Lemma reachable_invariant (s : state) :
  reachable clock s → invariant clock s.
Proof.
  induction 1 as [t|ev s _ IH].
  - apply keeps_handle. split; simpl; [by constructor|done].
  - by apply keeps_handle.
Qed.

End Invariant.

(** C8, as the code has it.  While the clock does not go back, in
    every state that the program reaches from a first run without notes
    file, whatever the user does (new notes, selections, saves,
    deletions, filters, closing and starting again, which loads what was
    saved), every note object has a modified date that is not before
    its created date. *)
Theorem modified_not_before_created (s : state) (n : Note) :
  steady clock → reachable clock s → n ∈ heap s →
  dt_le (created_date n) (modified_date n).
Proof.
  intros Hclock Hs Hn. destruct (reachable_invariant Hclock s Hs) as [Hh _].
  rewrite Forall_forall in Hh. by destruct (Hh n Hn) as (_ & Hcm & _).
Qed.

End Program.


(** ** The statements at concrete states *)

Lemma stopped_clock_steady : steady stopped_clock.
Proof. split; [done|]. intros i j _. apply dt_le_refl. Qed.

Lemma first_run_well_formed : well_formed first_run.
Proof.
  intros r Hr. change (notes first_run) with [0%nat; 1%nat] in Hr.
  apply elem_of_cons in Hr as [->|Hr]; [|apply list_elem_of_singleton in Hr as ->].
  - exists (welcome_note noon). by vm_compute.
  - exists (code_note noon). by vm_compute.
Qed.

Lemma load_after_save_witness :
  well_formed first_run ∧
  notes_of (load_notes stopped_clock (save_notes first_run).2).2
  = notes_of first_run.
Proof.
  split; [exact first_run_well_formed|].
  apply (load_after_save stopped_clock first_run (save_notes first_run).2
           first_run_well_formed eq_refl).
Defined.

Lemma load_notes_first_run_witness :
  notes_file (installed 0) = None ∧
  notes_of (load_notes stopped_clock (installed 0)).2
  = [Some (welcome_note noon); Some (code_note noon)].
Proof.
  split; [reflexivity|].
  apply (load_notes_first_run stopped_clock (installed 0) eq_refl).
Defined.

Lemma modified_not_before_created_witness :
  steady stopped_clock ∧ reachable stopped_clock after_edit ∧
  mkNote "Welcome to C0lorNote!" "hello" false ["welcome"; "tutorial"]
    (Some "Getting Started") noon noon ∈ heap after_edit ∧
  dt_le noon noon.
Proof.
  assert (reachable stopped_clock after_edit) as Hreach.
  { unfold after_edit. do 2 apply reachable_event. apply reachable_start. }
  assert (mkNote "Welcome to C0lorNote!" "hello" false ["welcome"; "tutorial"]
            (Some "Getting Started") noon noon ∈ heap after_edit) as Hin.
  { change (heap after_edit)
      with [mkNote "Welcome to C0lorNote!" "hello" false
              ["welcome"; "tutorial"] (Some "Getting Started") noon noon;
            code_note noon].
    by left. }
  split; [exact stopped_clock_steady|]. split; [exact Hreach|].
  split; [exact Hin|].
  apply (modified_not_before_created stopped_clock after_edit _
           stopped_clock_steady Hreach Hin).
Defined.

(** The specification has the rule hold after any load: a notes file
    in which the modified date is the earlier one is loaded as it is. *)
Lemma backdated_file_loads_out_of_order :
  ∃ n, notes_of (handle stopped_clock Start with_backdated_file).2 = [Some n]
       ∧ ¬ dt_le (created_date n) (modified_date n).
Proof.
  eexists. split; [by vm_compute|]. by vm_compute.
Qed.

End QtFacts.

(** * More properties of the JSON layer *)

Module QtMoreFacts.
Import Py Qt QtFacts.

(** ** Dates as text *)

Lemma zero_padded_length (w : nat) (n : Z) (rest : string) :
  String.length (zero_padded w n rest) = (w + String.length rest)%nat.
Proof.
  revert n rest. induction w as [|w IH]; intros n rest; [done|].
  cbn [zero_padded]. rewrite IH. simpl. lia.
Qed.

(** X12.  For a datetime that the constructor accepts, [isoformat]
    writes 19 characters, or 26 when the microsecond is not zero,
    [fromisoformat] reads the same datetime back from them, and no
    other valid datetime has the same text; whatever [fromisoformat]
    returns, for any text, is a datetime that the constructor
    accepts. *)
Theorem isoformat_round_trip (d : datetime) :
  valid d = true →
  fromisoformat (isoformat d) = Return d ∧
  String.length (isoformat d)
  = (if (microsecond d =? 0)%Z then 19 else 26)%nat ∧
  (∀ d', valid d' = true → isoformat d' = isoformat d → d' = d) ∧
  (∀ s d', fromisoformat s = Return d' → valid d' = true).
Proof.
  intros Hv. split; [by apply fromisoformat_isoformat|]. split.
  { unfold isoformat. rewrite !zero_padded_length. cbn [String.length].
    rewrite !zero_padded_length. cbn [String.length].
    rewrite !zero_padded_length. cbn [String.length].
    destruct (microsecond d =? 0)%Z; [done|].
    cbn [String.length]. by rewrite zero_padded_length. }
  split.
  - intros d' Hv' Heq.
    pose proof (fromisoformat_isoformat d' Hv') as H1.
    rewrite Heq, fromisoformat_isoformat in H1 by done. congruence.
  - intros s d'. unfold fromisoformat.
    destruct (parse_iso s) as [x|]; [|done].
    destruct (valid x) eqn:Hx; [|done]. by intros [= <-].
Qed.

Lemma isoformat_round_trip_witness :
  valid noon = true ∧ isoformat noon = "2024-01-01T12:00:00" ∧
  fromisoformat "2024-01-01T12:00:00" = Return noon.
Proof.
  split; [reflexivity|]. split; [reflexivity|].
  exact (proj1 (isoformat_round_trip noon eq_refl)).
Defined.


(** ** Rules for triples *)

Section Program.
Variable clock : nat → datetime.

Lemma triple_ret {A} (P : state → Prop) (a : A) (Q : A → state → Prop)
    (E : state → Prop) :
  (∀ s, P s → Q a s) → triple P (ret a) Q E.
Proof. intros H s Hs. by apply H. Qed.

Lemma triple_raise {A} (P : state → Prop) (e : exn) (Q : A → state → Prop)
    (E : state → Prop) :
  (∀ s, P s → E s) → triple P (raise e) Q E.
Proof. intros H s Hs. by apply H. Qed.

Lemma triple_lift {A} (P : state → Prop) (r : result A)
    (Q : A → state → Prop) (E : state → Prop) :
  (∀ a s, r = Return a → P s → Q a s) → (∀ s, P s → E s) →
  triple P (lift r) Q E.
Proof.
  intros HQ HE s Hs. unfold lift. destruct r as [a|e]; [by apply HQ|by apply HE].
Qed.

Lemma triple_get {A} (P : state → Prop) (f : state → A)
    (Q : A → state → Prop) (E : state → Prop) :
  (∀ s, P s → Q (f s) s) → triple P (get f) Q E.
Proof. intros H s Hs. by apply H. Qed.

Lemma triple_modify (P : state → Prop) (f : state → state)
    (Q : unit → state → Prop) (E : state → Prop) :
  (∀ s, P s → Q tt (f s)) → triple P (modify f) Q E.
Proof. intros H s Hs. by apply H. Qed.

Lemma triple_bind {A B} (P : state → Prop) (m : M A) (R : A → state → Prop)
    (k : A → M B) (Q : B → state → Prop) (E : state → Prop) :
  triple P m R E → (∀ a, triple (R a) (k a) Q E) → triple P (m ≫= k) Q E.
Proof.
  intros Hm Hk s Hs. unfold mbind, M_bind, bind.
  specialize (Hm s Hs). destruct (m s) as [[a|e] s']; [|done].
  by apply Hk.
Qed.

Lemma triple_try_except {A} (P : state → Prop) (body : M A)
    (handler : exn → M A) (Q : A → state → Prop) (E' E : state → Prop) :
  triple P body Q E' → (∀ e, triple E' (handler e) Q E) →
  triple P (try_except body handler) Q E.
Proof.
  intros Hb Hh s Hs. unfold try_except.
  specialize (Hb s Hs). destruct (body s) as [[a|e] s']; [done|].
  by apply Hh.
Qed.

Lemma triple_conseq {A} (P P' : state → Prop) (m : M A)
    (Q Q' : A → state → Prop) (E E' : state → Prop) :
  triple P' m Q' E' → (∀ s, P s → P' s) → (∀ a s, Q' a s → Q a s) →
  (∀ s, E' s → E s) → triple P m Q E.
Proof.
  intros Hm HP HQ HE s Hs. specialize (Hm s (HP s Hs)).
  destruct (m s) as [[a|e] s']; [by apply HQ|by apply HE].
Qed.

Lemma triple_pure {A} (φ : Prop) (P : state → Prop) (m : M A)
    (Q : A → state → Prop) (E : state → Prop) :
  (φ → triple P m Q E) → triple (λ s, φ ∧ P s) m Q E.
Proof. intros H s [Hφ Hs]. by apply H. Qed.

Lemma triple_deref (P : state → Prop) (r : nat) (Q : Note → state → Prop)
    (E : state → Prop) :
  (∀ s n, heap s !! r = Some n → P s → Q n s) → (∀ s, P s → E s) →
  triple P (deref r) Q E.
Proof.
  intros HQ HE s Hs. unfold deref.
  destruct (heap s !! r) as [n|] eqn:Hn; [by apply HQ|by apply HE].
Qed.

Lemma triple_item (P : state → Prop) (l : list nat) (i : Z)
    (Q : nat → state → Prop) (E : state → Prop) :
  (∀ s r, l !! Z.to_nat i = Some r → P s → Q r s) → (∀ s, P s → E s) →
  triple P (item l i) Q E.
Proof.
  intros HQ HE s Hs. unfold item.
  destruct (l !! Z.to_nat i) as [r|] eqn:Hr; [by apply HQ|by apply HE].
Qed.

Lemma triple_now (P : state → Prop) (Q : datetime → state → Prop)
    (E : state → Prop) :
  (∀ s, P s → Q (clock (ticks s)) (with_ticks (S (ticks s)) s)) →
  triple P (now clock) Q E.
Proof. intros H s Hs. by apply H. Qed.

Lemma triple_store (P : state → Prop) (r : nat) (n : Note)
    (Q : unit → state → Prop) (E : state → Prop) :
  (∀ s, P s → Q tt (with_heap (<[r := n]> (heap s)) s)) →
  triple P (store r n) Q E.
Proof. intros H. by apply triple_modify. Qed.

Lemma triple_Note_init (P : state → Prop) (title content : string)
    (is_code : bool) (tags : option (list string)) (category : option string)
    (Q : nat → state → Prop) (E : state → Prop) :
  (∀ s, P s →
     Q (length (heap s))
       (with_heap (heap s ++ [mkNote title content is_code (default [] tags)
                                category (clock (ticks s)) (clock (ticks s))])
          (with_ticks (S (ticks s)) s))) →
  triple P (Note_init clock title content is_code tags category) Q E.
Proof. intros H s Hs. exact (H s Hs). Qed.

Lemma triple_save_notes (P : state → Prop) (Q : unit → state → Prop)
    (E : state → Prop) :
  (∀ s, P s → Q tt (save_notes s).2) → triple P save_notes Q E.
Proof.
  intros H s Hs. specialize (H s Hs). by rewrite save_notes_writes in *.
Qed.

Lemma triple_for_each {A B} (I : list B → state → Prop) (f : A → M B)
    (l : list A) (E : state → Prop) :
  (∀ x ys, x ∈ l → triple (I ys) (f x) (λ y, I (ys ++ [y])%list) E) →
  triple (I []) (for_each f l) (λ ys s, length ys = length l ∧ I ys s) E.
Proof.
  intros Hf.
  assert (∀ done_, triple (I done_) (for_each f l)
                     (λ ys s, length ys = length l ∧ I (done_ ++ ys)%list s) E)
    as Hgen.
  { induction l as [|x l IH]; intros done_.
    - apply triple_ret. intros s Hs. by rewrite app_nil_r.
    - cbn [for_each]. eapply triple_bind; [apply Hf; by left|].
      intros y. eapply triple_bind.
      { apply IH. intros x' ys Hx'. apply Hf. by right. }
      intros ys. apply triple_ret. intros s [Hlen Hs].
      split; [simpl; by rewrite Hlen|].
      by rewrite <- app_assoc in Hs. }
  apply Hgen.
Qed.

(** ** The lists of the window stay in good shape *)

Lemma tidy_frame (s s' : state) :
  (length (heap s) ≤ length (heap s'))%nat → notes s' = notes s →
  filtered_notes s' = filtered_notes s → tidy s → tidy s'.
Proof.
  intros Hh Hn Hf (Hnd & Halloc & Hsub). unfold tidy. rewrite Hn, Hf.
  split; [done|]. split; [|done]. intros r Hr. specialize (Halloc r Hr). lia.
Qed.

Lemma stays_bind {A B} (m : M A) (k : A → M B) :
  stays m → (∀ a, stays (k a)) → stays (m ≫= k).
Proof. intros Hm Hk. by eapply triple_bind. Qed.

Lemma stays_ret {A} (a : A) : stays (ret a).
Proof. by apply triple_ret. Qed.

Lemma stays_lift {A} (r : result A) : stays (lift r).
Proof. by apply triple_lift. Qed.

Lemma stays_get {A} (f : state → A) : stays (get f).
Proof. by apply triple_get. Qed.

Lemma stays_deref (r : nat) : stays (deref r).
Proof. by apply triple_deref. Qed.

Lemma stays_item (l : list nat) (i : Z) : stays (item l i).
Proof. by apply triple_item. Qed.

Lemma stays_now : stays (now clock).
Proof. apply triple_now. intros s. by apply tidy_frame. Qed.

Lemma stays_store (r : nat) (n : Note) : stays (store r n).
Proof.
  apply triple_store. intros s. apply tidy_frame; try done.
  simpl. by rewrite length_insert.
Qed.

Lemma stays_save_notes : stays save_notes.
Proof.
  apply triple_save_notes. intros s. rewrite save_notes_writes. simpl.
  destruct (mapM _ _); [|done]. by apply tidy_frame.
Qed.

Lemma stays_for_each {A B} (f : A → M B) (l : list A) :
  (∀ x, stays (f x)) → stays (for_each f l).
Proof.
  intros Hf. eapply triple_conseq.
  - apply (triple_for_each (λ _, tidy) f l tidy). intros x ys _. apply Hf.
  - done.
  - by intros ys s [_ ?].
  - done.
Qed.

(** A list comprehension over the notes yields some of them, in their
    order. *)
Lemma comprehension_selected (p : Note → bool) (l : list nat) (s : state) :
  (∀ r, r ∈ l → is_Some (heap s !! r)) →
  comprehension p l s = (Return (selected p s l), s).
Proof.
  intros Hl. unfold comprehension, mbind, M_bind, bind.
  rewrite for_each_deref.
  assert (∃ ns, mapM (λ r, heap s !! r) l = Some ns
                ∧ fst <$> filter (λ rn : nat * Note, p rn.2 = true) (zip l ns)
                  = selected p s l) as (ns & -> & Heq).
  { induction l as [|r l IH]; [by exists []|].
    destruct (Hl r) as [n Hn]; [by left|].
    destruct IH as (ns & Hns & Heq); [intros r' ?; apply Hl; by right|].
    exists (n :: ns). cbn [mapM]. rewrite Hn, Hns. split; [done|].
    unfold selected in *. cbn [zip zip_with]. rewrite !filter_cons, Hn.
    cbn [fmap option_fmap option_map snd].
    destruct (p n) eqn:Hp.
    - rewrite decide_True by done. rewrite decide_True by done.
      rewrite fmap_cons. by rewrite Heq.
    - rewrite decide_False by done. rewrite decide_False by congruence.
      done. }
  unfold ret. by rewrite Heq.
Qed.

Lemma stays_filtered (l' : list nat) :
  triple (λ s, tidy s ∧ ∀ r, r ∈ l' → r ∈ notes s)
    (modify (with_filtered_notes l')) (λ _, tidy) tidy.
Proof.
  apply triple_modify. intros s [(Hnd & Halloc & _) Hsub]. done.
Qed.

Lemma stays_comprehension (p : Note → bool) :
  ∀ l, triple (λ s, tidy s ∧ l = notes s) (comprehension p l)
         (λ l' s, tidy s ∧ ∀ r, r ∈ l' → r ∈ notes s) tidy.
Proof.
  intros l s [Hs ->]. pose proof Hs as (_ & Halloc & _).
  rewrite comprehension_selected.
  - split; [done|]. intros r Hr. unfold selected in Hr.
    by apply list_elem_of_filter in Hr as [_ ?].
  - intros r Hr. apply lookup_lt_is_Some. by apply Halloc.
Qed.

Lemma stays_filter_notes (filter_type filter_value : string) :
  stays (filter_notes clock filter_type filter_value).
Proof.
  unfold filter_notes.
  apply (triple_bind _ _ (λ l s, tidy s ∧ l = notes s));
    [by apply triple_get|]. intros l.
  assert (∀ p, triple (λ s, tidy s ∧ l = notes s)
                 (comprehension p l ≫= λ l', modify (with_filtered_notes l'))
                 (λ _, tidy) tidy) as Hcomp.
  { intros p. eapply triple_bind; [apply stays_comprehension|].
    intros l'. apply stays_filtered. }
  repeat case_match; try apply Hcomp.
  - apply triple_modify. intros s [(Hnd & Halloc & _) ->]. done.
  - apply (triple_bind _ _ (λ _ s, tidy s ∧ l = notes s)).
    { apply triple_now. intros s [Hs ->]. split; [|done].
      revert Hs. by apply tidy_frame. }
    intros t. apply (triple_bind _ _ (λ _ s, tidy s ∧ l = notes s)).
    { apply triple_lift; [by intros|by intros s [? _]]. }
    intros d. apply Hcomp.
  - apply triple_ret. by intros s [? _].
Qed.

Lemma stays_search_notes (text : string) : stays (search_notes clock text).
Proof. unfold search_notes. case_match; apply stays_filter_notes. Qed.

Lemma stays_save_current_note (editor_content : string) :
  stays (save_current_note clock editor_content).
Proof.
  unfold save_current_note. apply stays_bind; [apply stays_get|]. intros i.
  case_match; [apply stays_ret|].
  apply stays_bind; [apply stays_get|]. intros l.
  apply stays_bind; [apply stays_item|]. intros note.
  apply stays_bind; [apply stays_deref|]. intros n.
  apply stays_bind; [apply stays_store|]. intros _.
  apply stays_bind; [apply stays_now|]. intros t.
  apply stays_bind; [apply stays_deref|]. intros n'.
  apply stays_bind; [apply stays_store|]. intros _.
  apply stays_save_notes.
Qed.

Lemma stays_handle_note_selection (index : Z) (editor_content : string) :
  stays (handle_note_selection clock index editor_content).
Proof.
  unfold handle_note_selection. apply stays_bind; [apply stays_get|]. intros l.
  case_match; [apply stays_ret|].
  apply stays_bind; [apply stays_get|]. intros i.
  apply stays_bind.
  { case_match; [apply stays_save_current_note|apply stays_ret]. }
  intros _. apply stays_bind; [by apply triple_modify|]. intros _.
  apply stays_bind; [apply stays_get|]. intros l'.
  apply stays_bind; [apply stays_item|]. intros note.
  apply stays_bind; [apply stays_deref|]. intros _. apply stays_ret.
Qed.

(** A new object is not yet in the list. *)
Lemma tidy_append (s : state) (n : Note) :
  tidy s →
  tidy (with_filtered_notes (notes s ++ [length (heap s)])
          (with_notes (notes s ++ [length (heap s)])
             (with_heap (heap s ++ [n]) s))).
Proof.
  intros (Hnd & Halloc & Hsub). unfold tidy. simpl.
  split; [|split; [|done]].
  - apply NoDup_app. split; [done|]. split; [|apply NoDup_singleton].
    intros r Hr ->%list_elem_of_singleton. specialize (Halloc _ Hr). lia.
  - intros r [Hr| ->%list_elem_of_singleton]%elem_of_app;
      rewrite length_app; simpl; [specialize (Halloc r Hr)|]; lia.
Qed.

Lemma stays_create_new_note (dialog : new_note_dialog)
    (editor_content : string) :
  stays (create_new_note clock dialog editor_content).
Proof.
  unfold create_new_note.
  eapply (triple_bind _ _ (λ note s, ∃ s0 n, tidy s0 ∧ note = length (heap s0)
                             ∧ notes s = notes s0
                             ∧ filtered_notes s = filtered_notes s0
                             ∧ heap s = (heap s0 ++ [n])%list)).
  { apply triple_Note_init. intros s Hs. by eexists s, _. }
  intros note.
  eapply (triple_bind _ _ (λ l s, ∃ s0 n, tidy s0 ∧ note = length (heap s0)
                             ∧ notes s = notes s0
                             ∧ filtered_notes s = filtered_notes s0
                             ∧ heap s = (heap s0 ++ [n])%list ∧ l = notes s0)).
  { apply triple_get. intros s (s0 & n & ? & ? & Hn & ? & ?).
    exists s0, n. by rewrite Hn. }
  intros l.
  eapply (triple_bind _ _ (λ _ s, ∃ s0 n, tidy s0
                             ∧ notes s = (notes s0 ++ [length (heap s0)])%list
                             ∧ heap s = (heap s0 ++ [n])%list)).
  { apply triple_modify. intros s (s0 & n & ? & -> & Hn & ? & ? & ->).
    by exists s0, n. }
  intros _.
  eapply (triple_bind _ _ (λ l s, ∃ s0 n, tidy s0
                             ∧ notes s = (notes s0 ++ [length (heap s0)])%list
                             ∧ heap s = (heap s0 ++ [n])%list ∧ l = notes s)).
  { apply triple_get. intros s (s0 & n & ? & ? & ?). by exists s0, n. }
  intros l'.
  eapply (triple_bind _ _ (λ _, tidy)).
  { apply triple_modify. intros s (s0 & n & Hs0 & Hn & Hh & ->).
    pose proof (tidy_append s0 n Hs0) as (Hnd & Halloc & Hsub).
    simpl in *. unfold tidy. simpl. rewrite Hn, Hh. done. }
  intros _.
  apply stays_bind; [apply stays_handle_note_selection|]. intros _.
  apply stays_bind; [apply stays_get|]. intros sidebar.
  by apply triple_modify.
Qed.

Lemma stays_delete_current_note (confirm : bool) :
  stays (delete_current_note confirm).
Proof.
  unfold delete_current_note. apply stays_bind; [apply stays_get|]. intros i.
  case_match; [apply stays_ret|].
  apply stays_bind; [apply stays_get|]. intros l.
  apply stays_bind; [apply stays_item|]. intros note.
  apply stays_bind; [apply stays_deref|]. intros _.
  destruct confirm; [|apply stays_ret].
  eapply (triple_bind _ _ (λ l s, tidy s ∧ l = notes s));
    [by apply triple_get|]. intros l'.
  case_match; [|apply triple_ret; by intros s [? _]].
  assert (∀ s, tidy s ∧ l' = notes s →
            tidy (with_filtered_notes (delete n l')
                    (with_notes (delete n l') s))) as Hdel.
  { intros s [(Hnd & Halloc & _) ->]. unfold tidy. simpl.
    pose proof (sublist_delete (notes s) n) as Hsl.
    split; [by eapply sublist_NoDup|]. split; [|done].
    intros r Hr. apply Halloc. by eapply elem_of_sublist. }
  eapply (triple_bind _ _ (λ _ s, notes s = delete n l'
            ∧ tidy (with_filtered_notes (notes s) s))).
  { apply triple_modify. intros s Hs. split; [done|]. by apply Hdel. }
  intros _.
  eapply (triple_bind _ _ (λ _ s, notes s = delete n l'
            ∧ tidy (with_filtered_notes (notes s) s))).
  { by apply triple_modify. }
  intros _.
  eapply (triple_bind _ _ (λ l s, l = notes s
            ∧ tidy (with_filtered_notes (notes s) s))).
  { apply triple_get. by intros s [_ ?]. }
  intros l''.
  eapply (triple_bind _ _ (λ _, tidy)); [|intros _; apply stays_save_notes].
  unfold set_notes.
  eapply (triple_bind _ _ (λ _ s, l'' = notes s
            ∧ tidy (with_filtered_notes (notes s) s))).
  { apply triple_modify. by intros s [-> ?]. }
  intros _. apply triple_modify. by intros s [-> ?].
Qed.

Lemma stays_closeEvent (editor_content : string) :
  stays (closeEvent clock editor_content).
Proof.
  unfold closeEvent. apply stays_bind; [apply stays_get|]. intros i.
  apply stays_bind; [|intros _; apply stays_save_notes].
  case_match; [apply stays_save_current_note|apply stays_ret].
Qed.

(** [from_dict] allocates one object, also when it raises on a date. *)
Lemma from_dict_allocates (data : json) (h : nat) :
  triple (λ s, length (heap s) = h) (from_dict clock data)
    (λ r s, r = h ∧ length (heap s) = S h) (λ _, True).
Proof.
  unfold from_dict.
  do 6 (apply (triple_bind _ _ (λ _ s, length (heap s) = h));
        [apply triple_lift; [by intros|done]|intros ?]).
  apply (triple_bind _ _ (λ note s, note = h ∧ length (heap s) = S h)).
  { apply triple_Note_init. intros s Hs. simpl.
    rewrite length_app. simpl. lia. }
  intros note.
  apply (triple_bind _ _ (λ _ s, note = h ∧ length (heap s) = S h));
    [by apply triple_now|intros ?].
  apply (triple_bind _ _ (λ _ s, note = h ∧ length (heap s) = S h));
    [apply triple_lift; [by intros|done]|intros ?].
  apply (triple_bind _ _ (λ _ s, note = h ∧ length (heap s) = S h));
    [apply triple_deref; [by intros|done]|intros ?].
  apply (triple_bind _ _ (λ _ s, note = h ∧ length (heap s) = S h)).
  { apply triple_store. intros s [? ?]. simpl. by rewrite length_insert. }
  intros _.
  apply (triple_bind _ _ (λ _ s, note = h ∧ length (heap s) = S h));
    [by apply triple_now|intros ?].
  apply (triple_bind _ _ (λ _ s, note = h ∧ length (heap s) = S h));
    [apply triple_lift; [by intros|done]|intros ?].
  apply (triple_bind _ _ (λ _ s, note = h ∧ length (heap s) = S h));
    [apply triple_deref; [by intros|done]|intros ?].
  apply (triple_bind _ _ (λ _ s, note = h ∧ length (heap s) = S h)).
  { apply triple_store. intros s [? ?]. simpl. by rewrite length_insert. }
  intros _. by apply triple_ret.
Qed.

(** Reading a list of dicts allocates the objects one after the
    other. *)
Lemma for_each_from_dict_allocates (items : list json) (h : nat) :
  triple (λ s, length (heap s) = h) (for_each (from_dict clock) items)
    (λ l s, l = seq h (length items)
            ∧ length (heap s) = (h + length items)%nat) (λ _, True).
Proof.
  eapply triple_conseq.
  - apply (triple_for_each
             (λ ys s, ys = seq h (length ys)
                      ∧ length (heap s) = (h + length ys)%nat)
             (from_dict clock) items (λ _, True)).
    intros x ys _. apply triple_pure. intros Hys. eapply triple_conseq.
    + apply (from_dict_allocates x (h + length ys)).
    + done.
    + intros r s [-> Hlen]. rewrite length_app. simpl.
      rewrite Nat.add_1_r, seq_S. split; [|lia]. by rewrite <- Hys.
    + done.
  - intros s Hs. simpl. split; [done|lia].
  - intros l s [Hlen [Hl Hh]]. by rewrite Hlen in *.
  - done.
Qed.

Lemma tidy_seq (s : state) (h n : nat) :
  notes s = seq h n → filtered_notes s = seq h n →
  length (heap s) = (h + n)%nat → tidy s.
Proof.
  intros Hn Hf Hh. unfold tidy. rewrite Hn, Hf, Hh.
  split; [apply NoDup_seq|]. split; [|done].
  intros r Hr%elem_of_seq. lia.
Qed.

Lemma create_sample_notes_tidy (P : state → Prop) :
  triple P (create_sample_notes clock) (λ _, tidy) tidy.
Proof.
  intros s _. rewrite create_sample_notes_result.
  apply (tidy_seq _ (length (heap s)) 2); [done|done|].
  simpl. rewrite length_app. simpl. lia.
Qed.

Lemma load_notes_tidy (h : nat) :
  triple (λ s, length (heap s) = h) (load_notes clock) (λ _, tidy) tidy.
Proof.
  unfold load_notes.
  apply (triple_bind _ _ (λ _ s, length (heap s) = h));
    [by apply triple_get|]. intros [f|]; [|apply create_sample_notes_tidy].
  apply (triple_try_except _ _ _ _ (λ _, True));
    [|intros e; apply create_sample_notes_tidy].
  do 3 (apply (triple_bind _ _ (λ _ s, length (heap s) = h));
        [apply triple_lift; [by intros|done]|intros ?]).
  eapply triple_bind; [apply for_each_from_dict_allocates|]. intros l.
  set (n := length a1).
  apply (triple_bind _ _ (λ _ s, notes s = seq h n
                                 ∧ length (heap s) = (h + n)%nat)).
  { apply triple_modify. by intros s [-> ?]. }
  intros _.
  apply (triple_bind _ _ (λ _ s, notes s = seq h n
                                 ∧ length (heap s) = (h + n)%nat));
    [apply triple_lift; [by intros|done]|intros ?].
  apply (triple_bind _ _ (λ _ s, notes s = seq h n
                                 ∧ length (heap s) = (h + n)%nat));
    [by apply triple_modify|intros _].
  apply (triple_bind _ _ (λ _ s, notes s = seq h n
                                 ∧ length (heap s) = (h + n)%nat));
    [apply triple_lift; [by intros|done]|intros ?].
  apply (triple_bind _ _ (λ _ s, notes s = seq h n
                                 ∧ length (heap s) = (h + n)%nat));
    [by apply triple_modify|intros _].
  apply (triple_bind _ _ (λ l' s, l' = seq h n
                                 ∧ length (heap s) = (h + n)%nat)).
  { apply triple_get. by intros s [-> ?]. }
  intros l'. unfold set_notes.
  apply (triple_bind _ _ (λ _ s, l' = seq h n ∧ notes s = seq h n
                                 ∧ length (heap s) = (h + n)%nat)).
  { apply triple_modify. by intros s [-> ?]. }
  intros _. apply triple_modify. intros s (-> & Hn & Hh).
  by apply (tidy_seq _ h n).
Qed.

Lemma MainWindow_init_tidy (P : state → Prop) :
  triple P (MainWindow_init clock) (λ _, tidy) tidy.
Proof.
  unfold MainWindow_init.
  apply (triple_bind _ _ (λ _ s, length (heap s) = 0%nat));
    [by apply triple_modify|]. intros _. apply load_notes_tidy.
Qed.

Lemma stays_handle (ev : event) : stays (handle clock ev).
Proof.
  destruct ev; simpl;
    auto using MainWindow_init_tidy, stays_create_new_note,
      stays_handle_note_selection, stays_save_current_note,
      stays_delete_current_note, stays_filter_notes, stays_search_notes,
      stays_closeEvent.
  apply MainWindow_init_tidy.
Qed.

Lemma reachable_tidy (s : state) : reachable clock s → tidy s.
Proof.
  induction 1 as [t|ev s _ IH].
  - pose proof (MainWindow_init_tidy (λ _, True) (installed t) I) as H.
    change (tidy (MainWindow_init clock (installed t)).2).
    revert H. by destruct (MainWindow_init clock (installed t)) as [[[]|e] s'].
  - pose proof (stays_handle ev s IH) as H.
    revert H. by destruct (handle clock ev s) as [[[]|e] s'].
Qed.

Lemma tidy_notes (s : state) :
  tidy s →
  ∃ ns, mapM (λ r, heap s !! r) (notes s) = Some ns
        ∧ notes_of s = Some <$> ns.
Proof.
  intros (_ & Halloc & _). unfold notes_of.
  induction (notes s) as [|r l IH]; [by exists []|].
  destruct (lookup_lt_is_Some_2 (heap s) r) as [n Hn]; [apply Halloc; by left|].
  destruct IH as (ns & Hns & Heq); [intros r' ?; apply Halloc; by right|].
  exists (n :: ns). cbn [mapM]. by rewrite Hn, Hns, !fmap_cons, Hn, Heq.
Qed.

(** The dialogs of the sidebar and File > Save All. *)
Lemma stays_add_category (accepted : bool) (name_input : string) :
  stays (add_category accepted name_input).
Proof.
  unfold add_category. destruct accepted; [|apply stays_ret].
  destruct (truthy (strip name_input)); [|apply stays_ret].
  apply stays_bind; [apply stays_get|]. intros categories.
  case_bool_decide; [apply stays_ret|]. by apply triple_modify.
Qed.

Lemma stays_add_tag (accepted : bool) (name_input : string) :
  stays (add_tag accepted name_input).
Proof.
  unfold add_tag. destruct accepted; [|apply stays_ret].
  destruct (truthy (strip name_input)); [|apply stays_ret].
  apply stays_bind; [apply stays_get|]. intros tags.
  case_bool_decide; [apply stays_ret|]. by apply triple_modify.
Qed.

Lemma stays_perform (a : action) : stays (perform clock a).
Proof.
  destruct a; simpl;
    auto using stays_handle, stays_add_category, stays_add_tag,
      stays_save_notes.
Qed.

Lemma reachable_by_user_tidy (s : state) : reachable_by_user clock s → tidy s.
Proof.
  induction 1 as [t|a s _ IH].
  - pose proof (MainWindow_init_tidy (λ _, True) (installed t) I) as H.
    change (tidy (MainWindow_init clock (installed t)).2).
    revert H. by destruct (MainWindow_init clock (installed t)) as [[[]|e] s'].
  - pose proof (stays_perform a s IH) as H.
    revert H. by destruct (perform clock a s) as [[[]|e] s'].
Qed.

Lemma keeps_add_category (accepted : bool) (name_input : string) :
  keeps clock (add_category accepted name_input).
Proof.
  unfold add_category. destruct accepted; [|apply keeps_ret].
  destruct (truthy (strip name_input)); [|apply keeps_ret].
  apply keeps_bind; [apply keeps_get|]. intros categories.
  case_bool_decide; [apply keeps_ret|]. by apply keeps_modify.
Qed.

Lemma keeps_add_tag (accepted : bool) (name_input : string) :
  keeps clock (add_tag accepted name_input).
Proof.
  unfold add_tag. destruct accepted; [|apply keeps_ret].
  destruct (truthy (strip name_input)); [|apply keeps_ret].
  apply keeps_bind; [apply keeps_get|]. intros tags.
  case_bool_decide; [apply keeps_ret|]. by apply keeps_modify.
Qed.

Lemma reachable_by_user_invariant (s : state) :
  steady clock → reachable_by_user clock s → invariant clock s.
Proof.
  intros Hclock. induction 1 as [t|a s _ IH].
  - apply keeps_handle; [done|]. split; simpl; [by constructor|done].
  - destruct a as [ev|accepted name_input|accepted name_input|]; simpl.
    + by apply keeps_handle.
    + by apply keeps_add_category.
    + by apply keeps_add_tag.
    + by apply keeps_save_notes.
Qed.

Lemma reachable_is_by_user (s : state) :
  reachable clock s → reachable_by_user clock s.
Proof.
  induction 1 as [t|ev s _ IH]; [apply by_user_start|].
  exact (by_user_action clock (Window ev) s IH).
Qed.

(** X13.  In every state that the program reaches from a first run
    without notes file by starts, new notes, selections, saves,
    deletions, filters, searches, closings, the Add Category and Add
    Tag dialogs of the sidebar and File > Save All: no note is listed
    twice, every listed note is an object that exists, and the filtered
    list shows listed notes only; so [save_notes] finds every note and
    writes the document of the listed notes, in their order, with the
    categories and tags of the sidebar. *)
Theorem reachable_lists_in_good_shape (s : state) :
  reachable_by_user clock s →
  tidy s ∧
  ∃ ns, notes_of s = Some <$> ns ∧
    save_notes s
    = (Return tt,
       with_notes_file
         (Some (Document (document ns (sidebar_categories s) (sidebar_tags s))))
         s).
Proof.
  intros Hs%reachable_by_user_tidy. split; [done|].
  destruct (tidy_notes s Hs) as (ns & Hns & Heq).
  exists ns. split; [done|]. by rewrite save_notes_writes, Hns.
Qed.

(** X14.  Closing the window and starting the program again brings
    back what was shown, in every state reached by the actions of X13,
    so also after categories and tags were added in the sidebar: when
    [closeEvent] returns, the next start loads as many notes, in the
    same order, with the same fields, and the categories and tags of
    the sidebar; no note is selected and no filter is set. *)
Theorem notes_survive_restart (s : state) (editor_content : string) :
  steady clock → reachable_by_user clock s →
  (handle clock (Close editor_content) s).1 = Return tt →
  let s1 := (handle clock (Close editor_content) s).2 in
  let s2 := (handle clock Start s1).2 in
  (handle clock Start s1).1 = Return tt ∧
  notes_of s2 = notes_of s1 ∧
  sidebar_categories s2 = sidebar_categories s1 ∧
  sidebar_tags s2 = sidebar_tags s1 ∧
  current_note_index s2 = (-1)%Z ∧
  filtered_notes s2 = notes s2.
Proof.
  intros Hclock Hs Hret. cbn zeta.
  (* the state in which [save_notes] runs *)
  assert (∃ s', reachable_by_user clock s' ∧
            handle clock (Close editor_content) s = save_notes s')
    as (s' & Hs' & Heq).
  { cbn [handle] in Hret |- *.
    destruct (0 <=? current_note_index s)%Z eqn:Hi.
    - pose proof (by_user_action clock (Window (Save editor_content)) s Hs)
        as Hr.
      cbn [perform handle] in Hr.
      assert (closeEvent clock editor_content s
              = bind (save_current_note clock editor_content)
                  (λ _, save_notes) s) as Hce.
      { unfold closeEvent, mbind, M_bind, bind at 1, get. by rewrite Hi. }
      rewrite Hce in Hret |- *. unfold bind in Hret |- *.
      destruct (save_current_note clock editor_content s) as [[[]|e] s'];
        [|done].
      exists s'. split; [exact Hr|reflexivity].
    - exists s. split; [exact Hs|].
      unfold closeEvent, mbind, M_bind, bind, get, ret. by rewrite Hi. }
  rewrite Heq.
  pose proof (reachable_by_user_tidy s' Hs') as Htidy.
  pose proof (reachable_by_user_invariant s' Hclock Hs') as [Hheap _].
  destruct (tidy_notes s' Htidy) as (ns & Hns & Hnotes).
  assert (Forall dates_valid ns) as Hvalid.
  { apply Forall_forall. intros n Hn. rewrite Forall_forall in Hheap.
    by destruct (Hheap n (mapM_lookup_elem _ _ _ Hns n Hn)) as [? _]. }
  rewrite save_notes_writes, Hns. cbn [snd].
  set (f := Some (Document (document ns (sidebar_categories s')
                              (sidebar_tags s')))).
  assert (handle clock Start (with_notes_file f s')
          = (Return tt,
             mkState (3 * length ns + ticks s') ns
               (seq 0 (length ns)) (seq 0 (length ns)) (-1)
               (sidebar_categories s') (sidebar_tags s') f)) as ->.
  { cbn [handle]. unfold MainWindow_init, mbind, M_bind, bind, modify.
    by rewrite (load_notes_reads clock ns (sidebar_categories s')
                  (sidebar_tags s')). }
  cbn [fst snd]. split; [done|].
  unfold notes_of at 1 2. cbn [heap notes with_notes_file].
  fold (notes_of s'). rewrite Hnotes.
  split; [apply (lookup_allocated [] ns)|done].
Qed.

(** ** Saving and deleting the selected note *)

Lemma save_current_note_run (s : state) (editor_content : string)
    (r : nat) (n : Note) :
  (0 ≤ current_note_index s)%Z →
  filtered_notes s !! Z.to_nat (current_note_index s) = Some r →
  heap s !! r = Some n →
  save_current_note clock editor_content s
  = save_notes
      (with_ticks (S (ticks s))
         (with_heap (<[r := edited n editor_content (clock (ticks s))]>
                       (heap s)) s)).
Proof.
  intros Hi Hr Hn.
  unfold save_current_note, mbind, M_bind, bind at 1, get at 1.
  cbv beta iota. rewrite (proj2 (Z.ltb_ge _ _) Hi).
  pose proof (lookup_lt_Some _ _ _ Hn) as Hlt.
  unfold bind at 1, get at 1. unfold bind at 1, item. rewrite Hr.
  unfold ret at 1. unfold bind at 1, deref at 1. rewrite Hn.
  unfold bind at 1, store at 1, modify at 1.
  unfold bind at 1, now at 1.
  unfold bind at 1, deref at 1. cbn [heap with_heap with_ticks].
  rewrite list_lookup_insert_eq by done.
  unfold bind at 1, store at 1, modify at 1.
  cbn [heap with_heap with_ticks ticks title content is_code tags category
       created_date modified_date].
  by rewrite list_insert_insert_eq.
Qed.

(** X15.  [save_current_note]: with no note selected it does nothing;
    with an index past the end of the filtered list it raises
    [IndexError] and changes nothing; otherwise it puts the content of
    the editor and the time of the clock into the selected note,
    leaves its other fields and every other note as they are, and
    saves the notes. *)
Theorem save_current_note_edits_selected (s : state) (editor_content : string) :
  ((current_note_index s < 0)%Z →
   save_current_note clock editor_content s = (Return tt, s)) ∧
  ((0 ≤ current_note_index s)%Z →
   filtered_notes s !! Z.to_nat (current_note_index s) = None →
   save_current_note clock editor_content s = (Raise IndexError, s)) ∧
  (∀ r n, (0 ≤ current_note_index s)%Z →
     filtered_notes s !! Z.to_nat (current_note_index s) = Some r →
     heap s !! r = Some n →
     save_current_note clock editor_content s
     = save_notes
         (with_ticks (S (ticks s))
            (with_heap (<[r := edited n editor_content (clock (ticks s))]>
                          (heap s)) s))).
Proof.
  split; [|split]; [intros Hi|intros Hi Hnone|apply save_current_note_run];
    unfold save_current_note, mbind, M_bind, bind at 1, get at 1;
    cbv beta iota.
  - by rewrite (proj2 (Z.ltb_lt _ _) Hi).
  - rewrite (proj2 (Z.ltb_ge _ _) Hi).
    unfold bind, get, item. by rewrite Hnone.
Qed.

(** ** Filters and the search box *)

Lemma selected_spec (p : Note → bool) (s : state) (l : list nat) :
  selected p s l `sublist_of` l ∧
  ∀ r, r ∈ selected p s l
       ↔ r ∈ l ∧ ∃ n, heap s !! r = Some n ∧ p n = true.
Proof.
  unfold selected. split; [apply sublist_filter|].
  intros r. rewrite list_elem_of_filter. split.
  - intros [Hp Hr]. split; [done|].
    destruct (heap s !! r) as [n|]; [|done]. exists n.
    split; [done|]. by injection Hp.
  - intros [Hr (n & -> & Hp)]. split; [|done]. simpl. by rewrite Hp.
Qed.

Lemma filter_notes_shows (p : Note → bool) (s : state) :
  (∀ r, r ∈ notes s → is_Some (heap s !! r)) →
  (comprehension p (notes s) ≫= λ l', modify (with_filtered_notes l')) s
  = (Return tt, with_filtered_notes (selected p s (notes s)) s).
Proof.
  intros Hs. unfold mbind, M_bind, bind.
  by rewrite comprehension_selected.
Qed.

(** X17.  The filters of the sidebar, when every listed note exists:
    [all] shows the whole list; [code], [category] and [tag] show the
    listed notes that are code, that have this category, that carry
    this tag, in the order of the list; a filter type that is none of
    the six changes nothing.  None of them reads the clock or changes
    anything but the filtered list. *)
Theorem filter_notes_selects (s : state) (filter_type filter_value : string) :
  (∀ r, r ∈ notes s → is_Some (heap s !! r)) →
  filter_notes clock "all" filter_value s
  = (Return tt, with_filtered_notes (notes s) s) ∧
  filter_notes clock "code" filter_value s
  = (Return tt, with_filtered_notes (selected is_code s (notes s)) s) ∧
  filter_notes clock "category" filter_value s
  = (Return tt,
     with_filtered_notes
       (selected (λ n, bool_decide (category n = Some filter_value)) s
          (notes s)) s) ∧
  filter_notes clock "tag" filter_value s
  = (Return tt,
     with_filtered_notes
       (selected (λ n, bool_decide (filter_value ∈ tags n)) s (notes s)) s) ∧
  (filter_type ∉ ["all"; "recent"; "code"; "category"; "tag"; "search"] →
   filter_notes clock filter_type filter_value s = (Return tt, s)) ∧
  (∀ p, selected p s (notes s) `sublist_of` notes s ∧
        ∀ r, r ∈ selected p s (notes s)
             ↔ r ∈ notes s ∧ ∃ n, heap s !! r = Some n ∧ p n = true).
Proof.
  intros Hs.
  assert (∀ ft, filter_notes clock ft filter_value s
    = (if String.eqb ft "all" then modify (with_filtered_notes (notes s))
       else if String.eqb ft "recent" then
         t ← now clock;
         seven_days_ago ← lift (minus_days 7 t);
         l' ← comprehension
                (λ note, dt_leb seven_days_ago (modified_date note)) (notes s);
         modify (with_filtered_notes l')
       else if String.eqb ft "code" then
         comprehension is_code (notes s)
           ≫= λ l', modify (with_filtered_notes l')
       else if String.eqb ft "category" then
         comprehension (λ note, bool_decide (category note = Some filter_value))
           (notes s) ≫= λ l', modify (with_filtered_notes l')
       else if String.eqb ft "tag" then
         comprehension (λ note, bool_decide (filter_value ∈ tags note))
           (notes s) ≫= λ l', modify (with_filtered_notes l')
       else if String.eqb ft "search" then
         comprehension
           (λ note, Text.containsb (py_lower filter_value)
                      (py_lower (title note))
                    || Text.containsb (py_lower filter_value)
                         (py_lower (content note))) (notes s)
           ≫= λ l', modify (with_filtered_notes l')
       else ret tt) s) as Hrun by done.
  split; [|split; [|split; [|split; [|split]]]].
  - rewrite Hrun. reflexivity.
  - rewrite Hrun. change (String.eqb "code" "all") with false.
    change (String.eqb "code" "recent") with false.
    change (String.eqb "code" "code") with true. cbv iota.
    by apply filter_notes_shows.
  - rewrite Hrun. change (String.eqb "category" "all") with false.
    change (String.eqb "category" "recent") with false.
    change (String.eqb "category" "code") with false.
    change (String.eqb "category" "category") with true. cbv iota.
    by apply filter_notes_shows.
  - rewrite Hrun. change (String.eqb "tag" "all") with false.
    change (String.eqb "tag" "recent") with false.
    change (String.eqb "tag" "code") with false.
    change (String.eqb "tag" "category") with false.
    change (String.eqb "tag" "tag") with true. cbv iota.
    by apply filter_notes_shows.
  - intros Hft. rewrite Hrun.
    rewrite !not_elem_of_cons in Hft.
    destruct Hft as (H1 & H2 & H3 & H4 & H5 & H6 & _).
    by rewrite !(proj2 (String.eqb_neq _ _)) by done.
  - intros p. apply selected_spec.
Qed.

(** X18.  The search box, when every listed note exists: an empty text
    shows the whole list; any other text shows, in the order of the
    list, the notes in whose title or content the text occurs as it is
    written, up to the case of letters: no character of the text is a
    wildcard. *)
Theorem search_notes_literal (s : state) (text : string) :
  (∀ r, r ∈ notes s → is_Some (heap s !! r)) →
  search_notes clock "" s = (Return tt, with_filtered_notes (notes s) s) ∧
  (text ≠ "" →
   ∃ l, search_notes clock text s = (Return tt, with_filtered_notes l s) ∧
     l `sublist_of` notes s ∧
     ∀ r, r ∈ l ↔
       r ∈ notes s ∧
       ∃ n, heap s !! r = Some n ∧
         (Text.occurs_in (py_lower text) (py_lower (title n))
          ∨ Text.occurs_in (py_lower text) (py_lower (content n)))).
Proof.
  intros Hs. split; [done|]. intros Htext.
  unfold search_notes. destruct text as [|a text]; [done|]. cbn [truthy].
  set (p := λ note : Note,
         Text.containsb (py_lower (String a text)) (py_lower (title note))
         || Text.containsb (py_lower (String a text)) (py_lower (content note))).
  exists (selected p s (notes s)). split.
  { unfold filter_notes, mbind, M_bind, bind at 1, get at 1. cbv beta iota.
    change (String.eqb "search" "all") with false.
    change (String.eqb "search" "recent") with false.
    change (String.eqb "search" "code") with false.
    change (String.eqb "search" "category") with false.
    change (String.eqb "search" "tag") with false.
    change (String.eqb "search" "search") with true. cbv iota.
    by apply (filter_notes_shows p). }
  destruct (selected_spec p s (notes s)) as [Hsub Hin]. split; [done|].
  intros r. rewrite Hin. unfold p.
  setoid_rewrite orb_true_iff. by setoid_rewrite TextFacts.containsb_spec.
Qed.

End Program.

(** The position of a note that is in the list. *)
Lemma index_of_elem (r : nat) (l : list nat) :
  r ∈ l → ∃ k, index_of r l = Some k ∧ l !! k = Some r.
Proof.
  induction l as [|x l IH]; [by intros ?%elem_of_nil|].
  intros Hr. cbn [index_of]. destruct (x =? r)%nat eqn:Hx.
  - apply Nat.eqb_eq in Hx as ->. by exists 0%nat.
  - apply Nat.eqb_neq in Hx.
    apply elem_of_cons in Hr as [->|Hr]; [done|].
    destruct (IH Hr) as (k & -> & Hk). by exists (S k).
Qed.

Lemma filter_all {A} (P : A → Prop) `{∀ x, Decision (P x)} (l : list A) :
  (∀ x, x ∈ l → P x) → filter P l = l.
Proof.
  induction l as [|x l IH]; intros Hl; [done|].
  rewrite filter_cons_True by (apply Hl; by left).
  f_equal. apply IH. intros y Hy. apply Hl. by right.
Qed.

Lemma NoDup_delete_filter (l : list nat) (k r : nat) :
  NoDup l → l !! k = Some r → delete k l = filter (λ x, x ≠ r) l.
Proof.
  revert k. induction l as [|x l IH]; intros k Hnd Hk; [done|].
  apply NoDup_cons in Hnd as [Hx Hnd]. destruct k as [|k]; simpl in Hk.
  - injection Hk as ->. cbn [delete list_delete]. rewrite filter_cons_False by tauto.
    symmetry. apply filter_all. intros y Hy ->. done.
  - cbn [delete list_delete]. rewrite filter_cons_True.
    + f_equal. by apply IH.
    + intros ->. apply Hx. by eapply list_elem_of_lookup_2.
Qed.

(** X16.  [delete_current_note]: with no note selected, or when the
    user answers no, nothing changes.  When the user confirms, in a
    state whose lists are in good shape, the selected note leaves the
    list of notes, the other notes keep their order, no note is
    selected any more, the filter is dropped and the notes are saved. *)
Theorem delete_current_note_removes_selected (s : state) (confirm : bool) :
  ((current_note_index s < 0)%Z →
   delete_current_note confirm s = (Return tt, s)) ∧
  (∀ r, tidy s → (0 ≤ current_note_index s)%Z →
     filtered_notes s !! Z.to_nat (current_note_index s) = Some r →
     let rest := filter (λ x, x ≠ r) (notes s) in
     delete_current_note false s = (Return tt, s) ∧
     delete_current_note true s
     = save_notes
         (with_filtered_notes rest
            (with_current_note_index (-1) (with_notes rest s))) ∧
     (r ∉ rest) ∧ S (length rest) = length (notes s)).
Proof.
  split.
  - intros Hi. unfold delete_current_note, mbind, M_bind, bind at 1, get at 1.
    cbv beta iota. by rewrite (proj2 (Z.ltb_lt _ _) Hi).
  - intros r (Hnd & Halloc & Hsub) Hi Hr. cbn zeta.
    assert (r ∈ notes s) as Hin
      by (apply Hsub; by eapply list_elem_of_lookup_2).
    destruct (lookup_lt_is_Some_2 (heap s) r (Halloc r Hin)) as [n Hn].
    destruct (index_of_elem r (notes s) Hin) as (k & Hk & Hlk).
    pose proof (NoDup_delete_filter (notes s) k r Hnd Hlk) as Hdel.
    assert (∀ confirm', delete_current_note confirm' s
              = if confirm' then
                  save_notes
                    (with_filtered_notes (delete k (notes s))
                       (with_current_note_index (-1)
                          (with_notes (delete k (notes s)) s)))
                else (Return tt, s)) as Hrun.
    { intros confirm'.
      unfold delete_current_note, mbind, M_bind, bind at 1, get at 1.
      cbv beta iota. rewrite (proj2 (Z.ltb_ge _ _) Hi).
      unfold bind at 1, get at 1. unfold bind at 1, item. rewrite Hr.
      unfold ret at 1. unfold bind at 1, deref. rewrite Hn.
      destruct confirm'; [|done].
      unfold bind at 1, get at 1. rewrite Hk.
      unfold bind, modify, get, set_notes, mbind, M_bind, bind, modify.
      done. }
    rewrite !Hrun, Hdel. split; [done|]. split; [done|]. split.
    + intros [? _]%list_elem_of_filter. done.
    + rewrite <- Hdel. rewrite length_delete by (by eexists).
      apply lookup_lt_Some in Hlk. lia.
Qed.


Lemma first_selected_reachable : reachable stopped_clock first_selected.
Proof. apply reachable_event, reachable_start. Qed.

Lemma save_current_note_witness :
  (0 ≤ current_note_index first_selected)%Z ∧
  filtered_notes first_selected
    !! Z.to_nat (current_note_index first_selected) = Some 0%nat ∧
  heap first_selected !! 0%nat = Some (welcome_note noon) ∧
  heap (save_current_note stopped_clock "hello" first_selected).2
  = [edited (welcome_note noon) "hello" noon; code_note noon].
Proof.
  assert (0 ≤ current_note_index first_selected)%Z as H1 by (by vm_compute).
  split; [exact H1|]. split; [reflexivity|]. split; [reflexivity|].
  rewrite (proj2 (proj2 (save_current_note_edits_selected stopped_clock
                           first_selected "hello"))
             0%nat (welcome_note noon) H1 eq_refl eq_refl).
  reflexivity.
Defined.

Lemma delete_current_note_witness :
  tidy first_selected ∧ (0 ≤ current_note_index first_selected)%Z ∧
  filtered_notes first_selected
    !! Z.to_nat (current_note_index first_selected) = Some 0%nat ∧
  notes (delete_current_note true first_selected).2 = [1%nat].
Proof.
  assert (tidy first_selected) as Ht
    by exact (reachable_tidy stopped_clock _ first_selected_reachable).
  assert (0 ≤ current_note_index first_selected)%Z as H1 by (by vm_compute).
  split; [exact Ht|]. split; [exact H1|]. split; [reflexivity|].
  destruct (proj2 (delete_current_note_removes_selected first_selected true)
              0%nat Ht H1 eq_refl) as (_ & -> & _).
  reflexivity.
Defined.

Lemma first_run_reachable : reachable stopped_clock first_run.
Proof. apply reachable_start. Qed.

(** The first run, then the category [Ideas] is added in the sidebar. *)
Lemma with_ideas_by_user :
  reachable_by_user stopped_clock
    (perform stopped_clock (AddCategory true " Ideas ") first_run).2.
Proof.
  apply by_user_action, reachable_is_by_user, first_run_reachable.
Qed.

Lemma reachable_lists_witness :
  reachable_by_user stopped_clock
    (perform stopped_clock (AddCategory true " Ideas ") first_run).2 ∧
  NoDup (notes first_run) ∧
  sidebar_categories
    (perform stopped_clock (AddCategory true " Ideas ") first_run).2
  = ["Getting Started"; "Code Snippets"; "Personal"; "Work"; "Ideas"] ∧
  (save_notes
     (perform stopped_clock (AddCategory true " Ideas ") first_run).2).1
  = Return tt.
Proof.
  split; [exact with_ideas_by_user|].
  destruct (reachable_lists_in_good_shape stopped_clock _ with_ideas_by_user)
    as [(Hnd & _) (ns & _ & ->)].
  split; [exact Hnd|]. split; reflexivity.
Defined.

Lemma notes_survive_restart_witness :
  steady stopped_clock ∧
  reachable_by_user stopped_clock
    (perform stopped_clock (AddCategory true " Ideas ") first_run).2 ∧
  (handle stopped_clock (Close "")
     (perform stopped_clock (AddCategory true " Ideas ") first_run).2).1
  = Return tt ∧
  sidebar_categories
    (handle stopped_clock Start
       (handle stopped_clock (Close "")
          (perform stopped_clock (AddCategory true " Ideas ") first_run).2).2).2
  = ["Getting Started"; "Code Snippets"; "Personal"; "Work"; "Ideas"].
Proof.
  split; [exact stopped_clock_steady|]. split; [exact with_ideas_by_user|].
  split; [reflexivity|].
  destruct (notes_survive_restart stopped_clock _ ""
              stopped_clock_steady with_ideas_by_user eq_refl)
    as (_ & _ & -> & _).
  reflexivity.
Defined.


(** ** Loading without a file that can be read *)

Section Loading.
Variable clock : nat → datetime.

(** X19.  With no notes file, and with a notes file that is not JSON,
    [load_notes] does what [create_sample_notes] does: it returns and
    does not raise, lists the two sample notes, made at the next two
    readings of the clock, unfiltered, puts the default categories and
    tags into the sidebar, and does not write the file; the lists are
    in good shape. *)
Theorem load_notes_unreadable_shows_samples (s : state) :
  notes_file s = None ∨ notes_file s = Some Garbage →
  let s' := (load_notes clock s).2 in
  load_notes clock s = create_sample_notes clock s ∧
  (load_notes clock s).1 = Return tt ∧
  notes_of s' = [Some (welcome_note (clock (ticks s)));
                 Some (code_note (clock (S (ticks s))))] ∧
  filtered_notes s' = notes s' ∧
  sidebar_categories s'
  = ["Getting Started"; "Code Snippets"; "Personal"; "Work"] ∧
  sidebar_tags s' = ["welcome"; "tutorial"; "python"; "example"; "important"] ∧
  notes_file s' = notes_file s ∧
  tidy s'.
Proof.
  intros Hfile. cbv zeta.
  assert (load_notes clock s = create_sample_notes clock s) as ->.
  { unfold load_notes, mbind, M_bind, bind at 1, get at 1.
    by destruct Hfile as [-> | ->]. }
  split; [done|].
  pose proof (create_sample_notes_tidy clock (λ _, True) s I) as Htidy.
  revert Htidy. rewrite create_sample_notes_result. cbn [fst snd].
  intros Htidy. split; [done|]. split.
  { unfold notes_of. simpl.
    rewrite lookup_app_r, Nat.sub_diag by lia. simpl.
    rewrite lookup_app_r by lia.
    by replace (S (length (heap s)) - length (heap s))%nat with 1%nat by lia. }
  done.
Qed.

End Loading.


(** ** Selecting a note and making a new one *)

Section Selection.
Variable clock : nat → datetime.

Lemma save_current_note_filtered (editor_content : string) (l : list nat) :
  triple (λ s, filtered_notes s = l) (save_current_note clock editor_content)
    (λ _ s, filtered_notes s = l) (λ s, filtered_notes s = l).
Proof.
  unfold save_current_note.
  apply (triple_bind _ _ (λ _ s, filtered_notes s = l));
    [by apply triple_get|intros i].
  case_match; [by apply triple_ret|].
  apply (triple_bind _ _ (λ _ s, filtered_notes s = l));
    [by apply triple_get|intros l'].
  apply (triple_bind _ _ (λ _ s, filtered_notes s = l));
    [apply triple_item; [by intros|done]|intros note].
  apply (triple_bind _ _ (λ _ s, filtered_notes s = l));
    [apply triple_deref; [by intros|done]|intros n].
  apply (triple_bind _ _ (λ _ s, filtered_notes s = l));
    [by apply triple_store|intros _].
  apply (triple_bind _ _ (λ _ s, filtered_notes s = l));
    [by apply triple_now|intros t].
  apply (triple_bind _ _ (λ _ s, filtered_notes s = l));
    [apply triple_deref; [by intros|done]|intros n'].
  apply (triple_bind _ _ (λ _ s, filtered_notes s = l));
    [by apply triple_store|intros _].
  apply triple_save_notes. intros s Hs. rewrite save_notes_writes. simpl.
  by destruct (mapM _ _).
Qed.

(** What [handle_note_selection] does with an index of the filtered
    list. *)
Lemma handle_note_selection_run (s : state) (index : Z)
    (editor_content : string) (r : nat) :
  (0 ≤ index)%Z → filtered_notes s !! Z.to_nat index = Some r →
  handle_note_selection clock index editor_content s
  = match (if (0 <=? current_note_index s)%Z
           then save_current_note clock editor_content s
           else (Return tt, s)) with
    | (Return _, s1) =>
        (match heap s1 !! r with
         | Some _ => Return tt
         | None => Raise ReferenceError
         end, with_current_note_index index s1)
    | (Raise e, s1) => (Raise e, s1)
    end.
Proof.
  intros Hindex Hr. pose proof (lookup_lt_Some _ _ _ Hr) as Hlt.
  unfold handle_note_selection, mbind, M_bind, bind at 1, get at 1.
  cbv beta iota.
  assert (((index <? 0) || (Z.of_nat (length (filtered_notes s)) <=? index))%Z
          = false) as ->.
  { apply orb_false_iff. split; [apply Z.ltb_ge|apply Z.leb_gt]; lia. }
  unfold bind at 1, get at 1. cbv beta iota. unfold bind at 1.
  assert (∀ s1, filtered_notes s1 = filtered_notes s →
            bind (modify (with_current_note_index index))
              (λ _, bind (get filtered_notes)
                      (λ l, bind (item l index)
                              (λ note, bind (deref note) (λ _, ret tt)))) s1
            = (match heap s1 !! r with
               | Some _ => Return tt
               | None => Raise ReferenceError
               end, with_current_note_index index s1)) as Hrest.
  { intros s1 Hf. unfold bind, modify, get, item. simpl. rewrite Hf, Hr.
    unfold ret, deref. simpl. by destruct (heap s1 !! r). }
  destruct (0 <=? current_note_index s)%Z.
  - pose proof (save_current_note_filtered editor_content
                  (filtered_notes s) s eq_refl) as Hf.
    revert Hf.
    destruct (save_current_note clock editor_content s) as [[[]|e] s1];
      [|done].
    intros Hf. by apply Hrest.
  - unfold ret at 1. by apply Hrest.
Qed.

(** X20.  [handle_note_selection]: an index outside the filtered list
    is ignored.  Otherwise, when no note was selected, only the
    selection moves; when a note was selected, the content of the
    editor and the time of the clock are first saved into that note
    and the notes are written to the file, and then the selection
    moves. *)
Theorem handle_note_selection_saves_then_moves (s : state) (index : Z)
    (editor_content : string) :
  ((index < 0 ∨ Z.of_nat (length (filtered_notes s)) ≤ index)%Z →
   handle_note_selection clock index editor_content s = (Return tt, s)) ∧
  (∀ r, (0 ≤ index)%Z → filtered_notes s !! Z.to_nat index = Some r →
     is_Some (heap s !! r) →
     ((current_note_index s < 0)%Z →
      handle_note_selection clock index editor_content s
      = (Return tt, with_current_note_index index s)) ∧
     (∀ r0 n0, (0 ≤ current_note_index s)%Z →
        filtered_notes s !! Z.to_nat (current_note_index s) = Some r0 →
        heap s !! r0 = Some n0 →
        handle_note_selection clock index editor_content s
        = (Return tt,
           with_current_note_index index
             (save_notes
                (with_ticks (S (ticks s))
                   (with_heap
                      (<[r0 := edited n0 editor_content (clock (ticks s))]>
                         (heap s)) s))).2))).
Proof.
  split.
  - intros Hout.
    unfold handle_note_selection, mbind, M_bind, bind at 1, get at 1.
    cbv beta iota.
    assert (((index <? 0)
             || (Z.of_nat (length (filtered_notes s)) <=? index))%Z
            = true) as ->; [|done].
    apply orb_true_iff. destruct Hout; [left; apply Z.ltb_lt|right; apply Z.leb_le]; lia.
  - intros r Hindex Hr Halloc.
    rewrite (handle_note_selection_run s index editor_content r) by done.
    split.
    + intros Hi. rewrite (proj2 (Z.leb_gt _ _) Hi).
      by destruct Halloc as [n ->].
    + intros r0 n0 Hi Hr0 Hn0. rewrite (proj2 (Z.leb_le _ _) Hi).
      rewrite (save_current_note_run clock s editor_content r0 n0) by done.
      rewrite save_notes_writes. cbn [fst snd].
      assert (is_Some (<[r0 := edited n0 editor_content (clock (ticks s))]>
                         (heap s) !! r)) as [n Hn].
      { apply lookup_lt_is_Some. rewrite length_insert.
        by apply lookup_lt_is_Some. }
      destruct (mapM _ _); cbn [heap with_notes_file with_ticks with_heap];
        by rewrite Hn.
Qed.

(** The first steps of [create_new_note]: the new object is appended
    to the list and the filter is dropped. *)
Lemma create_new_note_run (dialog : new_note_dialog)
    (editor_content : string) (s : state) :
  ∃ n,
    title n ≠ "" ∧
    (strip (title_input dialog) ≠ "" → title n = strip (title_input dialog)) ∧
    (strip (title_input dialog) = "" → title n = "Untitled") ∧
    content n = "" ∧ is_code n = is_code_check dialog ∧
    ("" ∉ tags n) ∧
    category n = (if String.eqb (category_combo dialog) "(None)" then None
                  else Some (category_combo dialog)) ∧
    created_date n = clock (ticks s) ∧ modified_date n = clock (ticks s) ∧
    create_new_note clock dialog editor_content s
    = (handle_note_selection clock (Z.of_nat (length (notes s)))
         editor_content
       ≫= λ _, sidebar ← get sidebar_tags;
               modify (with_sidebar_tags (add_new_tags (tags n) sidebar)))
        (mkState (S (ticks s)) (heap s ++ [n])
           (notes s ++ [length (heap s)]) (notes s ++ [length (heap s)])
           (current_note_index s) (sidebar_categories s) (sidebar_tags s)
           (notes_file s)).
Proof.
  eexists (mkNote _ "" _ _ _ (clock (ticks s)) (clock (ticks s))).
  cbn [title content is_code tags category created_date modified_date].
  split; [|split; [|split; [|split; [|split; [|split; [|split; [|split;
    [|split]]]]]]]]; [| | | | | | | | |
    destruct s as [t h l fl i cs ts f];
    unfold create_new_note, Note_init, now, alloc, mbind, M_bind;
    unfold bind at 1 2 3 4 5 6, get at 1 2, modify at 1 2;
    cbn [ticks heap notes filtered_notes current_note_index sidebar_categories
         sidebar_tags notes_file default with_filtered_notes with_notes
         with_ticks with_heap];
    rewrite length_app; cbn [length];
    replace (Z.of_nat (length l + 1) - 1)%Z with (Z.of_nat (length l)) by lia;
    reflexivity].
  - by destruct (strip (title_input dialog)).
  - by destruct (strip (title_input dialog)).
  - by intros ->.
  - done.
  - done.
  - intros (t & Ht & Hin)%list_elem_of_fmap.
    apply list_elem_of_filter in Hin as [Hin _]. by rewrite <- Ht in Hin.
  - done.
  - done.
  - done.
Qed.

(** X21.  [create_new_note].  The new note has the trimmed title of the dialog, or [Untitled]
    when that is empty, no content, no empty tag, and the time of the
    clock as both dates; it is appended to the list, the filter is
    dropped and the new note is selected.  When no note was selected
    nothing else changes but the tags of the sidebar, and the file is
    not written.  When the note at position [i] of the filtered list
    was selected, the content of the editor is saved into the note at
    position [i] of the whole list. *)
Theorem create_new_note_appends (dialog : new_note_dialog)
    (editor_content : string) (s : state) :
  ∃ n,
    title n ≠ "" ∧
    (strip (title_input dialog) ≠ "" → title n = strip (title_input dialog)) ∧
    (strip (title_input dialog) = "" → title n = "Untitled") ∧
    content n = "" ∧ is_code n = is_code_check dialog ∧
    ("" ∉ tags n) ∧
    category n = (if String.eqb (category_combo dialog) "(None)" then None
                  else Some (category_combo dialog)) ∧
    created_date n = clock (ticks s) ∧ modified_date n = clock (ticks s) ∧
    ((current_note_index s < 0)%Z →
     create_new_note clock dialog editor_content s
     = (Return tt,
        mkState (S (ticks s)) (heap s ++ [n])
          (notes s ++ [length (heap s)]) (notes s ++ [length (heap s)])
          (Z.of_nat (length (notes s))) (sidebar_categories s)
          (add_new_tags (tags n) (sidebar_tags s)) (notes_file s))) ∧
    (∀ r0 n0, (0 ≤ current_note_index s)%Z →
       notes s !! Z.to_nat (current_note_index s) = Some r0 →
       heap s !! r0 = Some n0 →
       let s' := (create_new_note clock dialog editor_content s).2 in
       (create_new_note clock dialog editor_content s).1 = Return tt ∧
       heap s'
       = <[r0 := edited n0 editor_content (clock (S (ticks s)))]>
           (heap s ++ [n])%list ∧
       notes s' = (notes s ++ [length (heap s)])%list ∧
       filtered_notes s' = notes s' ∧
       current_note_index s' = Z.of_nat (length (notes s))).
Proof.
  destruct (create_new_note_run dialog editor_content s)
    as (n & H1 & H2 & H3 & H4 & H5 & H6 & H7 & H8 & H9 & Hrun).
  exists n. do 9 (split; [done|]).
  set (s1 := mkState (S (ticks s)) (heap s ++ [n])
               (notes s ++ [length (heap s)]) (notes s ++ [length (heap s)])
               (current_note_index s) (sidebar_categories s) (sidebar_tags s)
               (notes_file s)) in *.
  assert (filtered_notes s1 !! Z.to_nat (Z.of_nat (length (notes s)))
          = Some (length (heap s))) as Hnew.
  { rewrite Nat2Z.id. cbn [s1 filtered_notes].
    by rewrite lookup_app_r, Nat.sub_diag by lia. }
  pose proof (handle_note_selection_run s1 (Z.of_nat (length (notes s)))
                editor_content (length (heap s)) ltac:(lia) Hnew) as Hsel.
  cbn [s1 current_note_index] in Hsel. fold s1 in Hsel.
  split.
  - intros Hi. rewrite Hrun. unfold mbind at 1, M_bind, bind at 1.
    rewrite Hsel, (proj2 (Z.leb_gt _ _) Hi).
    cbn [s1 heap]. rewrite lookup_after_alloc. reflexivity.
  - intros r0 n0 Hi Hr0 Hn0. cbn zeta.
    pose proof (lookup_lt_Some _ _ _ Hr0) as Hlt0.
    pose proof (lookup_lt_Some _ _ _ Hn0) as Hlt1.
    assert (create_new_note clock dialog editor_content s
            = (Return tt,
               with_sidebar_tags (add_new_tags (tags n) (sidebar_tags s))
                 (with_current_note_index (Z.of_nat (length (notes s)))
                    (save_notes
                       (with_ticks (S (ticks s1))
                          (with_heap
                             (<[r0 := edited n0 editor_content
                                        (clock (ticks s1))]> (heap s1))
                             s1))).2))) as ->.
    { rewrite Hrun. unfold mbind at 1, M_bind, bind at 1.
      rewrite Hsel, (proj2 (Z.leb_le _ _) Hi).
      rewrite (save_current_note_run clock s1 editor_content r0 n0);
        [|done| |].
      - rewrite save_notes_writes. cbn [fst snd].
        assert (is_Some (<[r0 := edited n0 editor_content (clock (ticks s1))]>
                           (heap s1) !! length (heap s))) as [x Hx].
        { apply lookup_lt_is_Some. rewrite length_insert. cbn [s1 heap].
          rewrite length_app. simpl. lia. }
        destruct (mapM _ _);
          cbn [heap with_notes_file with_ticks with_heap];
          rewrite Hx; reflexivity.
      - cbn [s1 filtered_notes current_note_index]. by rewrite lookup_app_l.
      - cbn [s1 heap]. by rewrite lookup_app_l. }
    rewrite save_notes_writes. cbn [fst snd].
    by destruct (mapM _ _).
Qed.

End Selection.


(** ** Reading a dict; the tags of the sidebar *)

Lemma dict_get_missing (d : list (string * json)) (key : string)
    (default : json) :
  missing key d → dict_get d key default = default.
Proof.
  unfold missing. induction d as [|[k v] d IH]; [done|].
  rewrite fmap_cons, not_elem_of_cons. simpl. intros [Hk Hd].
  rewrite (proj2 (String.eqb_neq k key)) by done. by apply IH.
Qed.

Section Reading.
Variable clock : nat → datetime.

(** X22.  [from_dict] on a dict that has none of the seven keys makes
    a note with an empty title and content, not code, without tags or
    category; its created date is the second reading of the clock in
    the call and its modified date the third, not the reading of the
    constructor.  On a value that is not a dict it raises
    [AttributeError] and allocates nothing. *)
Theorem from_dict_defaults (d : list (string * json)) (v : json) (s : state) :
  ((∀ key, key ∈ ["title"; "content"; "is_code"; "tags"; "category";
                  "created_date"; "modified_date"] → missing key d) →
   valid (clock (S (ticks s))) = true →
   valid (clock (S (S (ticks s)))) = true →
   from_dict clock (JObject d) s
   = (Return (length (heap s)),
      with_ticks (3 + ticks s)
        (with_heap
           (heap s ++ [mkNote "" "" false [] None (clock (S (ticks s)))
                         (clock (S (S (ticks s))))]) s))) ∧
  ((∀ d', v ≠ JObject d') → from_dict clock v s = (Raise AttributeError, s)).
Proof.
  split.
  - intros Hmissing Hv1 Hv2.
    assert (∀ key default,
              key ∈ ["title"; "content"; "is_code"; "tags"; "category";
                     "created_date"; "modified_date"] →
              dict_get d key default = default) as Hget.
    { intros key default Hkey. by apply dict_get_missing, Hmissing. }
    unfold from_dict, Note_init, mbind, M_bind, bind, lift, now, alloc.
    cbn [as_dict]. cbv beta iota.
    rewrite !Hget by (repeat first [by left|right]).
    cbn [as_str as_bool as_str_list as_str_items as_optional_str].
    cbv beta iota. cbn [ticks with_ticks with_heap heap default].
    rewrite !Hget by (repeat first [by left|right]).
    cbn [parse_date]. rewrite fromisoformat_isoformat by done.
    unfold deref at 1. cbn [heap with_ticks with_heap].
    rewrite lookup_after_alloc.
    unfold store at 1, modify at 1, mbind, M_bind, bind.
    cbn [ticks with_ticks with_heap heap].
    rewrite !Hget by (repeat first [by left|right]).
    cbn [parse_date]. rewrite fromisoformat_isoformat by done.
    unfold store, modify, deref. cbn [heap with_ticks with_heap ticks].
    rewrite insert_after_alloc, lookup_after_alloc.
    cbn [heap with_ticks with_heap ticks title content is_code tags category
         created_date modified_date].
    rewrite insert_after_alloc.
    destruct s. reflexivity.
  - intros Hv. unfold from_dict, mbind, M_bind, bind, lift.
    destruct v as [| | | | |d']; try reflexivity.
    by destruct (Hv d').
Qed.

End Reading.

Lemma from_dict_defaults_witness :
  from_dict stopped_clock (JObject [("color", JString "red")]) (installed 0)
  = (Return 0%nat,
     mkState 3 [mkNote "" "" false [] None noon noon] [] [] (-1) [] [] None).
Proof.
  rewrite (proj1 (from_dict_defaults stopped_clock
                    [("color", JString "red")] JNull (installed 0))).
  - reflexivity.
  - intros key Hkey. unfold missing.
    rewrite fmap_cons, fmap_nil, list_elem_of_singleton. cbn [fst].
    intros ->.
    repeat (apply elem_of_cons in Hkey as [Hkey|Hkey]; [done|]).
    by apply elem_of_nil in Hkey.
  - reflexivity.
  - reflexivity.
Defined.

(** X23.  The loop that adds the tags of a new note to the sidebar
    keeps the tags of the sidebar, in their order, and appends behind
    them each new tag that the sidebar does not have, once; if the
    sidebar had no tag twice, it still has none twice. *)
Theorem add_new_tags_appends_new (new_tags sidebar : list string) :
  ∃ added, add_new_tags new_tags sidebar = (sidebar ++ added)%list ∧
    NoDup added ∧
    (∀ t, t ∈ added ↔ t ∈ new_tags ∧ t ∉ sidebar) ∧
    (NoDup sidebar → NoDup (add_new_tags new_tags sidebar)).
Proof.
  assert (∃ added, add_new_tags new_tags sidebar = (sidebar ++ added)%list ∧
            NoDup added ∧ (∀ t, t ∈ added ↔ t ∈ new_tags ∧ t ∉ sidebar))
    as (added & Heq & Hnd & Hin).
  { revert sidebar. induction new_tags as [|t rest IH]; intros sidebar.
    - exists []. rewrite app_nil_r. split; [done|]. split; [constructor|].
      intros t. rewrite elem_of_nil. tauto.
    - cbn [add_new_tags]. case_bool_decide as Ht.
      + destruct (IH sidebar) as (added & -> & Hnd & Hin).
        exists added. split; [done|]. split; [done|].
        intros x. rewrite Hin, elem_of_cons. split; [tauto|].
        intros [[->|?] ?]; tauto.
      + destruct (IH (sidebar ++ [t])%list) as (added & -> & Hnd & Hin).
        exists (t :: added). rewrite <- app_assoc. split; [done|]. split.
        * apply NoDup_cons. split; [|done]. rewrite Hin.
          intros [_ Hnot]. apply Hnot, elem_of_app. right. by left.
        * intros x. rewrite !elem_of_cons, Hin, not_elem_of_app.
          rewrite list_elem_of_singleton.
          destruct (decide (x = t)) as [->|Hx]; tauto. }
  exists added. split; [done|]. split; [done|]. split; [done|].
  intros Hs. rewrite Heq. apply NoDup_app. split; [done|]. split; [|done].
  intros x Hx [_ Hnot]%Hin. done.
Qed.


(** ** The statements at concrete states *)

Lemma first_run_allocated :
  ∀ r, r ∈ notes first_run → is_Some (heap first_run !! r).
Proof.
  destruct (reachable_tidy stopped_clock _ first_run_reachable)
    as (_ & Halloc & _).
  intros r Hr. apply lookup_lt_is_Some. by apply Halloc.
Qed.

Lemma filter_notes_witness :
  (∀ r, r ∈ notes first_run → is_Some (heap first_run !! r)) ∧
  filtered_notes (filter_notes stopped_clock "code" "" first_run).2
  = [1%nat].
Proof.
  split; [exact first_run_allocated|].
  destruct (filter_notes_selects stopped_clock first_run "code" ""
              first_run_allocated) as (_ & -> & _).
  reflexivity.
Defined.

Lemma search_notes_witness :
  (∀ r, r ∈ notes first_run → is_Some (heap first_run !! r)) ∧
  "Hello" ≠ "" ∧
  ∃ l, search_notes stopped_clock "Hello" first_run
       = (Return tt, with_filtered_notes l first_run) ∧ 1%nat ∈ l.
Proof.
  split; [exact first_run_allocated|].
  assert ("Hello" ≠ "") as Hne by done. split; [exact Hne|].
  destruct (proj2 (search_notes_literal stopped_clock first_run "Hello"
                     first_run_allocated) Hne) as (l & Heq & _ & Hin).
  exists l. split; [exact Heq|]. apply Hin. split.
  - change (notes first_run) with [0%nat; 1%nat]. right. by left.
  - exists (code_note noon). split; [reflexivity|]. left.
    apply TextFacts.containsb_spec. reflexivity.
Defined.

Lemma load_notes_unreadable_witness :
  notes_file (mkState 0 [] [] [] (-1) [] [] (Some Garbage)) = Some Garbage ∧
  load_notes stopped_clock (mkState 0 [] [] [] (-1) [] [] (Some Garbage))
  = create_sample_notes stopped_clock
      (mkState 0 [] [] [] (-1) [] [] (Some Garbage)).
Proof.
  split; [reflexivity|].
  apply (load_notes_unreadable_shows_samples stopped_clock
           (mkState 0 [] [] [] (-1) [] [] (Some Garbage))).
  by right.
Defined.

Lemma handle_note_selection_witness :
  (0 ≤ 0)%Z ∧ filtered_notes first_run !! Z.to_nat 0 = Some 0%nat ∧
  is_Some (heap first_run !! 0%nat) ∧ (current_note_index first_run < 0)%Z ∧
  handle_note_selection stopped_clock 0 "" first_run
  = (Return tt, with_current_note_index 0 first_run).
Proof.
  assert (0 ≤ 0)%Z as H0 by lia.
  assert (is_Some (heap first_run !! 0%nat)) as H1
    by (exists (welcome_note noon); reflexivity).
  assert (current_note_index first_run < 0)%Z as H2 by (by vm_compute).
  split; [exact H0|]. split; [reflexivity|]. split; [exact H1|].
  split; [exact H2|].
  exact (proj1 (proj2 (handle_note_selection_saves_then_moves stopped_clock
                         first_run 0 "") 0%nat H0 eq_refl H1) H2).
Defined.

Lemma create_new_note_witness :
  (current_note_index first_run < 0)%Z ∧
  notes (create_new_note stopped_clock (mkDialog " " "(None)" false "a, ,b")
           "" first_run).2
  = [0%nat; 1%nat; 2%nat].
Proof.
  assert (current_note_index first_run < 0)%Z as H by (by vm_compute).
  split; [exact H|].
  destruct (create_new_note_appends stopped_clock
              (mkDialog " " "(None)" false "a, ,b") "" first_run)
    as (n & _ & _ & _ & _ & _ & _ & _ & _ & _ & Hnone & _).
  rewrite (Hnone H). reflexivity.
Defined.

Lemma add_new_tags_witness :
  NoDup ["a"] ∧ NoDup (add_new_tags ["b"; "a"; "b"] ["a"]).
Proof.
  assert (NoDup ["a"]) as H by apply NoDup_singleton.
  split; [exact H|].
  destruct (add_new_tags_appends_new ["b"; "a"; "b"] ["a"])
    as (added & _ & _ & _ & Hnd).
  exact (Hnd H).
Defined.


(** ** The list widget *)

Lemma length_replace_char (old new : ascii) (s : string) :
  String.length (replace_char old new s) = String.length s.
Proof. induction s as [|c s IH]; simpl; by rewrite ?IH. Qed.

Lemma length_slice_to (n : nat) (s : string) :
  (n ≤ String.length s)%nat → String.length (slice_to n s) = n.
Proof.
  revert s. induction n as [|n IH]; intros [|c s]; simpl; try done; try lia.
  intros Hn. rewrite IH; lia.
Qed.

Lemma length_append (s1 s2 : string) :
  String.length (s1 +:+ s2) = (String.length s1 + String.length s2)%nat.
Proof. induction s1 as [|c s1 IH]; simpl; by rewrite ?IH. Qed.

Lemma get_append_replaced (s tail : string) (k : nat) :
  (∀ j, String.get j tail ≠ Some (ascii_of_nat 10)) →
  String.get k (replace_char (ascii_of_nat 10) " " s +:+ tail)
  ≠ Some (ascii_of_nat 10).
Proof.
  intros Htail. revert k. induction s as [|c s IH]; intros k.
  - apply Htail.
  - simpl. destruct k as [|k]; [|apply IH].
    destruct (Ascii.eqb c (ascii_of_nat 10)) eqn:Hc; [done|].
    intros [= ->]. by rewrite Ascii.eqb_refl in Hc.
Qed.

Lemma get_replace_char (old new : ascii) (s : string) (k : nat) :
  String.get k (replace_char old new s)
  = (λ c, if Ascii.eqb c old then new else c) <$> String.get k s.
Proof.
  revert k. induction s as [|c s IH]; intros k; [done|].
  simpl. destruct k as [|k]; [done|apply IH].
Qed.

Lemma get_slice_to (n : nat) (s : string) (k : nat) :
  (k < n)%nat → String.get k (slice_to n s) = String.get k s.
Proof.
  revert s k. induction n as [|n IH]; intros s k Hk; [lia|].
  destruct s as [|c s]; [done|]. simpl.
  destruct k as [|k]; [done|]. apply IH. lia.
Qed.

Lemma get_append_l (s1 s2 : string) (k : nat) :
  (k < String.length s1)%nat → String.get k (s1 +:+ s2) = String.get k s1.
Proof.
  revert k. induction s1 as [|c s1 IH]; intros k Hk; simpl in *; [lia|].
  destruct k as [|k]; [done|]. apply IH. lia.
Qed.

Lemma get_append_r (s1 s2 : string) (k : nat) :
  String.get (String.length s1 + k) (s1 +:+ s2) = String.get k s2.
Proof. induction s1 as [|c s1 IH]; simpl; [done|apply IH]. Qed.

Lemma get_in_range (s : string) (k : nat) :
  (k < String.length s)%nat → is_Some (String.get k s).
Proof.
  revert k. induction s as [|c s IH]; intros k Hk; simpl in *; [lia|].
  destruct k as [|k]; [by eexists|]. apply IH. lia.
Qed.

(** X27.  The preview of a note in the list: a content of at most 50
    characters is shown as it is, line breaks included; a longer one is
    cut to its first 50 characters, with every line break replaced by a
    space, followed by three dots.  So the preview of a longer content
    has 53 characters; each of the first 50 is the character of the
    content at that place, or a space where the content has a line
    break; the last three are dots; and there is no line break in
    it. *)
Theorem preview_cuts_long_content (content : string) :
  ((String.length content ≤ 50)%nat → preview content = content) ∧
  ((50 < String.length content)%nat →
   String.length (preview content) = 53%nat ∧
   (∀ k, (k < 50)%nat →
      ∃ c, String.get k content = Some c ∧
           String.get k (preview content)
           = Some (if Ascii.eqb c (ascii_of_nat 10) then " "%char else c)) ∧
   (∀ k, (50 ≤ k < 53)%nat → String.get k (preview content) = Some "."%char) ∧
   ∀ k, String.get k (preview content) ≠ Some (ascii_of_nat 10)).
Proof.
  unfold preview. split; intros Hlen.
  - by rewrite (proj2 (Nat.ltb_ge _ _) Hlen).
  - rewrite (proj2 (Nat.ltb_lt _ _) Hlen).
    assert (String.length
              (replace_char (ascii_of_nat 10) " " (slice_to 50 content))
            = 50%nat) as Hcut
      by (rewrite length_replace_char, length_slice_to; lia).
    split; [by rewrite length_append, Hcut|]. split; [|split].
    + intros k Hk.
      destruct (get_in_range content k) as [c Hc]; [lia|].
      exists c. split; [done|].
      rewrite get_append_l by lia.
      by rewrite get_replace_char, get_slice_to, Hc by lia.
    + intros k Hk. replace k with (50 + (k - 50))%nat by lia.
      rewrite <- Hcut at 1. rewrite get_append_r.
      destruct (k - 50)%nat as [|[|[|j]]] eqn:Hj; try done. lia.
    + intros k. apply get_append_replaced.
      intros [|[|[|j]]]; simpl; try done.
Qed.

Lemma preview_witness :
  (String.length "ab" ≤ 50)%nat ∧ preview "ab" = "ab" ∧
  preview
    "0123456789012345678901234567890123456789012345678901234567890123456789"
  = "01234567890123456789012345678901234567890123456789...".
Proof.
  assert (String.length "ab" ≤ 50)%nat as H by (simpl; lia).
  split; [exact H|].
  split; [exact (proj1 (preview_cuts_long_content "ab") H)|].
  reflexivity.
Defined.

Lemma imap_lookup_items (ns : list Note) (i : nat) (n : Note) :
  ns !! i = Some n →
  imap (λ i note, (item_text note, Some (Z.of_nat i))) ns !! i
  = Some (item_text n, Some (Z.of_nat i)).
Proof. intros Hn. by rewrite list_lookup_imap, Hn. Qed.

(** X28.  [update_list], when every note of the filtered list exists,
    changes nothing and fills the widget with one item for each note of
    the filtered list, in order, whose data is the position of the
    note; for an empty filtered list it shows the one item
    [No notes found], which has no data.  The data of every item is a
    position of the filtered list, which [handle_note_selection] does
    not ignore. *)
Theorem update_list_shows_filtered (s : state) :
  (∀ r, r ∈ filtered_notes s → is_Some (heap s !! r)) →
  ∃ items,
    update_list s = (Return items, s) ∧
    (filtered_notes s = [] → items = [("No notes found", None)]) ∧
    (filtered_notes s ≠ [] →
     length items = length (filtered_notes s) ∧
     ∀ i r n, filtered_notes s !! i = Some r → heap s !! r = Some n →
       items !! i = Some (item_text n, Some (Z.of_nat i))) ∧
    (∀ item index, item ∈ items → item.2 = Some index →
       (0 ≤ index < Z.of_nat (length (filtered_notes s)))%Z).
Proof.
  intros Halloc. unfold update_list, mbind, M_bind, bind at 1, get at 1.
  cbv beta iota.
  destruct (filtered_notes s) as [|r0 l] eqn:Hl.
  { eexists. split; [reflexivity|]. split; [done|]. split; [done|].
    intros item index ->%list_elem_of_singleton. done. }
  rewrite <- Hl in *. unfold bind. rewrite for_each_deref.
  assert (∃ ns, mapM (λ r, heap s !! r) (filtered_notes s) = Some ns)
    as [ns Hns].
  { clear Hl. induction (filtered_notes s) as [|r l' IH]; [by exists []|].
    destruct (Halloc r) as [n Hn]; [by left|].
    destruct IH as [ns Hns]; [intros r' ?; apply Halloc; by right|].
    exists (n :: ns). cbn [mapM]. by rewrite Hn, Hns. }
  rewrite Hns. apply mapM_Some in Hns.
  pose proof (Forall2_length _ _ _ Hns) as Hlen.
  eexists. split; [reflexivity|]. split; [by rewrite Hl|]. split.
  - intros _. split; [by rewrite length_imap|].
    intros i r n Hr Hn.
    destruct (Forall2_lookup_l _ _ _ _ _ Hns Hr) as (n' & Hn' & Heq).
    assert (n' = n) as -> by congruence.
    by apply imap_lookup_items.
  - intros [text data] index Hin Hdata. simpl in Hdata. subst data.
    apply list_elem_of_lookup in Hin as [i Hi].
    rewrite list_lookup_imap in Hi.
    destruct (ns !! i) as [n|] eqn:Hn; [|done].
    injection Hi as _ <-. apply lookup_lt_Some in Hn. lia.
Qed.

Lemma update_list_witness :
  (∀ r, r ∈ filtered_notes first_run → is_Some (heap first_run !! r)) ∧
  ∃ items, update_list first_run = (Return items, first_run) ∧
           length items = 2%nat.
Proof.
  assert (∀ r, r ∈ filtered_notes first_run → is_Some (heap first_run !! r))
    as H by exact first_run_allocated.
  split; [exact H|].
  destruct (update_list_shows_filtered first_run H)
    as (items & Heq & _ & Hlen & _).
  exists items. split; [exact Heq|]. by apply Hlen.
Defined.

End QtMoreFacts.
